(** * RelStorage: pack / garbage-collection engine and script runner

  A shallow embedding of [relstorage/adapters/common.py] (class [Adapter])
  and of [CXOracleScriptRunner] from [relstorage/adapters/oracle.py].

  Tables are lists of rows; every SQL statement the adapter issues is a
  function on the database (queries return rows, DML returns the new
  database).  SQL [NULL] is [None]; a predicate that evaluates to NULL
  selects nothing.  The Python side (string handling of the script
  runner, exception flow, logging) is modelled with explicit state
  passing and a result type for exceptions. *)

From Stdlib Require Import ZArith List String Ascii Bool Lia.
From Stdlib Require Import Permutation Sorted.
Import ListNotations.
Local Open Scope Z_scope.

(* ================================================================== *)
(** * Generic SQL building blocks *)
(* ================================================================== *)

Module Sql.

(** [SELECT DISTINCT] on an integer column. *)
Definition distinct (l : list Z) : list Z := nodup Z.eq_dec l.

(** [x IN (SELECT ...)] on an integer column. *)
Definition in_subquery (x : Z) (l : list Z) : bool :=
  existsb (Z.eqb x) l.

(** [ORDER BY key DESC], as an insertion sort. *)
Fixpoint insert_desc {A : Type} (key : A -> Z) (x : A) (l : list A) : list A :=
  match l with
  | [] => [x]
  | y :: l' =>
      if key y <? key x then x :: l else y :: insert_desc key x l'
  end.

Definition order_by_desc {A : Type} (key : A -> Z) (l : list A) : list A :=
  fold_right (insert_desc key) [] l.

(** [LIMIT n]. *)
Definition limit {A : Type} (n : nat) (l : list A) : list A := firstn n l.

(** A scalar subquery: NULL when it selects no row, else the value of the
    (single) selected row. *)
Definition scalar (l : list (option Z)) : option Z :=
  match l with
  | [] => None
  | v :: _ => v
  end.

(** [DELETE FROM t WHERE cond]. *)
Definition delete_where {R : Type} (cond : R -> bool) (rows : list R) : list R :=
  filter (fun r => negb (cond r)) rows.

(** [UPDATE t SET ... WHERE cond]; the second component is the number of
    rows matched, which is what [cursor.rowcount] reports. *)
Definition update_where {R : Type} (cond : R -> bool) (set : R -> R)
    (rows : list R) : list R :=
  map (fun r => if cond r then set r else r) rows.

Definition rowcount {R : Type} (cond : R -> bool) (rows : list R) : nat :=
  List.length (filter cond rows).

(** The order of an [ORDER BY key DESC] result. *)
Definition desc {A : Type} (key : A -> Z) (a b : A) : Prop := key b <= key a.

End Sql.

(* ================================================================== *)
(** * The relational schema *)
(* ================================================================== *)

Module Schema.

Record transaction_row := mk_transaction {
  tx_tid : Z;
  tx_username : string;
  tx_description : string;
  tx_extension : string;
  tx_packed : bool
}.

(** [state] is a Python 2 byte string or NULL. *)
Record object_state_row := mk_object_state {
  os_zoid : Z;
  os_tid : Z;
  os_prev_tid : Z;
  os_state : option string
}.

Record current_object_row := mk_current_object {
  co_zoid : Z;
  co_tid : Z
}.

Record object_ref_row := mk_object_ref {
  or_zoid : Z;
  or_tid : Z;
  or_to_zoid : Z
}.

Record pack_object_row := mk_pack_object {
  po_zoid : Z;
  po_keep : bool;
  po_keep_tid : option Z
}.

(** [temp_pack_visit] is the session-scoped temporary table created by
    [_create_temp_pack_visit]. *)
Record db := mk_db {
  transaction : list transaction_row;
  object_state : list object_state_row;
  current_object : list current_object_row;
  object_ref : list object_ref_row;
  object_refs_added : list Z;
  pack_object : list pack_object_row;
  temp_pack_visit : list Z
}.

Definition set_transaction (v : list transaction_row) (d : db) : db :=
  mk_db v (object_state d) (current_object d) (object_ref d)
        (object_refs_added d) (pack_object d) (temp_pack_visit d).
Definition set_object_state (v : list object_state_row) (d : db) : db :=
  mk_db (transaction d) v (current_object d) (object_ref d)
        (object_refs_added d) (pack_object d) (temp_pack_visit d).
Definition set_current_object (v : list current_object_row) (d : db) : db :=
  mk_db (transaction d) (object_state d) v (object_ref d)
        (object_refs_added d) (pack_object d) (temp_pack_visit d).
Definition set_object_ref (v : list object_ref_row) (d : db) : db :=
  mk_db (transaction d) (object_state d) (current_object d) v
        (object_refs_added d) (pack_object d) (temp_pack_visit d).
Definition set_object_refs_added (v : list Z) (d : db) : db :=
  mk_db (transaction d) (object_state d) (current_object d) (object_ref d)
        v (pack_object d) (temp_pack_visit d).
Definition set_pack_object (v : list pack_object_row) (d : db) : db :=
  mk_db (transaction d) (object_state d) (current_object d) (object_ref d)
        (object_refs_added d) v (temp_pack_visit d).
Definition set_temp_pack_visit (v : list Z) (d : db) : db :=
  mk_db (transaction d) (object_state d) (current_object d) (object_ref d)
        (object_refs_added d) (pack_object d) v.

Definition empty_db : db := mk_db [] [] [] [] [] [] [].

End Schema.

(* ================================================================== *)
(** * Exceptions and the adapter monad *)
(* ================================================================== *)

Module Exn.

(** Exceptions that cross the adapter methods modelled below:
    [KeyError(oid)] from [iter_object_history], and whatever the
    [get_references] callback raises (identified by a tag).  The SQL
    statements are taken to execute: what [cursor.execute] itself may
    raise, and how [_run_script_stmt] logs and re-raises it, is the matter
    of the module [Runner]; it is not threaded through the methods here,
    which describe the tables a run leaves when the driver raises nothing. *)
Inductive exn :=
| KeyError (oid : Z)
| CallbackError (tag : string).

Inductive result (A : Type) :=
| Ok (a : A)
| Raise (e : exn).
Arguments Ok {A} a.
Arguments Raise {A} e.

(** Database state threaded through a method, with exceptions. *)
Definition M (A : Type) : Type := Schema.db -> result A * Schema.db.

Definition ret {A : Type} (a : A) : M A := fun d => (Ok a, d).

Definition bind {A B : Type} (m : M A) (k : A -> M B) : M B :=
  fun d =>
    match m d with
    | (Ok a, d') => k a d'
    | (Raise e, d') => (Raise e, d')
    end.

(** A [SELECT]: reads the database, leaves it as it is. *)
Definition query {A : Type} (q : Schema.db -> A) : M A :=
  fun d => (Ok (q d), d).

(** An [INSERT], [UPDATE] or [DELETE]. *)
Definition exec (u : Schema.db -> Schema.db) : M unit :=
  fun d => (Ok tt, u d).

Definition raise {A : Type} (e : exn) : M A := fun d => (Raise e, d).

(** [try: body / except: conn.rollback(); raise / else: conn.commit()]. *)
Definition in_transaction {A : Type} (body : M A) : M A :=
  fun d =>
    match body d with
    | (Ok a, d') => (Ok a, d')
    | (Raise e, _) => (Raise e, d)
    end.

End Exn.

Declare Scope adapter_scope.
Delimit Scope adapter_scope with adapter.
Notation "x <- c ;; k" := (Exn.bind c (fun x => k))
(at level 61, c at next level, right associativity) : adapter_scope.
Notation "c ;;; k" := (Exn.bind c (fun _ => k))
(at level 61, right associativity) : adapter_scope.

(* ================================================================== *)
(** * [common.py]: class [Adapter], the SQL it issues *)
(* ================================================================== *)

Module Adapter.
Import Sql Schema Exn.
Local Open Scope adapter_scope.

(** [for x in l: body(x)]. *)
Fixpoint for_each {A : Type} (l : list A) (body : A -> M unit) : M unit :=
  match l with
  | [] => ret tt
  | x :: l' => body x ;;; for_each l' body
  end.

(** ** [_scripts] *)

(** [_scripts['select_keep_tid']], correlated on [pack_object.zoid]:
<<
    SELECT tid FROM object_state
    WHERE zoid = pack_object.zoid AND tid > 0 AND tid <= %(pack_tid)s
    ORDER BY tid DESC LIMIT 1
>> *)
Definition select_keep_tid (pack_tid zoid : Z) (d : db) : option Z :=
  scalar (map Some
    (limit 1 (order_by_desc (fun t => t)
      (map os_tid
        (filter (fun r => (os_zoid r =? zoid) && (0 <? os_tid r)
                          && (os_tid r <=? pack_tid))
                (object_state d)))))).

(** [_scripts['choose_pack_transaction']]:
<<
    SELECT tid FROM transaction
    WHERE tid > 0 AND tid <= %(tid)s AND packed = FALSE
    ORDER BY tid DESC LIMIT 1
>> *)
Definition select_choose_pack_transaction (tid : Z) (d : db) : list Z :=
  limit 1 (order_by_desc (fun t => t)
    (map tx_tid
      (filter (fun r => (0 <? tx_tid r) && (tx_tid r <=? tid)
                        && negb (tx_packed r))
              (transaction d)))).

(** ** [choose_pack_transaction] *)

Definition choose_pack_transaction (pack_point : Z) : M (option Z) :=
  rows <- query (select_choose_pack_transaction pack_point) ;;
  match rows with
  | [] => ret None
  | r :: _ => ret (Some r)
  end.

(** ** [iter_object_history] *)

Record history_row := mk_history {
  h_tid : Z;
  h_username : string;
  h_description : string;
  h_extension : string;
  h_pickle_size : option Z
}.

(** [OCTET_LENGTH(state)]; NULL for a NULL state. *)
Definition octet_length (state : option string) : option Z :=
  option_map (fun s => Z.of_nat (String.length s)) state.

(** [SELECT 1 FROM current_object WHERE zoid = %(oid)s]. *)
Definition select_current_object (oid : Z) (d : db) : list Z :=
  map (fun _ => 1) (filter (fun c => co_zoid c =? oid) (current_object d)).

(** [transaction JOIN object_state USING (tid)]. *)
Definition transaction_join_object_state (d : db)
    : list (transaction_row * object_state_row) :=
  flat_map (fun t =>
      map (fun s => (t, s))
          (filter (fun s => os_tid s =? tx_tid t) (object_state d)))
    (transaction d).

(**
<<
    SELECT tid, username, description, extension, OCTET_LENGTH(state)
    FROM transaction JOIN object_state USING (tid)
    WHERE zoid = %(oid)s AND packed = FALSE
    ORDER BY tid DESC
>> *)
Definition select_object_history (oid : Z) (d : db) : list history_row :=
  order_by_desc h_tid
    (map (fun ts =>
            mk_history (tx_tid (fst ts)) (tx_username (fst ts))
                       (tx_description (fst ts)) (tx_extension (fst ts))
                       (octet_length (os_state (snd ts))))
         (filter (fun ts => (os_zoid (snd ts) =? oid)
                            && negb (tx_packed (fst ts)))
                 (transaction_join_object_state d))).

Definition iter_object_history (oid : Z) : M (list history_row) :=
  found <- query (select_current_object oid) ;;
  match found with
  | [] => raise (KeyError oid)
  | _ :: _ => query (select_object_history oid)
  end.

(** ** [_pre_pack_without_gc] *)

(** [DELETE FROM pack_object]. *)
Definition delete_pack_object (d : db) : db := set_pack_object [] d.

(**
<<
    INSERT INTO pack_object (zoid, keep)
    SELECT DISTINCT zoid, <keep> FROM object_state WHERE tid <= %(pack_tid)s
>>  The column [keep_tid] is left NULL. *)
Definition insert_pack_object (keep : bool) (pack_tid : Z) (d : db) : db :=
  set_pack_object
    (pack_object d ++
     map (fun z => mk_pack_object z keep None)
         (distinct (map os_zoid
            (filter (fun r => os_tid r <=? pack_tid) (object_state d)))))
    d.

Definition set_keep_tid (v : option Z) (p : pack_object_row) : pack_object_row :=
  mk_pack_object (po_zoid p) (po_keep p) v.

Definition set_keep (v : bool) (p : pack_object_row) : pack_object_row :=
  mk_pack_object (po_zoid p) v (po_keep_tid p).

(** [UPDATE pack_object SET keep_tid = (@select_keep_tid@)]. *)
Definition update_all_keep_tid (pack_tid : Z) (d : db) : db :=
  set_pack_object
    (update_where (fun _ => true)
       (fun p => set_keep_tid (select_keep_tid pack_tid (po_zoid p) d) p)
       (pack_object d))
    d.

Definition _pre_pack_without_gc (pack_tid : Z) : M unit :=
  exec delete_pack_object ;;;
  exec (insert_pack_object true pack_tid) ;;;
  exec (update_all_keep_tid pack_tid).

(** ** [pack] *)

Inductive table := T_object_ref | T_current_object | T_object_state.

Definition table_eqb (a b : table) : bool :=
  match a, b with
  | T_object_ref, T_object_ref => true
  | T_current_object, T_current_object => true
  | T_object_state, T_object_state => true
  | _, _ => false
  end.

(** [zoid IN (SELECT zoid FROM pack_object WHERE keep = FALSE)]. *)
Definition not_kept (d : db) (zoid : Z) : bool :=
  in_subquery zoid
    (map po_zoid (filter (fun p => negb (po_keep p)) (pack_object d))).

(** [(SELECT keep_tid FROM pack_object WHERE zoid = <table>.zoid)]. *)
Definition keep_tid_of (d : db) (zoid : Z) : option Z :=
  scalar (map po_keep_tid
            (filter (fun p => po_zoid p =? zoid) (pack_object d))).

(**
<<
    zoid IN (SELECT zoid FROM pack_object WHERE keep = TRUE)
    AND tid < (SELECT keep_tid FROM pack_object WHERE zoid = <table>.zoid)
>>  A NULL [keep_tid] makes the comparison NULL: the row is not selected. *)
Definition before_keep_tid (d : db) (zoid tid : Z) : bool :=
  in_subquery zoid (map po_zoid (filter po_keep (pack_object d)))
  && match keep_tid_of d zoid with
     | Some k => tid <? k
     | None => false
     end.

(** The first [DELETE] of the table loop. *)
Definition delete_not_kept (t : table) (d : db) : db :=
  match t with
  | T_object_ref =>
      set_object_ref
        (delete_where (fun r => not_kept d (or_zoid r)) (object_ref d)) d
  | T_current_object =>
      set_current_object
        (delete_where (fun r => not_kept d (co_zoid r)) (current_object d)) d
  | T_object_state =>
      set_object_state
        (delete_where (fun r => not_kept d (os_zoid r)) (object_state d)) d
  end.

(** The second [DELETE] of the table loop (history cut). *)
Definition delete_history (t : table) (d : db) : db :=
  match t with
  | T_object_ref =>
      set_object_ref
        (delete_where (fun r => before_keep_tid d (or_zoid r) (or_tid r))
                      (object_ref d)) d
  | T_current_object =>
      set_current_object
        (delete_where (fun r => before_keep_tid d (co_zoid r) (co_tid r))
                      (current_object d)) d
  | T_object_state =>
      set_object_state
        (delete_where (fun r => before_keep_tid d (os_zoid r) (os_tid r))
                      (object_state d)) d
  end.

(** Body of [for table in ('object_ref', 'current_object', 'object_state')]. *)
Definition pack_table (t : table) : M unit :=
  exec (delete_not_kept t) ;;;
  if negb (table_eqb t T_current_object)
  then exec (delete_history t)
  else ret tt.

Definition pack_tables : list table :=
  [T_object_ref; T_current_object; T_object_state].

Definition set_prev_tid (v : Z) (r : object_state_row) : object_state_row :=
  mk_object_state (os_zoid r) (os_tid r) v (os_state r).

(** [UPDATE object_state SET prev_tid = 0
     WHERE tid <= %(pack_tid)s AND prev_tid != 0]. *)
Definition terminate_prev_tid (pack_tid : Z) (d : db) : db :=
  set_object_state
    (update_where
       (fun r => (os_tid r <=? pack_tid) && negb (os_prev_tid r =? 0))
       (set_prev_tid 0)
       (object_state d))
    d.

(** [NOT EXISTS (SELECT 1 FROM object_state WHERE tid = <outer>.tid)]. *)
Definition no_object_state (d : db) (tid : Z) : bool :=
  negb (existsb (fun r => os_tid r =? tid) (object_state d)).

(** [DELETE FROM object_refs_added WHERE tid > 0 AND tid <= %(pack_tid)s
     AND NOT EXISTS (...)]. *)
Definition delete_object_refs_added (pack_tid : Z) (d : db) : db :=
  set_object_refs_added
    (delete_where
       (fun t => (0 <? t) && (t <=? pack_tid) && no_object_state d t)
       (object_refs_added d))
    d.

(** [DELETE FROM transaction WHERE tid > 0 AND tid <= %(pack_tid)s
     AND NOT EXISTS (...)]. *)
Definition delete_transaction (pack_tid : Z) (d : db) : db :=
  set_transaction
    (delete_where
       (fun r => (0 <? tx_tid r) && (tx_tid r <=? pack_tid)
                 && no_object_state d (tx_tid r))
       (transaction d))
    d.

Definition set_packed (v : bool) (r : transaction_row) : transaction_row :=
  mk_transaction (tx_tid r) (tx_username r) (tx_description r)
                 (tx_extension r) v.

(** [UPDATE transaction SET packed = TRUE
     WHERE tid > 0 AND tid <= %(pack_tid)s AND packed = FALSE]. *)
Definition mark_packed (pack_tid : Z) (d : db) : db :=
  set_transaction
    (update_where
       (fun r => (0 <? tx_tid r) && (tx_tid r <=? pack_tid)
                 && negb (tx_packed r))
       (set_packed true)
       (transaction d))
    d.

(** [LOCK TABLE commit_lock IN EXCLUSIVE MODE]: no table content changes. *)
Definition _hold_commit_lock : M unit := ret tt.

(** The table loop of [pack]. *)
Definition pack_delete_loop : M unit := for_each pack_tables pack_table.

(** The closing script of [pack]. *)
Definition pack_cleanup_script (pack_tid : Z) : M unit :=
  exec (terminate_prev_tid pack_tid) ;;;
  exec (delete_object_refs_added pack_tid) ;;;
  exec (delete_transaction pack_tid) ;;;
  exec (mark_packed pack_tid) ;;;
  exec delete_pack_object.

Definition pack (pack_tid : Z) : M unit :=
  in_transaction
    (_hold_commit_lock ;;;
     pack_delete_loop ;;;
     pack_cleanup_script pack_tid).

(** ** [_pre_pack_with_gc] *)

Section GarbageCollection.

(** The caller's [get_references]: the oids a pickled state refers to, or
    the exception it raises (by tag). *)
Variable get_references : string -> string + list Z.

(** The [for from_oid, state in cursor] loop of [_add_refs_for_tid],
    accumulating [add_rows]. *)
Fixpoint collect_refs (tid : Z) (rows : list (Z * option string))
    (add_rows : list object_ref_row) : result (list object_ref_row) :=
  match rows with
  | [] => Ok add_rows
  | (from_oid, state) :: rest =>
      match state with
      | Some (String c s) =>
          match get_references (String c s) with
          | inr to_oids =>
              collect_refs tid rest
                (add_rows ++ map (mk_object_ref from_oid tid) to_oids)
          | inl tag => Raise (CallbackError tag)
          end
      | _ => collect_refs tid rest add_rows
      end
  end.

Definition lift {A : Type} (r : result A) : M A := fun d => (r, d).

(** [SELECT zoid, state FROM object_state WHERE tid = %(tid)s]. *)
Definition select_states (tid : Z) (d : db) : list (Z * option string) :=
  map (fun r => (os_zoid r, os_state r))
      (filter (fun r => os_tid r =? tid) (object_state d)).

(** [_add_object_ref_rows]: [INSERT INTO object_ref ... VALUES ...]. *)
Definition _add_object_ref_rows (add_rows : list object_ref_row) : M unit :=
  exec (fun d => set_object_ref (object_ref d ++ add_rows) d).

(** [INSERT INTO object_refs_added (tid) VALUES (%(tid)s)]. *)
Definition insert_object_refs_added (tid : Z) (d : db) : db :=
  set_object_refs_added (object_refs_added d ++ [tid]) d.

Definition _add_refs_for_tid (tid : Z) : M unit :=
  rows <- query (select_states tid) ;;
  add_rows <- lift (collect_refs tid rows []) ;;
  match add_rows with
  | [] => ret tt
  | _ :: _ => _add_object_ref_rows add_rows
  end ;;;
  exec (insert_object_refs_added tid).

(** [NOT EXISTS (SELECT 1 FROM object_refs_added WHERE tid = <outer>)]. *)
Definition refs_not_added (d : db) (tid : Z) : bool :=
  negb (existsb (Z.eqb tid) (object_refs_added d)).

(** [SELECT DISTINCT tid FROM object_state
     WHERE tid > %(pack_tid)s AND NOT EXISTS (...)]. *)
Definition select_nonpacked_tids (pack_tid : Z) (d : db) : list Z :=
  distinct (map os_tid
    (filter (fun r => (pack_tid <? os_tid r) && refs_not_added d (os_tid r))
            (object_state d))).

Definition _fill_nonpacked_refs (pack_tid : Z) : M unit :=
  tids <- query (select_nonpacked_tids pack_tid) ;;
  for_each tids _add_refs_for_tid.

Definition keep_tids (l : list pack_object_row) : list Z :=
  flat_map (fun p => match po_keep_tid p with
                     | Some k => [k]
                     | None => []
                     end) l.

(** [SELECT DISTINCT keep_tid FROM pack_object
     WHERE keep_tid IS NOT NULL AND NOT EXISTS (...)]. *)
Definition select_pack_object_tids (d : db) : list Z :=
  distinct (filter (refs_not_added d) (keep_tids (pack_object d))).

Definition _fill_pack_object_refs : M unit :=
  tids <- query select_pack_object_tids ;;
  for_each tids _add_refs_for_tid.

(** [UPDATE pack_object SET keep = TRUE WHERE zoid = 0]. *)
Definition keep_root (d : db) : db :=
  set_pack_object
    (update_where (fun p => po_zoid p =? 0) (set_keep true) (pack_object d)) d.

(** [UPDATE pack_object SET keep = TRUE WHERE keep = FALSE AND zoid IN
     (SELECT zoid FROM current_object WHERE tid > %(pack_tid)s)]. *)
Definition keep_revised (pack_tid : Z) (d : db) : db :=
  set_pack_object
    (update_where
       (fun p => negb (po_keep p)
                 && in_subquery (po_zoid p)
                      (map co_zoid
                         (filter (fun c => pack_tid <? co_tid c)
                                 (current_object d))))
       (set_keep true) (pack_object d)) d.

(** [UPDATE pack_object SET keep = TRUE WHERE keep = FALSE AND zoid IN
     (SELECT to_zoid FROM object_ref WHERE tid > %(pack_tid)s)]. *)
Definition keep_referenced (pack_tid : Z) (d : db) : db :=
  set_pack_object
    (update_where
       (fun p => negb (po_keep p)
                 && in_subquery (po_zoid p)
                      (map or_to_zoid
                         (filter (fun r => pack_tid <? or_tid r)
                                 (object_ref d))))
       (set_keep true) (pack_object d)) d.

(** The seeding script of [_pre_pack_with_gc]. *)
Definition seed_pack_object (pack_tid : Z) : M unit :=
  exec delete_pack_object ;;;
  exec (insert_pack_object false pack_tid) ;;;
  exec keep_root ;;;
  exec (keep_revised pack_tid) ;;;
  exec (keep_referenced pack_tid).

(** [CREATE TEMPORARY TABLE temp_pack_visit ...]. *)
Definition _create_temp_pack_visit : M unit :=
  exec (set_temp_pack_visit []).

Definition is_null (v : option Z) : bool :=
  match v with
  | None => true
  | Some _ => false
  end.

(** [INSERT INTO temp_pack_visit (zoid) SELECT zoid FROM pack_object
     WHERE keep = TRUE AND keep_tid IS NULL]. *)
Definition insert_temp_pack_visit (d : db) : db :=
  set_temp_pack_visit
    (temp_pack_visit d ++
     map po_zoid
         (filter (fun p => po_keep p && is_null (po_keep_tid p))
                 (pack_object d)))
    d.

(** [UPDATE pack_object SET keep_tid = (@select_keep_tid@)
     WHERE keep = TRUE AND keep_tid IS NULL]. *)
Definition update_new_keep_tid (pack_tid : Z) (d : db) : db :=
  set_pack_object
    (update_where (fun p => po_keep p && is_null (po_keep_tid p))
       (fun p => set_keep_tid (select_keep_tid pack_tid (po_zoid p) d) p)
       (pack_object d))
    d.

(** First script of the loop body. *)
Definition visit_script (pack_tid : Z) : M unit :=
  exec (set_temp_pack_visit []) ;;;
  exec insert_temp_pack_visit ;;;
  exec (update_new_keep_tid pack_tid).

(** [SELECT DISTINCT to_zoid FROM object_ref JOIN temp_pack_visit USING (zoid)]. *)
Definition select_visited_children (d : db) : list Z :=
  distinct
    (flat_map (fun r =>
        map (fun _ => or_to_zoid r)
            (filter (Z.eqb (or_zoid r)) (temp_pack_visit d)))
      (object_ref d)).

Definition is_child (d : db) (p : pack_object_row) : bool :=
  negb (po_keep p) && in_subquery (po_zoid p) (select_visited_children d).

(** [UPDATE pack_object SET keep = TRUE WHERE keep = FALSE AND zoid IN (...)];
    returns [cursor.rowcount]. *)
Definition keep_children : M nat :=
  fun d =>
    (Ok (rowcount (is_child d) (pack_object d)),
     set_pack_object
       (update_where (is_child d) (set_keep true) (pack_object d)) d).

(** One pass through the body of [while True]; the result is
    [cursor.rowcount] of the last statement. *)
Definition closure_step (pack_tid : Z) : M nat :=
  visit_script pack_tid ;;;
  _fill_pack_object_refs ;;;
  keep_children.

(** [while True: ... if not cursor.rowcount: break], with a bound on the
    number of passes; [None] when the bound is hit before the loop exits,
    otherwise the number of passes made. *)
Fixpoint closure_loop (fuel : nat) (pack_tid : Z) (passes : nat)
    : M (option nat) :=
  match fuel with
  | O => ret None
  | S fuel' =>
      n <- closure_step pack_tid ;;
      match n with
      | O => ret (Some (S passes))
      | S _ => closure_loop fuel' pack_tid (S passes)
      end
  end.

(** The bound handed to [closure_loop] is taken from the seeded table. *)
Definition _pre_pack_with_gc (pack_tid : Z) : M (option nat) :=
  _fill_nonpacked_refs pack_tid ;;;
  seed_pack_object pack_tid ;;;
  _create_temp_pack_visit ;;;
  fuel <- query (fun d => S (List.length (pack_object d))) ;;
  closure_loop fuel pack_tid O.

(** [pre_pack]: the chosen preparation inside one transaction, committed
    when it returns and rolled back when it raises.  The bodies below
    raise only through [get_references]; a run in which the driver itself
    raises is not described here (see [Exn]). *)
Definition pre_pack (pack_tid : Z) (gc : bool) : M unit :=
  in_transaction
    (if gc
     then _pre_pack_with_gc pack_tid ;;; ret tt
     else _pre_pack_without_gc pack_tid).

End GarbageCollection.

(** ** [iter_transactions] *)

(** A yielded tuple [(tid, username, description, extension)]. *)
Definition transaction_info : Type := Z * string * string * string.

Definition info_tid (x : transaction_info) : Z := fst (fst (fst x)).

(**
<<
    SELECT tid, username, description, extension
    FROM transaction
    WHERE packed = FALSE AND tid != 0
    ORDER BY tid DESC
>> *)
Definition select_transactions (d : db) : list transaction_info :=
  order_by_desc info_tid
    (map (fun r => (tx_tid r, tx_username r, tx_description r, tx_extension r))
         (filter (fun r => negb (tx_packed r) && negb (tx_tid r =? 0))
                 (transaction d))).

Definition iter_transactions : M (list transaction_info) :=
  query select_transactions.

End Adapter.

(* ================================================================== *)
(** * Python 2 byte-string operations used by the script runner *)
(* ================================================================== *)

Module Py.
Local Open Scope string_scope.

Definition newline : string := String "010" EmptyString.

(** The characters [str.strip()] removes. *)
Definition is_space (c : ascii) : bool :=
  (c =? " ")%char || (c =? "009")%char || (c =? "010")%char
  || (c =? "011")%char || (c =? "012")%char || (c =? "013")%char.

Fixpoint lstrip (s : string) : string :=
  match s with
  | EmptyString => EmptyString
  | String c s' => if is_space c then lstrip s' else s
  end.

Fixpoint rstrip (s : string) : string :=
  match s with
  | EmptyString => EmptyString
  | String c s' =>
      match rstrip s' with
      | EmptyString => if is_space c then EmptyString else String c EmptyString
      | r => String c r
      end
  end.

(** [line.strip()]. *)
Definition strip (s : string) : string := rstrip (lstrip s).

(** [script.split('\n')]. *)
Fixpoint split_nl (s : string) : list string :=
  match s with
  | EmptyString => [EmptyString]
  | String c s' =>
      if (c =? "010")%char then EmptyString :: split_nl s'
      else match split_nl s' with
           | [] => [String c EmptyString]
           | l :: ls => String c l :: ls
           end
  end.

(** ['\n'.join(lines)]. *)
Definition join_nl (lines : list string) : string := String.concat newline lines.

(** [s.startswith(p)]. *)
Definition startswith (p s : string) : bool := String.prefix p s.

(** [s.endswith(suffix)]. *)
Fixpoint endswith (suffix s : string) : bool :=
  String.eqb s suffix
  || match s with
     | EmptyString => false
     | String _ s' => endswith suffix s'
     end.

(** [s[:-1]]. *)
Fixpoint drop_last (s : string) : string :=
  match s with
  | EmptyString => EmptyString
  | String c EmptyString => EmptyString
  | String c s' => String c (drop_last s')
  end.

(** [not line]. *)
Definition is_empty (s : string) : bool :=
  match s with
  | EmptyString => true
  | String _ _ => false
  end.

(** ** The [%] operator with a mapping on the right

    The fragment the adapters use: literal text, [%%] and [%(name)s].
    Any other conversion is reported as [Unsupported]: it lies outside
    this model. *)

Inductive format_error :=
| MissingKey (name : string)       (* KeyError *)
| IncompleteFormat                 (* ValueError: incomplete format *)
| Unsupported.

Inductive format_state :=
| Text
| Percent
| Key (name : string)
| Conversion (name : string).

Fixpoint format_from (vars : string -> option string) (st : format_state)
    (s : string) (out : string) : format_error + string :=
  match s with
  | EmptyString =>
      match st with
      | Text => inr out
      | _ => inl IncompleteFormat
      end
  | String c rest =>
      match st with
      | Text =>
          if (c =? "%")%char then format_from vars Percent rest out
          else format_from vars Text rest (out ++ String c EmptyString)
      | Percent =>
          if (c =? "%")%char then format_from vars Text rest (out ++ "%")
          else if (c =? "(")%char then format_from vars (Key EmptyString) rest out
          else inl Unsupported
      | Key name =>
          if (c =? ")")%char then format_from vars (Conversion name) rest out
          else if (c =? "(")%char then inl Unsupported
          else format_from vars (Key (name ++ String c EmptyString)) rest out
      | Conversion name =>
          if (c =? "s")%char then
            match vars name with
            | Some v => format_from vars Text rest (out ++ v)
            | None => inl (MissingKey name)
            end
          else inl Unsupported
      end
  end.

(** [template % vars]. *)
Definition format (template : string) (vars : string -> option string)
    : format_error + string :=
  format_from vars Text template EmptyString.

End Py.

(* ================================================================== *)
(** * [common.py]: the script runner ([_run_script_stmt], [_run_script]) *)
(* ================================================================== *)

Module Runner.
Import Py.
Local Open Scope string_scope.

(** [Adapter._script_vars]. *)
Definition _script_vars (name : string) : option string :=
  if name =? "TRUE" then Some "TRUE"
  else if name =? "FALSE" then Some "FALSE"
  else if name =? "OCTET_LENGTH" then Some "OCTET_LENGTH"
  else if name =? "oid" then Some "%(oid)s"
  else if name =? "tid" then Some "%(tid)s"
  else if name =? "pack_tid" then Some "%(pack_tid)s"
  else if name =? "undo_tid" then Some "%(undo_tid)s"
  else if name =? "self_tid" then Some "%(self_tid)s"
  else None.

(** The parameter mapping handed to the driver: names to integers. *)
Definition params := list (string * Z).

(** What can leave [_run_script_stmt]: the driver's exception (by tag),
    or the exception of the [%] operator. *)
Inductive exn :=
| DriverError (tag : string)
| FormatError (e : format_error).

Inductive result (A : Type) :=
| Ok (a : A)
| Raise (e : exn).
Arguments Ok {A} a.
Arguments Raise {A} e.

Inductive level := DEBUG | INFO | WARNING | ERROR.

(** An argument of a log call, rendered with [%r]. *)
Inductive log_arg :=
| ReprStr (s : string)
| ReprParams (p : params).

Record log_record := mk_log {
  log_level : level;
  log_msg : string;
  log_args : list log_arg
}.

Section Cursor.

(** The driver: connection state and [cursor.execute], which may raise. *)
Variable Conn : Type.
Variable cursor_execute : string -> params -> Conn -> Conn * option string.

(** [conn]: the driver's state; [log]: the records of the module logger;
    [executed]: every call made to [cursor.execute], in order. *)
Record world := mk_world {
  conn : Conn;
  log : list log_record;
  executed : list (string * params)
}.

Definition R (A : Type) : Type := world -> result A * world.

Definition failure_record (stmt : string) (generic_params : params) : log_record :=
  mk_log WARNING "script statement failed: %r; parameters: %r"
         [ReprStr stmt; ReprParams generic_params].

Definition _run_script_stmt (generic_stmt : string) (generic_params : params)
    : R unit :=
  fun w =>
    match format generic_stmt _script_vars with
    | inl e => (Raise (FormatError e), w)
    | inr stmt =>
        match cursor_execute stmt generic_params (conn w) with
        | (c, None) =>
            (Ok tt,
             mk_world c (log w) (executed w ++ [(stmt, generic_params)]))
        | (c, Some e) =>
            (Raise (DriverError e),
             mk_world c (log w ++ [failure_record stmt generic_params])
                      (executed w ++ [(stmt, generic_params)]))
        end
    end.

Definition then_ {A : Type} (m : R unit) (k : R A) : R A :=
  fun w =>
    match m w with
    | (Ok _, w') => k w'
    | (Raise e, w') => (Raise e, w')
    end.

(** The [for line in script.split('\n')] loop with its accumulator
    [lines], followed by the trailing [if lines:]. *)
Fixpoint run_script_lines (raw : list string) (lines : list string)
    (params : params) : R unit :=
  match raw with
  | [] =>
      match lines with
      | [] => fun w => (Ok tt, w)
      | _ :: _ => _run_script_stmt (join_nl lines) params
      end
  | line :: rest =>
      let line := strip line in
      if is_empty line || startswith "--" line then
        run_script_lines rest lines params
      else if endswith ";" line then
        then_ (_run_script_stmt (join_nl (lines ++ [drop_last line])) params)
              (run_script_lines rest [] params)
      else
        run_script_lines rest (lines ++ [line]) params
  end.

Definition _run_script (script : string) (params : params) : R unit :=
  run_script_lines (split_nl script) [] params.

(** Submitting a list of statements to [_run_script_stmt] one after the
    other, stopping at the first that raises. *)
Fixpoint run_each (stmts : list string) (params : params) : R unit :=
  match stmts with
  | [] => fun w => (Ok tt, w)
  | s :: rest => then_ (_run_script_stmt s params) (run_each rest params)
  end.

End Cursor.

Arguments mk_world {Conn} conn log executed.
Arguments conn {Conn} w.
Arguments log {Conn} w.
Arguments executed {Conn} w.
Arguments _run_script_stmt {Conn} cursor_execute generic_stmt generic_params w.
Arguments then_ {Conn A} m k w.
Arguments run_script_lines {Conn} cursor_execute raw lines params w.
Arguments _run_script {Conn} cursor_execute script params w.
Arguments run_each {Conn} cursor_execute stmts params w.

End Runner.

(* ================================================================== *)
(** * [oracle.py]: [CXOracleScriptRunner] *)
(* ================================================================== *)

Module Oracle.
Import Py.
Local Open Scope string_scope.

(** A cell of a fetched row: a [cx_Oracle.LOB] handle (with the bytes its
    [read()] gives) or any other value. *)
Inductive cell :=
| LOB (content : string)
| Value (v : string).

Definition row := list cell.

(** The single argument carried by a [cx_Oracle.DatabaseError]: a plain
    string, or an error object with a [code] attribute. *)
Inductive error_arg :=
| ErrStr (s : string)
| ErrObj (code : Z).

Inductive exn :=
| DatabaseError (args : list error_arg)
| OtherError (tag : string)
| AttributeError (msg : string)
| ValueError (msg : string).

Inductive result (A : Type) :=
| Ok (a : A)
| Raise (e : exn).
Arguments Ok {A} a.
Arguments Raise {A} e.

(** [_read_lob]. *)
Definition _read_lob (value : cell) : cell :=
  match value with
  | LOB content => Value content
  | Value v => Value v
  end.

(** [error, = e]. *)
Definition unpack_single (args : list error_arg) : result error_arg :=
  match args with
  | [error] => Ok error
  | [] => Raise (ValueError "need more than 0 values to unpack")
  | _ :: _ :: _ => Raise (ValueError "too many values to unpack")
  end.

(** The test
    [(isinstance(error, str) and not error.endswith(' 1406'))
      or error.code != 1406]. *)
Definition is_other_error (error : error_arg) : result bool :=
  match error with
  | ErrStr s =>
      if negb (endswith " 1406" s) then Ok true
      else Raise (AttributeError "'str' object has no attribute 'code'")
  | ErrObj code => Ok (negb (code =? 1406)%Z)
  end.

Section Cursor.

(** The parameters bound to a statement and the driver's cursor.  The
    boolean handed to the driver says whether [cursor.outputtypehandler]
    is installed.  [cursor_next] is the first step of [for row in cursor]. *)
Variable Args : Type.
Variable Conn : Type.
Variable cursor_execute : bool -> string -> Args -> Conn -> Conn * option exn.
Variable cursor_next : bool -> Conn -> Conn * result (option row).

(** [conn]: the driver's state; [outputtypehandler]: whether the cursor
    attribute is set; [executed]: every statement handed to
    [cursor.execute], in order. *)
Record world := mk_world {
  conn : Conn;
  outputtypehandler : bool;
  executed : list string
}.

Definition R (A : Type) : Type := world -> result A * world.

Definition execute (stmt : string) (args : Args) : R unit :=
  fun w =>
    match cursor_execute (outputtypehandler w) stmt args (conn w) with
    | (c, None) =>
        (Ok tt, mk_world c (outputtypehandler w) (executed w ++ [stmt]))
    | (c, Some e) =>
        (Raise e, mk_world c (outputtypehandler w) (executed w ++ [stmt]))
    end.

Definition next : R (option row) :=
  fun w =>
    match cursor_next (outputtypehandler w) (conn w) with
    | (c, r) => (r, mk_world c (outputtypehandler w) (executed w))
    end.

Definition set_handler (v : bool) (w : world) : world :=
  mk_world (conn w) v (executed w).

(** [cursor.execute(stmt, args)] followed by [for row in cursor: return f(row)];
    [Ok None] when the loop ends without a row. *)
Definition execute_and_fetch (stmt : string) (args : Args) (f : row -> row)
    : R (option row) :=
  fun w =>
    match execute stmt args w with
    | (Raise e, w1) => (Raise e, w1)
    | (Ok _, w1) =>
        match next w1 with
        | (Raise e, w2) => (Raise e, w2)
        | (Ok None, w2) => (Ok None, w2)
        | (Ok (Some r), w2) => (Ok (Some (f r)), w2)
        end
    end.

(** [try: body / finally: del cursor.outputtypehandler], entered after
    [cursor.outputtypehandler = self._outputtypehandler]. *)
Definition with_handler {A : Type} (body : R A) : R A :=
  fun w =>
    match body (set_handler true w) with
    | (r, w') => (r, set_handler false w')
    end.

Definition or_default {D : Type} (default : D) (r : option row) : row + D :=
  match r with
  | Some x => inl x
  | None => inr default
  end.

(** The inline attempt of [run_lob_stmt]: the [try ... finally] block. *)
Definition inline_attempt (stmt : string) (args : Args) : R (option row) :=
  with_handler (execute_and_fetch stmt args (fun r => r)).

(** The second attempt, with the statement altered by a trailing blank. *)
Definition second_attempt (stmt : string) (args : Args) : R (option row) :=
  execute_and_fetch (stmt ++ " ") args (map _read_lob).

Definition run_lob_stmt {D : Type} (use_inline_lobs : bool)
    (stmt : string) (args : Args) (default : D) : R (row + D) :=
  fun w =>
    if use_inline_lobs then
      match inline_attempt stmt args w with
      | (Ok r, w1) => (Ok (or_default default r), w1)
      | (Raise (DatabaseError eargs), w1) =>
          match unpack_single eargs with
          | Raise e' => (Raise e', w1)
          | Ok error =>
              match is_other_error error with
              | Raise e' => (Raise e', w1)
              | Ok true => (Raise (DatabaseError eargs), w1)
              | Ok false =>
                  match second_attempt stmt args w1 with
                  | (Ok r, w2) => (Ok (or_default default r), w2)
                  | (Raise e', w2) => (Raise e', w2)
                  end
              end
          end
      | (Raise e, w1) => (Raise e, w1)
      end
    else
      match execute_and_fetch stmt args (map _read_lob) w with
      | (Ok r, w1) => (Ok (or_default default r), w1)
      | (Raise e, w1) => (Raise e, w1)
      end.

End Cursor.

Arguments mk_world {Conn} conn outputtypehandler executed.
Arguments conn {Conn} w.
Arguments outputtypehandler {Conn} w.
Arguments executed {Conn} w.
Arguments execute {Args Conn} cursor_execute stmt args w.
Arguments next {Conn} cursor_next w.
Arguments execute_and_fetch {Args Conn} cursor_execute cursor_next stmt args f w.
Arguments with_handler {Conn A} body w.
Arguments inline_attempt {Args Conn} cursor_execute cursor_next stmt args w.
Arguments second_attempt {Args Conn} cursor_execute cursor_next stmt args w.
Arguments run_lob_stmt {Args Conn} cursor_execute cursor_next {D}
  use_inline_lobs stmt args default w.

End Oracle.

(* ================================================================== *)
(** * Vocabulary of the properties and sample data *)
(* ================================================================== *)

Module Props.
Import Sql Schema Adapter.

(** A tid the pack may start from: present in [transaction], positive, at
    most the bound, and not yet packed. *)
Definition packable (d : db) (bound t : Z) : Prop :=
  exists r, In r (transaction d) /\ tx_tid r = t /\
            0 < t /\ t <= bound /\ tx_packed r = false.

(** [pack_object] says the object is to be removed. *)
Definition marked_dead (d : db) (zoid : Z) : Prop :=
  exists p, In p (pack_object d) /\ po_zoid p = zoid /\ po_keep p = false.

(** [pack_object] keeps the object from [keep_tid] on, and [tid] is older. *)
Definition history_cut (d : db) (zoid tid : Z) : Prop :=
  exists p k, In p (pack_object d) /\ po_zoid p = zoid /\
              po_keep p = true /\ po_keep_tid p = Some k /\ tid < k.

(** The object has a revision at or before [pack_tid]. *)
Definition packable_object (d : db) (pack_tid zoid : Z) : Prop :=
  exists r, In r (object_state d) /\ os_zoid r = zoid /\ os_tid r <= pack_tid.

(** The object's current revision is later than [pack_tid]. *)
Definition revised_since (d : db) (pack_tid zoid : Z) : Prop :=
  exists c, In c (current_object d) /\ co_zoid c = zoid /\ pack_tid < co_tid c.

(** A state later than [pack_tid] refers to the object. *)
Definition referenced_since (d : db) (pack_tid zoid : Z) : Prop :=
  exists r, In r (object_ref d) /\ or_to_zoid r = zoid /\ pack_tid < or_tid r.

(** [k] is the newest revision of the object among the tids in
    [(0, pack_tid]]: the value [select_keep_tid] looks for. *)
Definition newest_revision (d : db) (pack_tid zoid k : Z) : Prop :=
  (exists r, In r (object_state d) /\ os_zoid r = zoid /\ os_tid r = k /\
             0 < k /\ k <= pack_tid) /\
  (forall r, In r (object_state d) -> os_zoid r = zoid ->
             0 < os_tid r -> os_tid r <= pack_tid -> os_tid r <= k).

(** [k] is the greatest tid of the object at or below [pack_tid], with no
    lower bound on the tid. *)
Definition greatest_revision (d : db) (pack_tid zoid k : Z) : Prop :=
  (exists r, In r (object_state d) /\ os_zoid r = zoid /\ os_tid r = k /\
             k <= pack_tid) /\
  (forall r, In r (object_state d) -> os_zoid r = zoid ->
             os_tid r <= pack_tid -> os_tid r <= k).

(** The tids of the object's revisions present in [object_state]. *)
Definition revisions (d : db) (zoid : Z) : list Z :=
  map os_tid (filter (fun r => os_zoid r =? zoid) (object_state d)).

(** The object's key in [object_state]. *)
Definition os_key (r : object_state_row) : Z * Z := (os_zoid r, os_tid r).

(** A row of the object's history, as the join of a transaction and a
    revision of the object made by it. *)
Definition history_of (d : db) (oid : Z) (h : history_row) : Prop :=
  exists t s, In t (transaction d) /\ In s (object_state d) /\
    os_tid s = tx_tid t /\ os_zoid s = oid /\ tx_packed t = false /\
    h = mk_history (tx_tid t) (tx_username t) (tx_description t)
                   (tx_extension t) (octet_length (os_state s)).

(** Number of [pack_object] rows with [keep = TRUE]. *)
Definition count_keep (d : db) : nat :=
  List.length (filter po_keep (pack_object d)).

(** The distinct oids of [pack_object] still marked [keep = FALSE]. *)
Definition dead_zoids (l : list pack_object_row) : list Z :=
  distinct (map po_zoid (filter (fun p => negb (po_keep p)) l)).

Definition count_dead (d : db) : nat := List.length (dead_zoids (pack_object d)).

(** Number of distinct oids in [pack_object]. *)
Definition distinct_oids (d : db) : nat :=
  List.length (distinct (map po_zoid (pack_object d))).

(** What a step may touch besides [object_ref] and [object_refs_added]:
    nothing of the working tables. *)
Definition same_working_set (d d' : db) : Prop :=
  pack_object d' = pack_object d /\ temp_pack_visit d' = temp_pack_visit d.

End Props.

Module RunnerProps.
Import Py Runner.
Local Open Scope string_scope.

(** The record logged for a failed statement holds the statement only. *)
Definition statement_only (rec : log_record) : Prop :=
  forall a, In a (log_args rec) -> exists s, a = ReprStr s.

(** A driver whose [execute] always raises. *)
Definition failing_execute (stmt : string) (p : params) (c : unit)
    : unit * option string :=
  (c, Some "OperationalError").

(** A driver whose [execute] never raises. *)
Definition accepting_execute (stmt : string) (p : params) (c : unit)
    : unit * option string :=
  (c, None).

Definition fresh_world : world unit := mk_world tt [] [].

(** The line closes a statement: its last character is a semicolon. *)
Definition closes_statement (line : string) : bool := endswith ";" line.

(** The lines of a script that count: stripped, not blank, not comments. *)
Definition retained (raw : list string) : list string :=
  filter (fun l => negb (is_empty l || startswith "--" l)) (map strip raw).

(** The statements a list of retained lines stands for: lines are
    gathered up to and including the next line that ends in a semicolon,
    that semicolon is dropped, and the lines are joined with newlines;
    whatever follows the last such line is one more statement. *)
Inductive statements_of : list string -> list string -> Prop :=
| statements_none :
    statements_of [] []
| statements_trailing (lines : list string) :
    lines <> [] ->
    Forall (fun l => closes_statement l = false) lines ->
    statements_of lines [join_nl lines]
| statements_closed (lines : list string) (body : string)
    (rest stmts : list string) :
    Forall (fun l => closes_statement l = false) lines ->
    statements_of rest stmts ->
    statements_of (lines ++ [body ++ ";"] ++ rest)
                  (join_nl (lines ++ [body]) :: stmts).

Definition sample_script : string :=
"
  DELETE FROM pack_object;

  -- a comment; with a semicolon;
  UPDATE t SET note = 'a;b' WHERE keep = %(FALSE)s;
  SELECT tid
  FROM transaction
".

End RunnerProps.

Module OracleSamples.
Import Py Oracle.
Local Open Scope string_scope.

(** A driver that, with the output type handler installed, reports the
    truncation as a [DatabaseError] carrying a string, and otherwise
    returns the row with its LOB handle. *)
Definition truncating_execute (handler : bool) (stmt : string) (args : unit)
    (c : unit) : unit * option exn :=
  if handler
  then (c, Some (DatabaseError
                   [ErrStr "fetched column value was truncated, error 1406"]))
  else (c, None).

Definition one_lob_row (handler : bool) (c : unit)
    : unit * result (option row) :=
  (c, Ok (Some [LOB "pickle"])).

Definition idle_cursor : world unit := mk_world tt false [].

(** The same driver reporting the truncation through an error object:
    one more run, and the row read through [_read_lob]. *)
Definition truncating_execute_obj (handler : bool) (stmt : string)
    (args : unit) (c : unit) : unit * option exn :=
  if handler then (c, Some (DatabaseError [ErrObj 1406])) else (c, None).

End OracleSamples.

Module Samples.
Import Sql Schema Adapter.
Local Open Scope string_scope.

Definition tx (t : Z) : transaction_row := mk_transaction t "user" "desc" "x" false.

(** Object 1 committed at tids 10, 20 and 30, object 2 at tid 10. *)
Definition history_db : db :=
  mk_db [tx 10; tx 20; tx 30]
        [mk_object_state 1 10 0 (Some "a");
         mk_object_state 1 20 10 (Some "bb");
         mk_object_state 1 30 20 (Some "ccc");
         mk_object_state 2 10 0 (Some "x")]
        [mk_current_object 1 30; mk_current_object 2 10]
        [] [] [] [].

(** [history_db] and an object 7 whose only revision sits at the reserved
    tid 0. *)
Definition sentinel_db : db :=
  set_current_object (current_object history_db ++ [mk_current_object 7 0])
    (set_object_state
       (object_state history_db ++ [mk_object_state 7 0 0 (Some "s")])
       history_db).

(** [history_db] with a pack prepared: object 1 kept from tid 20 on,
    object 2 to be removed. *)
Definition prepared_db : db :=
  set_pack_object
    [mk_pack_object 1 true (Some 20); mk_pack_object 2 false None]
    history_db.

(** A reference extractor on toy states. *)
Definition refs (s : string) : string + list Z :=
  if String.eqb s "to2" then inr [2]
  else if String.eqb s "to3" then inr [3]
  else if String.eqb s "bad" then inl "UnpicklingError"
  else inr [].

(** The root refers to object 2 at tid 10 and drops the reference at 20. *)
Definition gc_db : db :=
  mk_db [tx 10; tx 20]
        [mk_object_state 0 10 0 (Some "to2");
         mk_object_state 2 10 0 (Some "leaf");
         mk_object_state 0 20 10 (Some "none")]
        [mk_current_object 0 20; mk_current_object 2 10]
        [] [] [] [].

(** The chain 0 -> 2 -> 3 and the unreferenced object 4, all at tid 10. *)
Definition chain_db : db :=
  mk_db [tx 10]
        [mk_object_state 0 10 0 (Some "to2");
         mk_object_state 2 10 0 (Some "to3");
         mk_object_state 3 10 0 (Some "leaf");
         mk_object_state 4 10 0 (Some "leaf")]
        [mk_current_object 0 10; mk_current_object 2 10;
         mk_current_object 3 10; mk_current_object 4 10]
        [] [] [] [].

End Samples.

Module MoreProps.
Import Sql Schema Adapter.

(** Some revision in [object_state] was made by transaction [tid]. *)
Definition has_revision (d : db) (tid : Z) : Prop :=
  exists s, In s (object_state d) /\ os_tid s = tid.

(** Nothing is left for [pack] to do up to [pack_tid]: the work table is
    empty, back-links at or below [pack_tid] are cut, and the bookkeeping
    rows in [(0, pack_tid]] belong to transactions that still have a
    revision, the transactions being marked packed. *)
Definition packed_upto (pack_tid : Z) (d : db) : Prop :=
  pack_object d = [] /\
  (forall s, In s (object_state d) -> os_tid s <= pack_tid ->
             os_prev_tid s = 0) /\
  (forall t, In t (object_refs_added d) -> 0 < t -> t <= pack_tid ->
             has_revision d t) /\
  (forall r, In r (transaction d) -> 0 < tx_tid r -> tx_tid r <= pack_tid ->
             has_revision d (tx_tid r) /\ tx_packed r = true).

(** [r] is a reference row that [_add_refs_for_tid] extracts for [tid]:
    some revision made by [tid] has a non-empty state on which
    [get_references] lists [r]'s target. *)
Definition extracted_ref (get_references : string -> string + list Z)
    (d : db) (tid : Z) (r : object_ref_row) : Prop :=
  exists s0 s l,
    In s0 (object_state d) /\ os_tid s0 = tid /\ os_state s0 = Some s /\
    s <> EmptyString /\ get_references s = inr l /\
    In (or_to_zoid r) l /\ or_zoid r = os_zoid s0 /\ or_tid r = tid.

(** A [pack_object] row and its later self: same object, and once kept,
    kept. *)
Definition keeps_on (p p' : pack_object_row) : Prop :=
  po_zoid p' = po_zoid p /\ (po_keep p = true -> po_keep p' = true).

(** The state of the working table between two passes of the closure
    loop: a row whose [keep_tid] is set is kept, its [keep_tid] is what
    [select_keep_tid] gives, the references of that transaction have been
    filled in, and those leaving the row's object at [keep_tid] lead to
    kept rows only. *)
Definition keep_tid_sound (pack_tid : Z) (d : db) : Prop :=
  forall p k, In p (pack_object d) -> po_keep_tid p = Some k ->
    po_keep p = true /\
    select_keep_tid pack_tid (po_zoid p) d = Some k /\
    In k (object_refs_added d) /\
    (forall r q, In r (object_ref d) -> In q (pack_object d) ->
       or_zoid r = po_zoid p -> or_tid r = k ->
       po_zoid q = or_to_zoid r -> po_keep q = true).

(** What the closure loop leaves alone between [d] and [d']. *)
Definition closure_frame (pack_tid : Z) (d d' : db) : Prop :=
  object_state d' = object_state d /\
  current_object d' = current_object d /\
  Forall2 keeps_on (pack_object d) (pack_object d') /\
  (forall r, In r (object_ref d) -> In r (object_ref d')) /\
  (forall r, In r (object_ref d') ->
     In r (object_ref d) \/ or_tid r <= pack_tid).

(** On leaving the loop: kept rows carry the [keep_tid] that
    [select_keep_tid] gives and dead rows none. *)
Definition keep_tids_set (pack_tid : Z) (d : db) : Prop :=
  forall p, In p (pack_object d) ->
    po_keep_tid p =
    if po_keep p then select_keep_tid pack_tid (po_zoid p) d else None.

(** On leaving the loop: a reference leaving a kept object at its
    [keep_tid] (or at any tid, where [keep_tid] is NULL) leads to a kept
    row. *)
Definition closed_under_refs (d : db) : Prop :=
  forall p q r, In p (pack_object d) -> In q (pack_object d) ->
    In r (object_ref d) -> po_keep p = true -> or_zoid r = po_zoid p ->
    po_keep_tid p = None \/ po_keep_tid p = Some (or_tid r) ->
    po_zoid q = or_to_zoid r -> po_keep q = true.

(** Every revision belongs to an object whose [current_object] row is at
    least as recent. *)
Definition current_covers (d : db) : Prop :=
  forall s, In s (object_state d) ->
    exists c, In c (current_object d) /\ co_zoid c = os_zoid s /\
              os_tid s <= co_tid c.

End MoreProps.

Module RunnerMoreProps.
Import Py Runner.
Local Open Scope string_scope.

(** The text holds no percent sign. *)
Fixpoint percent_free (s : string) : bool :=
  match s with
  | EmptyString => true
  | String c rest => negb (c =? "%")%char && percent_free rest
  end.

(** [l] begins with [prefix]. *)
Definition extends {A : Type} (prefix l : list A) : Prop :=
  exists more, l = (prefix ++ more)%list.

End RunnerMoreProps.

Module OracleMoreProps.
Import Oracle.

(** The cell is a plain value, not a LOB handle. *)
Definition is_value (c : cell) : Prop := exists v, c = Value v.

End OracleMoreProps.

(* ================================================================== *)
(** * Facts about the SQL building blocks *)
(* ================================================================== *)

Import Sql Schema.

Lemma in_subquery_In (x : Z) (l : list Z) :
  in_subquery x l = true <-> In x l.
Proof.
  unfold in_subquery. rewrite existsb_exists. split.
  - intros [y [Hy He]]. apply Z.eqb_eq in He. now subst.
  - intros H. exists x. split; [assumption | apply Z.eqb_refl].
Qed.

Lemma in_subquery_false (x : Z) (l : list Z) :
  in_subquery x l = false <-> ~ In x l.
Proof.
  rewrite <- in_subquery_In. destruct (in_subquery x l); split; intros H;
    congruence.
Qed.

Lemma distinct_In (x : Z) (l : list Z) : In x (distinct l) <-> In x l.
Proof. apply nodup_In. Qed.

Lemma distinct_NoDup (l : list Z) : NoDup (distinct l).
Proof. apply NoDup_nodup. Qed.

Lemma delete_where_In {R : Type} (cond : R -> bool) (rows : list R) (r : R) :
  In r (delete_where cond rows) <-> In r rows /\ cond r = false.
Proof.
  unfold delete_where. rewrite filter_In.
  now rewrite negb_true_iff.
Qed.

Lemma update_where_length {R : Type} (cond : R -> bool) (set : R -> R)
    (rows : list R) :
  List.length (update_where cond set rows) = List.length rows.
Proof. apply length_map. Qed.

Lemma update_where_In {R : Type} (cond : R -> bool) (set : R -> R)
    (rows : list R) (r' : R) :
  In r' (update_where cond set rows) <->
  exists r, In r rows /\ r' = (if cond r then set r else r).
Proof.
  unfold update_where. rewrite in_map_iff. split.
  - intros [r [He Hr]]. exists r. split; [assumption | now symmetry].
  - intros [r [Hr He]]. exists r. split; [now symmetry | assumption].
Qed.

Section OrderBy.
Context {A : Type} (key : A -> Z).

Lemma insert_desc_perm (x : A) (l : list A) :
  Permutation (insert_desc key x l) (x :: l).
Proof.
  induction l as [| y l IH]; simpl.
  - apply Permutation_refl.
  - destruct (key y <? key x).
    + apply Permutation_refl.
    + eapply perm_trans; [apply perm_skip, IH | apply perm_swap].
Qed.

Lemma order_by_desc_perm (l : list A) :
  Permutation (order_by_desc key l) l.
Proof.
  induction l as [| x l IH]; simpl.
  - constructor.
  - eapply perm_trans; [apply insert_desc_perm | now apply perm_skip].
Qed.

Lemma order_by_desc_In (l : list A) (x : A) :
  In x (order_by_desc key l) <-> In x l.
Proof.
  split; apply Permutation_in;
    [apply order_by_desc_perm | apply Permutation_sym, order_by_desc_perm].
Qed.

Lemma insert_desc_sorted (x : A) (l : list A) :
  StronglySorted (desc key) l -> StronglySorted (desc key) (insert_desc key x l).
Proof.
  induction l as [| y l IH]; intros Hs; simpl.
  - repeat constructor.
  - inversion Hs as [| ? ? Hs' Hall]; subst.
    destruct (key y <? key x) eqn:E.
    + apply Z.ltb_lt in E. constructor; [assumption |].
      constructor; [unfold desc; lia |].
      eapply Forall_impl; [| exact Hall]. unfold desc. intros; lia.
    + apply Z.ltb_ge in E. constructor; [now apply IH |].
      eapply Permutation_Forall;
        [apply Permutation_sym, insert_desc_perm |].
      constructor; [exact E | exact Hall].
Qed.

Lemma order_by_desc_sorted (l : list A) :
  StronglySorted (desc key) (order_by_desc key l).
Proof.
  induction l as [| x l IH]; simpl.
  - constructor.
  - now apply insert_desc_sorted.
Qed.

(** The first row of an [ORDER BY ... DESC] result has the greatest key. *)
Lemma order_by_desc_head (l : list A) (x : A) (rest : list A) :
  order_by_desc key l = x :: rest ->
  In x l /\ forall y, In y l -> key y <= key x.
Proof.
  intros E. split.
  - apply order_by_desc_In. rewrite E. now left.
  - intros y Hy. apply order_by_desc_In in Hy. rewrite E in Hy.
    pose proof (order_by_desc_sorted l) as Hs. rewrite E in Hs.
    inversion Hs as [| ? ? _ Hall]; subst.
    destruct Hy as [-> | Hy]; [lia |].
    rewrite Forall_forall in Hall. now apply Hall.
Qed.

Lemma order_by_desc_nil (l : list A) :
  order_by_desc key l = [] -> l = [].
Proof.
  intros E. pose proof (order_by_desc_perm l) as P. rewrite E in P.
  now apply Permutation_nil in P.
Qed.

(** With pairwise distinct keys the order is strict. *)
Lemma sorted_nodup_strict (l : list A) :
  StronglySorted (desc key) l -> NoDup (map key l) ->
  StronglySorted (fun a b => key b < key a) l.
Proof.
  induction l as [| x l IH]; intros Hs Hn; [constructor |].
  inversion Hs as [| ? ? Hs' Hall]; subst.
  simpl in Hn. inversion Hn as [| ? ? Hnot Hn']; subst.
  constructor; [now apply IH |].
  rewrite Forall_forall in *. intros y Hy.
  specialize (Hall y Hy). unfold desc in Hall.
  assert (key y <> key x).
  { intros E. apply Hnot. rewrite <- E. now apply in_map. }
  lia.
Qed.

End OrderBy.

(* ================================================================== *)
(** * [choose_pack_transaction] *)
(* ================================================================== *)

Import Adapter Props.

Lemma packable_filter (d : db) (bound t : Z) :
  In t (map tx_tid
         (filter (fun r => (0 <? tx_tid r) && (tx_tid r <=? bound)
                           && negb (tx_packed r))
                 (transaction d)))
  <-> packable d bound t.
Proof.
  unfold packable. rewrite in_map_iff. split.
  - intros [r [Ht Hr]]. apply filter_In in Hr. destruct Hr as [Hr Hc].
    apply andb_true_iff in Hc. destruct Hc as [Hc Hp].
    apply andb_true_iff in Hc. destruct Hc as [H0 Hb].
    apply Z.ltb_lt in H0. apply Z.leb_le in Hb. apply negb_true_iff in Hp.
    exists r. subst t. auto.
  - intros [r [Hr [Ht [H0 [Hb Hp]]]]]. exists r. split; [assumption |].
    apply filter_In. split; [assumption |]. subst t.
    apply andb_true_iff. split; [apply andb_true_iff; split |].
    + now apply Z.ltb_lt.
    + now apply Z.leb_le.
    + now apply negb_true_iff.
Qed.

(** C5: [choose_pack_transaction(bound)] returns the largest tid [t] of
    [transaction] with [0 < t <= bound] and [packed = FALSE], and [None]
    when there is none; it reads the database only. *)
Theorem choose_pack_transaction_largest (bound : Z) (d : db) :
  snd (choose_pack_transaction bound d) = d /\
  match fst (choose_pack_transaction bound d) with
  | Exn.Ok (Some t) =>
      packable d bound t /\ forall t', packable d bound t' -> t' <= t
  | Exn.Ok None => forall t, ~ packable d bound t
  | Exn.Raise _ => False
  end.
Proof.
  unfold choose_pack_transaction, Exn.bind, Exn.query, Exn.ret,
    select_choose_pack_transaction, limit.
  set (cands := map tx_tid _).
  destruct (order_by_desc (fun t => t) cands) as [| t rest] eqn:E; simpl.
  - split; [reflexivity |]. intros t Ht.
    apply order_by_desc_nil in E. apply packable_filter in Ht.
    fold cands in Ht. rewrite E in Ht. exact Ht.
  - split; [reflexivity |].
    apply order_by_desc_head in E. destruct E as [Hin Hmax]. split.
    + now apply packable_filter.
    + intros t' Ht'. apply packable_filter in Ht'. now apply Hmax.
Qed.

(* ================================================================== *)
(** * [pack]: terminating the [prev_tid] chains *)
(* ================================================================== *)

Lemma pack_delete_loop_ok (d : db) :
  fst (pack_delete_loop d) = Exn.Ok tt.
Proof. reflexivity. Qed.

Lemma pack_object_state_after (pack_tid : Z) (d : db) :
  fst (pack pack_tid d) = Exn.Ok tt /\
  object_state (snd (pack pack_tid d)) =
  object_state (terminate_prev_tid pack_tid (snd (pack_delete_loop d))).
Proof. split; reflexivity. Qed.

(** C7: the back-link step of [pack] rewrites [object_state] only; row by
    row, on the rows that survived the deletions, it keeps [zoid], [tid]
    and [state], sets [prev_tid] to 0 exactly where [tid <= pack_tid] and
    [prev_tid <> 0] (whether or not the predecessor still exists), and
    leaves every other row, in particular every row with
    [tid > pack_tid], as it was. *)
Theorem terminate_prev_tid_frame (pack_tid : Z) (d : db) :
  let survivors := snd (pack_delete_loop d) in
  let d' := terminate_prev_tid pack_tid survivors in
  object_state (snd (pack pack_tid d)) = object_state d' /\
  transaction d' = transaction survivors /\
  current_object d' = current_object survivors /\
  object_ref d' = object_ref survivors /\
  object_refs_added d' = object_refs_added survivors /\
  pack_object d' = pack_object survivors /\
  List.length (object_state d') = List.length (object_state survivors) /\
  forall i r, nth_error (object_state survivors) i = Some r ->
    exists r', nth_error (object_state d') i = Some r' /\
      os_zoid r' = os_zoid r /\ os_tid r' = os_tid r /\
      os_state r' = os_state r /\
      (os_tid r <= pack_tid /\ os_prev_tid r <> 0 ->
         os_prev_tid r' = 0 /\ r' <> r) /\
      (~ (os_tid r <= pack_tid /\ os_prev_tid r <> 0) -> r' = r) /\
      (pack_tid < os_tid r -> os_prev_tid r' = os_prev_tid r).
Proof.
  intros survivors d'. repeat split; try reflexivity.
  - apply update_where_length.
  - intros i r Hi. subst d'. unfold terminate_prev_tid, update_where.
    cbn [object_state set_object_state].
    rewrite nth_error_map. fold survivors. rewrite Hi. cbn [option_map].
    eexists. split; [reflexivity |].
    destruct (Z.leb_spec (os_tid r) pack_tid) as [Et | Et];
      destruct (Z.eqb_spec (os_prev_tid r) 0) as [Ep | Ep]; simpl;
      repeat split; intros; try lia; try reflexivity.
    intros E. apply (f_equal os_prev_tid) in E. simpl in E. congruence.
Qed.

(* ================================================================== *)
(** * [pack]: the deletions *)
(* ================================================================== *)

Lemma not_kept_iff (d : db) (zoid : Z) :
  not_kept d zoid = true <-> marked_dead d zoid.
Proof.
  unfold not_kept, marked_dead. rewrite in_subquery_In, in_map_iff. split.
  - intros [p [Hz Hp]]. apply filter_In in Hp. destruct Hp as [Hp Hk].
    apply negb_true_iff in Hk. exists p. auto.
  - intros [p [Hp [Hz Hk]]]. exists p. split; [assumption |].
    apply filter_In. split; [assumption | now apply negb_true_iff].
Qed.

Lemma not_kept_false_iff (d : db) (zoid : Z) :
  not_kept d zoid = false <-> ~ marked_dead d zoid.
Proof.
  rewrite <- not_kept_iff. destruct (not_kept d zoid); split; congruence.
Qed.

(** Under a key on [zoid], the rows selected by [zoid] are the row itself. *)
Lemma filter_by_key (l : list pack_object_row) (p : pack_object_row) :
  NoDup (map po_zoid l) -> In p l ->
  filter (fun q => po_zoid q =? po_zoid p) l = [p].
Proof.
  induction l as [| q l IH]; intros Hn Hin; [contradiction |].
  simpl in Hn. inversion Hn as [| ? ? Hnot Hn']; subst. simpl.
  destruct Hin as [-> | Hin].
  - rewrite Z.eqb_refl. f_equal.
    clear IH Hn Hn'. induction l as [| q l IH]; [reflexivity |]. simpl.
    destruct (Z.eqb_spec (po_zoid q) (po_zoid p)) as [E | E].
    + exfalso. apply Hnot. simpl. now left.
    + apply IH. intros H. apply Hnot. simpl. now right.
  - destruct (Z.eqb_spec (po_zoid q) (po_zoid p)) as [E | E].
    + exfalso. apply Hnot. rewrite E. now apply in_map.
    + now apply IH.
Qed.

Lemma row_by_key (l : list pack_object_row) (q p : pack_object_row) :
  NoDup (map po_zoid l) -> In q l -> In p l -> po_zoid q = po_zoid p -> q = p.
Proof.
  intros Hn Hq Hp E. pose proof (filter_by_key l p Hn Hp) as F.
  assert (Hin : In q (filter (fun q => po_zoid q =? po_zoid p) l)).
  { apply filter_In. split; [assumption | now apply Z.eqb_eq]. }
  rewrite F in Hin. destruct Hin as [<- | []]. reflexivity.
Qed.

Lemma keep_tid_of_row (d : db) (p : pack_object_row) :
  NoDup (map po_zoid (pack_object d)) -> In p (pack_object d) ->
  keep_tid_of d (po_zoid p) = po_keep_tid p.
Proof.
  intros Hn Hin. unfold keep_tid_of. now rewrite filter_by_key.
Qed.

Lemma before_keep_tid_iff (d : db) (zoid tid : Z) :
  NoDup (map po_zoid (pack_object d)) ->
  before_keep_tid d zoid tid = true <-> history_cut d zoid tid.
Proof.
  intros Hn. unfold before_keep_tid, history_cut.
  rewrite andb_true_iff, in_subquery_In, in_map_iff. split.
  - intros [[p [Hz Hp]] Hk]. apply filter_In in Hp. destruct Hp as [Hp Hkeep].
    subst zoid. rewrite (keep_tid_of_row d p Hn Hp) in Hk.
    destruct (po_keep_tid p) as [k |] eqn:Ek; [| discriminate].
    apply Z.ltb_lt in Hk. exists p, k. auto.
  - intros [p [k [Hp [Hz [Hkeep [Ek Hlt]]]]]]. subst zoid. split.
    + exists p. split; [reflexivity |]. apply filter_In. auto.
    + rewrite (keep_tid_of_row d p Hn Hp), Ek. now apply Z.ltb_lt.
Qed.

Lemma before_keep_tid_false_iff (d : db) (zoid tid : Z) :
  NoDup (map po_zoid (pack_object d)) ->
  before_keep_tid d zoid tid = false <-> ~ history_cut d zoid tid.
Proof.
  intros Hn. rewrite <- (before_keep_tid_iff d zoid tid Hn).
  destruct (before_keep_tid d zoid tid); split; congruence.
Qed.

Lemma pack_delete_loop_unfold (d : db) :
  pack_delete_loop d =
  (Exn.Ok tt,
   delete_history T_object_state
     (delete_not_kept T_object_state
        (delete_not_kept T_current_object
           (delete_history T_object_ref
              (delete_not_kept T_object_ref d))))).
Proof. reflexivity. Qed.

Lemma terminate_prev_tid_In (pack_tid : Z) (d : db) (r' : object_state_row) :
  In r' (object_state (terminate_prev_tid pack_tid d)) ->
  exists r, In r (object_state d) /\ os_zoid r' = os_zoid r /\
            os_tid r' = os_tid r /\ os_state r' = os_state r.
Proof.
  unfold terminate_prev_tid. cbn [object_state set_object_state].
  rewrite update_where_In. intros [r [Hr He]]. exists r. split; [assumption |].
  subst r'. destruct (_ && _); simpl; auto.
Qed.

Lemma terminate_prev_tid_keeps (pack_tid : Z) (d : db) (r : object_state_row) :
  In r (object_state d) ->
  exists r', In r' (object_state (terminate_prev_tid pack_tid d)) /\
             os_zoid r' = os_zoid r /\ os_tid r' = os_tid r /\
             os_state r' = os_state r.
Proof.
  intros Hr. unfold terminate_prev_tid. cbn [object_state set_object_state].
  eexists. split.
  - apply update_where_In. exists r. split; [exact Hr | reflexivity].
  - destruct (_ && _); simpl; auto.
Qed.

(** C1: the table loop of [pack] visits [object_ref], [current_object],
    [object_state] in that order; it deletes from each the rows of the
    objects with [keep = FALSE], and from [object_ref] and [object_state]
    (not from [current_object]) also the rows of objects with
    [keep = TRUE] whose [tid] is below the object's [keep_tid]; every other
    row stays.  So after [pack], for an object kept from [k] on, no
    [object_state] row below [k] is left and the row at [k] is still there. *)
Theorem pack_deletes (pack_tid : Z) (d : db)
    (Hkey : NoDup (map po_zoid (pack_object d))) :
  let d1 := snd (pack_delete_loop d) in
  let d2 := snd (pack pack_tid d) in
  pack_tables = [T_object_ref; T_current_object; T_object_state] /\
  pack_delete_loop d =
    (Exn.Ok tt,
     snd (pack_table T_object_state
       (snd (pack_table T_current_object
         (snd (pack_table T_object_ref d)))))) /\
  (forall r, In r (object_ref d1) <->
     In r (object_ref d) /\ ~ marked_dead d (or_zoid r) /\
     ~ history_cut d (or_zoid r) (or_tid r)) /\
  (forall r, In r (current_object d1) <->
     In r (current_object d) /\ ~ marked_dead d (co_zoid r)) /\
  (forall r, In r (object_state d1) <->
     In r (object_state d) /\ ~ marked_dead d (os_zoid r) /\
     ~ history_cut d (os_zoid r) (os_tid r)) /\
  fst (pack pack_tid d) = Exn.Ok tt /\
  (forall p k, In p (pack_object d) -> po_keep p = true ->
     po_keep_tid p = Some k ->
     (forall r, In r (object_state d2) -> os_zoid r = po_zoid p ->
        ~ os_tid r < k) /\
     (forall r, In r (object_state d) -> os_zoid r = po_zoid p ->
        os_tid r = k ->
        exists r', In r' (object_state d2) /\ os_zoid r' = po_zoid p /\
                   os_tid r' = k /\ os_state r' = os_state r)).
Proof.
  intros d1 d2.
  assert (Href : forall r, In r (object_ref d1) <->
     In r (object_ref d) /\ ~ marked_dead d (or_zoid r) /\
     ~ history_cut d (or_zoid r) (or_tid r)).
  { intros r. subst d1. rewrite pack_delete_loop_unfold.
    cbn [snd delete_history delete_not_kept object_ref set_object_ref
         set_object_state set_current_object].
    rewrite !delete_where_In.
    rewrite not_kept_false_iff.
    rewrite before_keep_tid_false_iff by exact Hkey.
    tauto. }
  assert (Hcur : forall r, In r (current_object d1) <->
     In r (current_object d) /\ ~ marked_dead d (co_zoid r)).
  { intros r. subst d1. rewrite pack_delete_loop_unfold.
    cbn [snd delete_history delete_not_kept current_object set_object_ref
         set_object_state set_current_object].
    rewrite !delete_where_In.
    now rewrite not_kept_false_iff. }
  assert (Hst : forall r, In r (object_state d1) <->
     In r (object_state d) /\ ~ marked_dead d (os_zoid r) /\
     ~ history_cut d (os_zoid r) (os_tid r)).
  { intros r. subst d1. rewrite pack_delete_loop_unfold.
    cbn [snd delete_history delete_not_kept object_state set_object_ref
         set_object_state set_current_object].
    rewrite !delete_where_In.
    rewrite not_kept_false_iff.
    rewrite before_keep_tid_false_iff by exact Hkey.
    tauto. }
  split; [reflexivity |]. split; [reflexivity |].
  split; [exact Href |]. split; [exact Hcur |]. split; [exact Hst |].
  split; [reflexivity |].
  intros p k Hp Hkeep Hk.
  assert (Hd2 : object_state d2 = object_state (terminate_prev_tid pack_tid d1))
    by reflexivity.
  split.
  - intros r' Hr' Hz Hlt. rewrite Hd2 in Hr'.
    apply terminate_prev_tid_In in Hr'.
    destruct Hr' as [r [Hr [Ez [Et _]]]].
    apply Hst in Hr. destruct Hr as [_ [_ Hcut]]. apply Hcut.
    exists p, k. repeat split; try assumption; congruence || lia.
  - intros r Hr Hz Ht.
    assert (Hr1 : In r (object_state d1)).
    { apply Hst. split; [assumption |]. split.
      - intros [q [Hq [Ez Ef]]].
        assert (q = p) by (apply (row_by_key _ _ _ Hkey Hq Hp); congruence).
        subst q. congruence.
      - intros [q [k' [Hq [Ez [_ [Ek Hlt]]]]]].
        assert (q = p) by (apply (row_by_key _ _ _ Hkey Hq Hp); congruence).
        subst q. rewrite Hk in Ek. injection Ek as <-. lia. }
    destruct (terminate_prev_tid_keeps pack_tid d1 r Hr1)
      as [r' [Hr' [Ez [Et Es]]]].
    exists r'. rewrite Hd2. repeat split; try assumption; congruence.
Qed.

(* ================================================================== *)
(** * [_pre_pack_with_gc]: seeding [pack_object] *)
(* ================================================================== *)

Lemma packable_object_iff (d : db) (pack_tid z : Z) :
  In z (distinct (map os_zoid
         (filter (fun r => os_tid r <=? pack_tid) (object_state d))))
  <-> packable_object d pack_tid z.
Proof.
  rewrite distinct_In, in_map_iff. unfold packable_object. split.
  - intros [r [Hz Hr]]. apply filter_In in Hr. destruct Hr as [Hr Ht].
    apply Z.leb_le in Ht. exists r. auto.
  - intros [r [Hr [Hz Ht]]]. exists r. split; [assumption |].
    apply filter_In. split; [assumption | now apply Z.leb_le].
Qed.

Lemma revised_since_iff (d : db) (pack_tid z : Z) :
  in_subquery z
    (map co_zoid (filter (fun c => pack_tid <? co_tid c) (current_object d)))
  = true <-> revised_since d pack_tid z.
Proof.
  rewrite in_subquery_In, in_map_iff. unfold revised_since. split.
  - intros [c [Hz Hc]]. apply filter_In in Hc. destruct Hc as [Hc Ht].
    apply Z.ltb_lt in Ht. exists c. auto.
  - intros [c [Hc [Hz Ht]]]. exists c. split; [assumption |].
    apply filter_In. split; [assumption | now apply Z.ltb_lt].
Qed.

Lemma referenced_since_iff (d : db) (pack_tid z : Z) :
  in_subquery z
    (map or_to_zoid (filter (fun r => pack_tid <? or_tid r) (object_ref d)))
  = true <-> referenced_since d pack_tid z.
Proof.
  rewrite in_subquery_In, in_map_iff. unfold referenced_since. split.
  - intros [r [Hz Hr]]. apply filter_In in Hr. destruct Hr as [Hr Ht].
    apply Z.ltb_lt in Ht. exists r. auto.
  - intros [r [Hr [Hz Ht]]]. exists r. split; [assumption |].
    apply filter_In. split; [assumption | now apply Z.ltb_lt].
Qed.

(** The table the seeding script leaves, row by row. *)
Lemma seed_pack_object_rows (pack_tid : Z) (d : db) :
  pack_object (snd (seed_pack_object pack_tid d)) =
  map (fun z =>
         mk_pack_object z
           ((z =? 0)
            || in_subquery z
                 (map co_zoid
                    (filter (fun c => pack_tid <? co_tid c) (current_object d)))
            || in_subquery z
                 (map or_to_zoid
                    (filter (fun r => pack_tid <? or_tid r) (object_ref d))))
           None)
      (distinct (map os_zoid
         (filter (fun r => os_tid r <=? pack_tid) (object_state d)))).
Proof.
  unfold seed_pack_object, Exn.bind, Exn.exec, keep_referenced, keep_revised,
    keep_root, insert_pack_object, delete_pack_object, update_where.
  cbn [snd pack_object set_pack_object current_object object_ref object_state
       app].
  rewrite !map_map. apply map_ext. intros z.
  cbn [po_zoid po_keep].
  destruct (z =? 0);
    repeat (cbn [set_keep po_zoid po_keep po_keep_tid negb andb orb];
            match goal with
            | |- context [in_subquery z ?l] => destruct (in_subquery z l)
            end);
    reflexivity.
Qed.

(** C2: the seeding script of [_pre_pack_with_gc] empties [pack_object],
    gives it one row, with [keep = FALSE], per distinct zoid of
    [object_state] with [tid <= pack_tid], and then sets [keep = TRUE] for
    exactly the rows of zoid 0, of objects whose [current_object.tid] is
    beyond [pack_tid], and of objects referred to by an [object_ref] row
    with [tid > pack_tid]; every other row keeps [keep = FALSE], and no
    other table changes. *)
Theorem seed_pack_object_spec (pack_tid : Z) (d : db) :
  let d' := snd (seed_pack_object pack_tid d) in
  fst (seed_pack_object pack_tid d) = Exn.Ok tt /\
  (transaction d' = transaction d /\ object_state d' = object_state d /\
   current_object d' = current_object d /\ object_ref d' = object_ref d /\
   object_refs_added d' = object_refs_added d) /\
  NoDup (map po_zoid (pack_object d')) /\
  (forall z, In z (map po_zoid (pack_object d')) <->
             packable_object d pack_tid z) /\
  (forall p, In p (pack_object d') ->
     po_keep_tid p = None /\
     (po_keep p = true <->
        po_zoid p = 0 \/ revised_since d pack_tid (po_zoid p)
        \/ referenced_since d pack_tid (po_zoid p))) /\
  (forall p, In p (pack_object d') ->
     po_zoid p <> 0 -> ~ revised_since d pack_tid (po_zoid p) ->
     ~ referenced_since d pack_tid (po_zoid p) -> po_keep p = false).
Proof.
  intros d'.
  assert (Hrows := seed_pack_object_rows pack_tid d). fold d' in Hrows.
  assert (Hz : map po_zoid (pack_object d') =
               distinct (map os_zoid
                 (filter (fun r => os_tid r <=? pack_tid) (object_state d)))).
  { rewrite Hrows, map_map. cbn [po_zoid]. apply map_id. }
  assert (Hkeep : forall p, In p (pack_object d') ->
     po_keep_tid p = None /\
     (po_keep p = true <->
        po_zoid p = 0 \/ revised_since d pack_tid (po_zoid p)
        \/ referenced_since d pack_tid (po_zoid p))).
  { intros p Hp. rewrite Hrows in Hp. apply in_map_iff in Hp.
    destruct Hp as [z [<- _]]. cbn [po_keep_tid po_keep po_zoid].
    split; [reflexivity |].
    rewrite !orb_true_iff, Z.eqb_eq, revised_since_iff, referenced_since_iff.
    tauto. }
  split; [reflexivity |]. split; [repeat split |].
  split; [rewrite Hz; apply distinct_NoDup |].
  split; [intros z; rewrite Hz; apply packable_object_iff |].
  split; [exact Hkeep |].
  intros p Hp H0 Hrev Href. destruct (Hkeep p Hp) as [_ Hk].
  destruct (po_keep p); [| reflexivity].
  exfalso. destruct (proj1 Hk eq_refl) as [H | [H | H]]; auto.
Qed.

(* ================================================================== *)
(** * [_pre_pack_without_gc] *)
(* ================================================================== *)

Lemma keep_tid_candidates (d : db) (pack_tid zoid t : Z) :
  In t (map os_tid
         (filter (fun r => (os_zoid r =? zoid) && (0 <? os_tid r)
                           && (os_tid r <=? pack_tid))
                 (object_state d)))
  <-> exists r, In r (object_state d) /\ os_zoid r = zoid /\ os_tid r = t /\
                0 < t /\ t <= pack_tid.
Proof.
  rewrite in_map_iff. split.
  - intros [r [Ht Hr]]. apply filter_In in Hr. destruct Hr as [Hr Hc].
    apply andb_true_iff in Hc. destruct Hc as [Hc Hb].
    apply andb_true_iff in Hc. destruct Hc as [Hz H0].
    apply Z.eqb_eq in Hz. apply Z.ltb_lt in H0. apply Z.leb_le in Hb.
    exists r. subst t. auto.
  - intros [r [Hr [Hz [Ht [H0 Hb]]]]]. exists r. split; [assumption |].
    apply filter_In. split; [assumption |]. subst t.
    apply andb_true_iff. split; [apply andb_true_iff; split |].
    + now apply Z.eqb_eq.
    + now apply Z.ltb_lt.
    + now apply Z.leb_le.
Qed.

Lemma select_keep_tid_some (d : db) (pack_tid zoid k : Z) :
  select_keep_tid pack_tid zoid d = Some k <->
  newest_revision d pack_tid zoid k.
Proof.
  unfold select_keep_tid, limit, newest_revision.
  set (cands := map os_tid _).
  assert (Hc : forall t, In t cands <->
     exists r, In r (object_state d) /\ os_zoid r = zoid /\ os_tid r = t /\
               0 < t /\ t <= pack_tid)
    by (intros t; apply keep_tid_candidates).
  destruct (order_by_desc (fun t => t) cands) as [| t rest] eqn:E; simpl.
  - apply order_by_desc_nil in E. split; [discriminate |].
    intros [[r Hr] _]. assert (Hin : In k cands) by (apply Hc; eauto).
    rewrite E in Hin. destruct Hin.
  - apply order_by_desc_head in E. destruct E as [Hin Hmax]. split.
    + intros [= <-]. split; [now apply Hc |].
      intros r Hr Hz H0 Hb. apply Hmax. apply Hc. exists r. auto.
    + intros [[r [Hr [Hz [Ht [H0 Hb]]]]] Hk]. f_equal.
      apply Hc in Hin. destruct Hin as [r' [Hr' [Hz' [Ht' [H0' Hb']]]]].
      assert (t <= k) by (rewrite <- Ht'; apply Hk; auto; lia).
      assert (k <= t) by (apply Hmax, Hc; eauto 8).
      lia.
Qed.

Lemma select_keep_tid_none (d : db) (pack_tid zoid : Z) :
  select_keep_tid pack_tid zoid d = None <->
  ~ exists r, In r (object_state d) /\ os_zoid r = zoid /\
              0 < os_tid r /\ os_tid r <= pack_tid.
Proof.
  unfold select_keep_tid, limit.
  set (cands := map os_tid _).
  assert (Hc : forall t, In t cands <->
     exists r, In r (object_state d) /\ os_zoid r = zoid /\ os_tid r = t /\
               0 < t /\ t <= pack_tid)
    by (intros t; apply keep_tid_candidates).
  destruct (order_by_desc (fun t => t) cands) as [| t rest] eqn:E; simpl.
  - apply order_by_desc_nil in E. split; [| reflexivity].
    intros _ [r [Hr [Hz [H0 Hb]]]].
    assert (Hin : In (os_tid r) cands) by (apply Hc; exists r; auto).
    rewrite E in Hin. destruct Hin.
  - apply order_by_desc_head in E. destruct E as [Hin _].
    split; [discriminate |]. intros Hno. exfalso. apply Hno.
    apply Hc in Hin. destruct Hin as [r [Hr [Hz [Ht [H0 Hb]]]]].
    exists r. subst t. auto.
Qed.

(** The table [_pre_pack_without_gc] leaves, row by row. *)
Lemma pre_pack_without_gc_rows (pack_tid : Z) (d : db) :
  pack_object (snd (_pre_pack_without_gc pack_tid d)) =
  map (fun z => mk_pack_object z true (select_keep_tid pack_tid z d))
      (distinct (map os_zoid
         (filter (fun r => os_tid r <=? pack_tid) (object_state d)))).
Proof.
  unfold _pre_pack_without_gc, Exn.bind, Exn.exec, update_all_keep_tid,
    insert_pack_object, delete_pack_object, update_where.
  cbn [snd pack_object set_pack_object object_state app].
  rewrite map_map. apply map_ext. intros z. reflexivity.
Qed.

(** On any database, [_pre_pack_without_gc] leaves in [pack_object]
    exactly one row, with [keep = TRUE], per distinct zoid of
    [object_state] with [tid <= pack_tid]; the row's [keep_tid] is the
    greatest tid of that object with [0 < tid <= pack_tid], and NULL when
    the object has no such revision.  Where [keep_tid] is set, the history
    cut of [pack] retains, of the object's revisions with
    [tid <= pack_tid], exactly the one at [keep_tid]; revisions later than
    [pack_tid], and all revisions of a row whose [keep_tid] is NULL, are
    not cut. *)
Theorem pre_pack_without_gc_spec (pack_tid : Z) (d : db) :
  let d' := snd (_pre_pack_without_gc pack_tid d) in
  fst (_pre_pack_without_gc pack_tid d) = Exn.Ok tt /\
  object_state d' = object_state d /\
  NoDup (map po_zoid (pack_object d')) /\
  (forall z, In z (map po_zoid (pack_object d')) <->
             packable_object d pack_tid z) /\
  (forall p, In p (pack_object d') ->
     po_keep p = true /\
     (forall k, po_keep_tid p = Some k <->
                newest_revision d pack_tid (po_zoid p) k) /\
     (po_keep_tid p = None <->
      ~ exists r, In r (object_state d) /\ os_zoid r = po_zoid p /\
                  0 < os_tid r /\ os_tid r <= pack_tid) /\
     (forall k r, po_keep_tid p = Some k -> In r (object_state d) ->
        os_zoid r = po_zoid p -> os_tid r <= pack_tid ->
        (before_keep_tid d' (os_zoid r) (os_tid r) = false <->
         os_tid r = k)) /\
     (forall r, In r (object_state d) -> os_zoid r = po_zoid p ->
        pack_tid < os_tid r \/ po_keep_tid p = None ->
        before_keep_tid d' (os_zoid r) (os_tid r) = false)).
Proof.
  intros d'.
  assert (Hrows := pre_pack_without_gc_rows pack_tid d). fold d' in Hrows.
  assert (Hz : map po_zoid (pack_object d') =
               distinct (map os_zoid
                 (filter (fun r => os_tid r <=? pack_tid) (object_state d)))).
  { rewrite Hrows, map_map. cbn [po_zoid]. apply map_id. }
  assert (Hkey : NoDup (map po_zoid (pack_object d')))
    by (rewrite Hz; apply distinct_NoDup).
  split; [reflexivity |]. split; [reflexivity |].
  split; [exact Hkey |].
  split; [intros z; rewrite Hz; apply packable_object_iff |].
  intros p Hp. pose proof Hp as Hp'. rewrite Hrows in Hp'.
  apply in_map_iff in Hp'. destruct Hp' as [z [Ep _]].
  assert (Ekeep : po_keep p = true) by (now subst p).
  assert (Ezoid : po_zoid p = z) by (now subst p).
  assert (Etid : po_keep_tid p = select_keep_tid pack_tid z d)
    by (now subst p).
  split; [exact Ekeep |].
  split; [intros k; rewrite Etid, Ezoid; apply select_keep_tid_some |].
  split; [rewrite Etid, Ezoid; apply select_keep_tid_none |].
  split.
  - intros k r Hk Hr Hzr Hle.
    rewrite (before_keep_tid_false_iff d' _ _ Hkey).
    assert (Hnew : newest_revision d pack_tid z k)
      by (apply select_keep_tid_some; congruence).
    destruct Hnew as [[r0 [_ [_ [_ [Hpos _]]]]] Hmax].
    split.
    + intros Hcut.
      destruct (Z.lt_trichotomy (os_tid r) k) as [Hlt | [He | Hgt]].
      * exfalso. apply Hcut. exists p, k. repeat split; auto.
      * exact He.
      * assert (os_tid r <= k) by (apply Hmax; auto; try congruence; lia).
        lia.
    + intros He [q [k' [Hq [Hzq [_ [Hk' Hlt]]]]]].
      assert (q = p) by (apply (row_by_key _ _ _ Hkey Hq Hp); congruence).
      subst q. rewrite Hk in Hk'. injection Hk' as <-. lia.
  - intros r Hr Hzr Hlate.
    apply (before_keep_tid_false_iff d' _ _ Hkey).
    intros [q [k' [Hq [Hzq [_ [Hk' Hlt]]]]]].
    assert (q = p) by (apply (row_by_key _ _ _ Hkey Hq Hp); congruence).
    subst q. destruct Hlate as [Hlate | Hnull]; [| congruence].
    assert (Hnew : newest_revision d pack_tid z k')
      by (apply select_keep_tid_some; congruence).
    destruct Hnew as [[r0 [_ [_ [_ [_ Hle]]]]] _]. lia.
Qed.

(** Outside the data model, where tids are positive: packing
    [sentinel_db] at 25 without GC, object 7 has its greatest tid at or
    below 25 at the reserved tid 0, and its [keep_tid] is left NULL,
    because [select_keep_tid] asks for [tid > 0].  Object 1, committed at
    10, 20 and 30, keeps through [pack] the revision at 20 and the one at
    30, which lies beyond [pack_tid]. *)
Lemma pre_pack_without_gc_not_greatest :
  let d := Samples.sentinel_db in
  let d' := snd (_pre_pack_without_gc 25 d) in
  let d'' := snd (pack 25 d') in
  pack_object d' =
    [mk_pack_object 1 true (Some 20); mk_pack_object 2 true (Some 10);
     mk_pack_object 7 true None] /\
  greatest_revision d 25 7 0 /\
  ~ (forall p k, In p (pack_object d') ->
       greatest_revision d 25 (po_zoid p) k -> po_keep_tid p = Some k) /\
  revisions d'' 1 = [20; 30] /\
  ~ (forall p, In p (pack_object d') ->
       List.length (revisions d'' (po_zoid p)) = 1%nat).
Proof.
  intros d d' d''.
  assert (G : greatest_revision d 25 7 0).
  { split.
    - exists (mk_object_state 7 0 0 (Some "s"%string)).
      split; [simpl; tauto |]. simpl. repeat split; lia.
    - intros r Hr Hz _. simpl in Hr.
      destruct Hr as [<- | [<- | [<- | [<- | [<- | []]]]]];
        simpl in Hz; try discriminate Hz. simpl. lia. }
  split; [reflexivity |]. split; [exact G |]. split; [| split].
  - intros H. specialize (H (mk_pack_object 7 true None) 0).
    assert (E : po_keep_tid (mk_pack_object 7 true None) = Some 0).
    { apply H; [simpl; tauto | exact G]. }
    discriminate E.
  - reflexivity.
  - intros H. specialize (H (mk_pack_object 1 true (Some 20))).
    assert (E : List.length (revisions d'' 1) = 1%nat).
    { apply H. simpl. tauto. }
    discriminate E.
Qed.

(* ================================================================== *)
(** * [iter_object_history] *)
(* ================================================================== *)

Lemma join_In (d : db) (t : transaction_row) (s : object_state_row) :
  In (t, s) (transaction_join_object_state d) <->
  In t (transaction d) /\ In s (object_state d) /\ os_tid s = tx_tid t.
Proof.
  unfold transaction_join_object_state. rewrite in_flat_map. split.
  - intros [t' [Ht' Hin]]. apply in_map_iff in Hin.
    destruct Hin as [s' [E Hs']]. injection E as -> ->.
    apply filter_In in Hs'. destruct Hs' as [Hs' Ht]. apply Z.eqb_eq in Ht.
    auto.
  - intros [Ht [Hs E]]. exists t. split; [assumption |].
    apply in_map_iff. exists s. split; [reflexivity |].
    apply filter_In. split; [assumption | now apply Z.eqb_eq].
Qed.

Lemma filter_at_most_one {A K : Type} (key : A -> K) (f : A -> bool)
    (l : list A) :
  NoDup (map key l) ->
  (forall a b, f a = true -> f b = true -> key a = key b) ->
  (List.length (filter f l) <= 1)%nat.
Proof.
  intros Hn Hf. induction l as [| a l IH]; simpl; [lia |].
  simpl in Hn. inversion Hn as [| ? ? Hnot Hn']; subst.
  destruct (f a) eqn:Ea; [| now apply IH].
  assert (E : filter f l = []).
  { destruct (filter f l) as [| b rest] eqn:Eb; [reflexivity |].
    exfalso. assert (Hb : In b (filter f l)) by (rewrite Eb; now left).
    apply filter_In in Hb. destruct Hb as [Hb Hfb].
    apply Hnot. rewrite (Hf a b Ea Hfb). now apply in_map. }
  rewrite E. simpl. lia.
Qed.

Lemma NoDup_short {A : Type} (l : list A) :
  (List.length l <= 1)%nat -> NoDup l.
Proof.
  destruct l as [| a [| b l]]; simpl; intros H.
  - constructor.
  - constructor; [intros [] | constructor].
  - lia.
Qed.

Lemma history_tids_NoDup (oid : Z) (d : db) :
  NoDup (map tx_tid (transaction d)) ->
  NoDup (map os_key (object_state d)) ->
  NoDup (map (fun ts => tx_tid (fst ts))
          (filter (fun ts => (os_zoid (snd ts) =? oid)
                             && negb (tx_packed (fst ts)))
                  (transaction_join_object_state d))).
Proof.
  intros Htx Hos. unfold transaction_join_object_state.
  induction (transaction d) as [| t txs IH]; simpl; [constructor |].
  simpl in Htx. inversion Htx as [| ? ? Hnot Htx']; subst.
  rewrite filter_app, map_app.
  assert (Hone : forall x,
    In x (map (fun ts => tx_tid (fst ts))
            (filter (fun ts => (os_zoid (snd ts) =? oid)
                               && negb (tx_packed (fst ts)))
               (map (fun s => (t, s))
                  (filter (fun s => os_tid s =? tx_tid t) (object_state d)))))
    -> x = tx_tid t).
  { intros x Hx. apply in_map_iff in Hx. destruct Hx as [[t' s'] [<- Hin]].
    apply filter_In in Hin. destruct Hin as [Hin _].
    apply in_map_iff in Hin. destruct Hin as [s [E _]].
    now injection E as <- _. }
  assert (Hrest : forall x,
    In x (map (fun ts => tx_tid (fst ts))
            (filter (fun ts => (os_zoid (snd ts) =? oid)
                               && negb (tx_packed (fst ts)))
               (flat_map (fun t0 =>
                  map (fun s => (t0, s))
                    (filter (fun s => os_tid s =? tx_tid t0) (object_state d)))
                  txs)))
    -> In x (map tx_tid txs)).
  { intros x Hx. apply in_map_iff in Hx. destruct Hx as [[t' s'] [<- Hin]].
    apply filter_In in Hin. destruct Hin as [Hin _].
    apply in_flat_map in Hin. destruct Hin as [t0 [Ht0 Hin]].
    apply in_map_iff in Hin. destruct Hin as [s [E _]].
    injection E as <- _. now apply in_map. }
  apply NoDup_app.
  - apply NoDup_short.
    rewrite length_map.
    assert (E : forall (l : list object_state_row),
      filter (fun ts => (os_zoid (snd ts) =? oid)
                        && negb (tx_packed (fst ts)))
             (map (fun s => (t, s)) l) =
      map (fun s => (t, s))
          (filter (fun s => (os_zoid s =? oid) && negb (tx_packed t)) l)).
    { induction l as [| s l IHl]; simpl; [reflexivity |].
      destruct ((os_zoid s =? oid) && negb (tx_packed t)); simpl;
        now rewrite IHl. }
    rewrite E, length_map.
    assert (F : forall (l : list object_state_row),
      filter (fun s => (os_zoid s =? oid) && negb (tx_packed t))
             (filter (fun s => os_tid s =? tx_tid t) l) =
      filter (fun s => (os_tid s =? tx_tid t)
                       && ((os_zoid s =? oid) && negb (tx_packed t))) l).
    { induction l as [| s l IHl]; simpl; [reflexivity |].
      destruct (os_tid s =? tx_tid t); simpl; [| exact IHl].
      destruct ((os_zoid s =? oid) && negb (tx_packed t)); simpl;
        now rewrite IHl. }
    rewrite F. apply (filter_at_most_one os_key); [exact Hos |].
    intros a b Ha Hb.
    apply andb_true_iff in Ha. destruct Ha as [Ha1 Ha2].
    apply andb_true_iff in Ha2. destruct Ha2 as [Ha2 _].
    apply andb_true_iff in Hb. destruct Hb as [Hb1 Hb2].
    apply andb_true_iff in Hb2. destruct Hb2 as [Hb2 _].
    apply Z.eqb_eq in Ha1, Ha2, Hb1, Hb2. unfold os_key. congruence.
  - now apply IH.
  - intros x Hx1 Hx2. apply Hone in Hx1. apply Hrest in Hx2.
    subst x. contradiction.
Qed.

Lemma select_object_history_In (oid : Z) (d : db) (h : history_row) :
  In h (select_object_history oid d) <-> history_of d oid h.
Proof.
  unfold select_object_history, history_of.
  rewrite order_by_desc_In, in_map_iff. split.
  - intros [[t s] [<- Hin]]. apply filter_In in Hin.
    destruct Hin as [Hin Hc]. apply join_In in Hin.
    destruct Hin as [Ht [Hs E]]. simpl in Hc.
    apply andb_true_iff in Hc. destruct Hc as [Hz Hp].
    apply Z.eqb_eq in Hz. apply negb_true_iff in Hp.
    exists t, s. simpl. auto 8.
  - intros [t [s [Ht [Hs [E [Hz [Hp ->]]]]]]]. exists (t, s).
    split; [reflexivity |]. apply filter_In. split.
    + apply join_In. auto.
    + simpl. apply andb_true_iff. split;
        [now apply Z.eqb_eq | now apply negb_true_iff].
Qed.

(** C6: [iter_object_history(oid)] raises [KeyError(oid)] exactly when
    [current_object] has no row for [oid], and raises nothing else;
    otherwise it yields the rows [(tid, username, description, extension,
    OCTET_LENGTH(state))] of the join of [transaction] and [object_state]
    for that object, packed transactions left out, in strictly descending
    tid order; the database is left as it was.  [tid] is the key of
    [transaction] and [(zoid, tid)] the key of [object_state]. *)
Theorem iter_object_history_spec (oid : Z) (d : db)
    (Htx : NoDup (map tx_tid (transaction d)))
    (Hos : NoDup (map os_key (object_state d))) :
  snd (iter_object_history oid d) = d /\
  (fst (iter_object_history oid d) = Exn.Raise (Exn.KeyError oid) <->
   ~ exists c, In c (current_object d) /\ co_zoid c = oid) /\
  (forall e, fst (iter_object_history oid d) = Exn.Raise e ->
             e = Exn.KeyError oid) /\
  (forall rows, fst (iter_object_history oid d) = Exn.Ok rows ->
     (exists c, In c (current_object d) /\ co_zoid c = oid) /\
     (forall h, In h rows <-> history_of d oid h) /\
     StronglySorted (fun a b => h_tid b < h_tid a) rows).
Proof.
  unfold iter_object_history, Exn.bind, Exn.query, Exn.raise,
    select_current_object.
  destruct (filter (fun c => co_zoid c =? oid) (current_object d))
    as [| c cs] eqn:E; simpl.
  - assert (Hno : ~ exists c, In c (current_object d) /\ co_zoid c = oid).
    { intros [c [Hc Hz]].
      assert (Hin : In c (filter (fun c => co_zoid c =? oid)
                                 (current_object d))).
      { apply filter_In. split; [assumption | now apply Z.eqb_eq]. }
      rewrite E in Hin. destruct Hin. }
    split; [reflexivity |]. split; [tauto |].
    split; [intros e [= <-]; reflexivity | discriminate].
  - assert (Hyes : exists c, In c (current_object d) /\ co_zoid c = oid).
    { exists c.
      assert (Hin : In c (filter (fun c => co_zoid c =? oid)
                                 (current_object d)))
        by (rewrite E; now left).
      apply filter_In in Hin. destruct Hin as [Hin Hz].
      apply Z.eqb_eq in Hz. auto. }
    split; [reflexivity |].
    split; [split; [discriminate | intros H; contradiction] |].
    split; [discriminate |].
    intros rows [= <-]. split; [exact Hyes |].
    split; [intros h; apply select_object_history_In |].
    unfold select_object_history.
    apply sorted_nodup_strict; [apply order_by_desc_sorted |].
    eapply Permutation_NoDup.
    + apply Permutation_map, Permutation_sym, order_by_desc_perm.
    + rewrite map_map. cbn [h_tid]. now apply history_tids_NoDup.
Qed.

(* ================================================================== *)
(** * [_pre_pack_with_gc]: the closure loop *)
(* ================================================================== *)

Lemma dead_zoids_In (l : list pack_object_row) (z : Z) :
  In z (dead_zoids l) <->
  exists p, In p l /\ po_zoid p = z /\ po_keep p = false.
Proof.
  unfold dead_zoids. rewrite distinct_In, in_map_iff. split.
  - intros [p [Hz Hp]]. apply filter_In in Hp. destruct Hp as [Hp Hk].
    apply negb_true_iff in Hk. exists p. auto.
  - intros [p [Hp [Hz Hk]]]. exists p. split; [assumption |].
    apply filter_In. split; [assumption | now apply negb_true_iff].
Qed.

Lemma count_dead_le_distinct (d : db) : (count_dead d <= distinct_oids d)%nat.
Proof.
  unfold count_dead, distinct_oids.
  apply NoDup_incl_length; [apply distinct_NoDup |].
  intros z Hz. apply dead_zoids_In in Hz. destruct Hz as [p [Hp [Hz _]]].
  apply distinct_In. subst z. now apply in_map.
Qed.

Lemma count_dead_keep_le_length (d : db) :
  (count_dead d + count_keep d <= List.length (pack_object d))%nat.
Proof.
  unfold count_dead, count_keep, dead_zoids.
  assert (H1 : (List.length
                  (distinct (map po_zoid
                     (filter (fun p => negb (po_keep p)) (pack_object d))))
                <= List.length
                     (filter (fun p => negb (po_keep p)) (pack_object d)))%nat).
  { rewrite <- (length_map po_zoid
                  (filter (fun p => negb (po_keep p)) (pack_object d))).
    apply NoDup_incl_length; [apply distinct_NoDup |].
    intros z Hz. exact (proj1 (distinct_In _ _) Hz). }
  assert (H2 : forall l : list pack_object_row,
    (List.length (filter (fun p => negb (po_keep p)) l)
     + List.length (filter po_keep l) = List.length l)%nat).
  { induction l as [| p l IH]; simpl; [reflexivity |].
    destruct (po_keep p); simpl; lia. }
  specialize (H2 (pack_object d)). lia.
Qed.

(** Effect of the promoting [UPDATE] on the counters. *)
Lemma promote_count_keep (c : pack_object_row -> bool)
    (l : list pack_object_row) :
  (forall p, c p = true -> po_keep p = false) ->
  List.length (filter po_keep (update_where c (set_keep true) l)) =
  (List.length (filter po_keep l) + rowcount c l)%nat.
Proof.
  intros Hc. unfold update_where, rowcount.
  induction l as [| p l IH]; simpl; [reflexivity |].
  destruct (c p) eqn:Ec.
  - rewrite (Hc p Ec). simpl. rewrite IH. lia.
  - destruct (po_keep p); simpl; rewrite IH; lia.
Qed.

Lemma promote_count_dead (c : pack_object_row -> bool) (inC : Z -> bool)
    (l : list pack_object_row) :
  (forall p, c p = negb (po_keep p) && inC (po_zoid p)) ->
  (List.length (dead_zoids (update_where c (set_keep true) l))
   <= List.length (dead_zoids l))%nat /\
  ((0 < rowcount c l)%nat ->
   (List.length (dead_zoids (update_where c (set_keep true) l))
    < List.length (dead_zoids l))%nat).
Proof.
  intros Hc.
  assert (Hsub : forall z,
    In z (dead_zoids (update_where c (set_keep true) l)) ->
    In z (dead_zoids l) /\ inC z = false).
  { intros z Hz. apply dead_zoids_In in Hz. destruct Hz as [q [Hq [Hz Hk]]].
    apply update_where_In in Hq. destruct Hq as [p [Hp Hq]].
    destruct (c p) eqn:Ec; subst q; [discriminate Hk |].
    split.
    - apply dead_zoids_In. exists p. auto.
    - rewrite Hc, Hk in Ec. simpl in Ec. now subst z. }
  split.
  - apply NoDup_incl_length; [apply distinct_NoDup |].
    intros z Hz. now apply Hsub.
  - intros Hpos. unfold rowcount in Hpos.
    destruct (filter c l) as [| p0 rest] eqn:E; [simpl in Hpos; lia |].
    assert (Hp0 : In p0 (filter c l)) by (rewrite E; now left).
    apply filter_In in Hp0. destruct Hp0 as [Hp0 Hc0].
    rewrite Hc in Hc0. apply andb_true_iff in Hc0.
    destruct Hc0 as [Hk0 Hin0]. apply negb_true_iff in Hk0.
    assert (Hlen : (List.length
                      (po_zoid p0 ::
                       dead_zoids (update_where c (set_keep true) l))
                    <= List.length (dead_zoids l))%nat).
    { apply NoDup_incl_length.
      - constructor; [| apply distinct_NoDup].
        intros Hz. apply Hsub in Hz. destruct Hz as [_ Hz]. congruence.
      - intros z [<- | Hz].
        + apply dead_zoids_In. exists p0. auto.
        + now apply Hsub. }
    simpl in Hlen. lia.
Qed.

Section ClosureLoop.
Variable get_references : string -> string + list Z.

Lemma add_refs_for_tid_frame (tid : Z) (d : db) :
  same_working_set d (snd (_add_refs_for_tid get_references tid d)).
Proof.
  unfold _add_refs_for_tid, Exn.bind, Exn.query, lift, Exn.exec, Exn.ret,
    _add_object_ref_rows, same_working_set.
  destruct (collect_refs get_references tid (select_states tid d) [])
    as [[| r rows] | e]; simpl; auto.
Qed.

Lemma for_each_add_refs_frame (tids : list Z) (d : db) :
  same_working_set d
    (snd (for_each tids (_add_refs_for_tid get_references) d)).
Proof.
  revert d. induction tids as [| t tids IH]; intros d; simpl.
  - split; reflexivity.
  - unfold Exn.bind.
    pose proof (add_refs_for_tid_frame t d) as Ht.
    destruct (_add_refs_for_tid get_references t d) as [[u | e] d1];
      simpl in *.
    + destruct (IH d1) as [H1 H2]. destruct Ht as [Ht1 Ht2].
      split; congruence.
    + exact Ht.
Qed.

Lemma fill_pack_object_refs_frame (d : db) :
  same_working_set d (snd (_fill_pack_object_refs get_references d)).
Proof.
  unfold _fill_pack_object_refs, Exn.bind, Exn.query.
  apply for_each_add_refs_frame.
Qed.

Lemma update_keep_tid_count (c : pack_object_row -> bool)
    (f : pack_object_row -> option Z) (l : list pack_object_row) :
  List.length (filter po_keep
                 (update_where c (fun p => set_keep_tid (f p) p) l)) =
  List.length (filter po_keep l).
Proof.
  unfold update_where. induction l as [| p l IH]; simpl; [reflexivity |].
  destruct (c p); cbn [po_keep set_keep_tid]; destruct (po_keep p); simpl;
    now rewrite IH.
Qed.

Lemma update_keep_tid_dead (c : pack_object_row -> bool)
    (f : pack_object_row -> option Z) (l : list pack_object_row) :
  dead_zoids (update_where c (fun p => set_keep_tid (f p) p) l) = dead_zoids l.
Proof.
  unfold dead_zoids, update_where. f_equal.
  induction l as [| p l IH]; simpl; [reflexivity |].
  destruct (c p); cbn [po_keep set_keep_tid]; destruct (po_keep p); simpl;
    now rewrite IH.
Qed.

Lemma update_keep_tid_zoids (c : pack_object_row -> bool)
    (f : pack_object_row -> option Z) (l : list pack_object_row) :
  map po_zoid (update_where c (fun p => set_keep_tid (f p) p) l) =
  map po_zoid l.
Proof.
  unfold update_where. rewrite map_map. apply map_ext. intros p.
  now destruct (c p).
Qed.

Lemma update_keep_zoids (c : pack_object_row -> bool) (v : bool)
    (l : list pack_object_row) :
  map po_zoid (update_where c (set_keep v) l) = map po_zoid l.
Proof.
  unfold update_where. rewrite map_map. apply map_ext. intros p.
  now destruct (c p).
Qed.

Lemma update_where_none {R : Type} (c : R -> bool) (set : R -> R)
    (l : list R) :
  rowcount c l = O -> update_where c set l = l.
Proof.
  unfold rowcount, update_where. induction l as [| r l IH]; simpl;
    [reflexivity |].
  destruct (c r); simpl; [discriminate |].
  intros H. now rewrite IH.
Qed.

(** A promotion needs a visited parent, hence a row already kept. *)
Lemma child_has_parent (d : db) (p : pack_object_row) :
  is_child d p = true -> exists z, In z (temp_pack_visit d).
Proof.
  unfold is_child, select_visited_children. intros H.
  apply andb_true_iff in H. destruct H as [_ H].
  apply in_subquery_In, distinct_In, in_flat_map in H.
  destruct H as [r [_ H]]. apply in_map_iff in H.
  destruct H as [z [_ Hz]]. apply filter_In in Hz. exists z. tauto.
Qed.

(** One pass of the loop body, on the counters. *)
Lemma closure_step_outcome (pack_tid : Z) (d : db) :
  match closure_step get_references pack_tid d with
  | (Exn.Ok n, d') =>
      count_keep d' = (count_keep d + n)%nat /\
      (count_dead d' <= count_dead d)%nat /\
      ((0 < n)%nat ->
         (count_dead d' < count_dead d)%nat /\ (1 <= count_keep d)%nat) /\
      (n = O -> rowcount (is_child d') (pack_object d') = O) /\
      map po_zoid (pack_object d') = map po_zoid (pack_object d)
  | (Exn.Raise _, _) => True
  end.
Proof.
  unfold closure_step, Exn.bind.
  change (visit_script pack_tid d)
    with (Exn.Ok tt,
          update_new_keep_tid pack_tid
            (insert_temp_pack_visit (set_temp_pack_visit [] d))).
  set (d1 := update_new_keep_tid pack_tid _).
  pose proof (fill_pack_object_refs_frame d1) as [Hpo Htv].
  destruct (_fill_pack_object_refs get_references d1) as [[u | e] d2];
    [| exact I].
  simpl in Hpo, Htv.
  unfold keep_children.
  assert (Hc : forall p, is_child d2 p = true -> po_keep p = false).
  { intros p H. unfold is_child in H. apply andb_true_iff in H.
    now apply negb_true_iff. }
  assert (Hk1 : count_keep d1 = count_keep d)
    by (apply update_keep_tid_count).
  assert (Hd1 : count_dead d1 = count_dead d)
    by (unfold count_dead, d1; cbn [pack_object update_new_keep_tid
          set_pack_object insert_temp_pack_visit set_temp_pack_visit];
        now rewrite update_keep_tid_dead).
  assert (Hz1 : map po_zoid (pack_object d1) = map po_zoid (pack_object d))
    by (apply update_keep_tid_zoids).
  assert (Hk2 : count_keep d2 = count_keep d)
    by (unfold count_keep in *; now rewrite Hpo).
  assert (Hd2 : count_dead d2 = count_dead d)
    by (unfold count_dead in *; now rewrite Hpo).
  destruct (promote_count_dead (is_child d2)
              (fun z => in_subquery z (select_visited_children d2))
              (pack_object d2) (fun p => eq_refl)) as [Hle Hlt].
  unfold count_keep, count_dead in *.
  cbn [pack_object set_pack_object].
  split; [rewrite promote_count_keep by exact Hc; now rewrite Hk2 |].
  split; [now rewrite <- Hd2 |].
  split; [| split].
  - intros Hpos. split; [rewrite <- Hd2; now apply Hlt |].
    unfold rowcount in Hpos.
    destruct (filter (is_child d2) (pack_object d2)) as [| p0 rest] eqn:E;
      [simpl in Hpos; lia |].
    assert (Hp0 : In p0 (filter (is_child d2) (pack_object d2)))
      by (rewrite E; now left).
    apply filter_In in Hp0. destruct Hp0 as [_ Hp0].
    apply child_has_parent in Hp0. destruct Hp0 as [z Hz].
    rewrite Htv in Hz. unfold d1 in Hz.
    cbn [temp_pack_visit update_new_keep_tid set_pack_object
         insert_temp_pack_visit set_temp_pack_visit pack_object app] in Hz.
    apply in_map_iff in Hz. destruct Hz as [p [_ Hp]].
    apply filter_In in Hp. destruct Hp as [Hp Hkn].
    apply andb_true_iff in Hkn. destruct Hkn as [Hkeep _].
    destruct (filter po_keep (pack_object d)) as [| q qs] eqn:Eq;
      [| simpl; lia].
    assert (Hin : In p (filter po_keep (pack_object d)))
      by (apply filter_In; auto).
    rewrite Eq in Hin. destruct Hin.
  - intros Hn. rewrite (update_where_none _ _ _ Hn). exact Hn.
  - now rewrite update_keep_zoids, Hpo.
Qed.

(** The loop, started with a bound above the number of dead oids. *)
Lemma closure_loop_bound (pack_tid : Z) (fuel : nat) :
  forall (passes : nat) (d : db),
  (count_dead d < fuel)%nat ->
  match closure_loop get_references fuel pack_tid passes d with
  | (Exn.Ok (Some n), d') =>
      (passes < n)%nat /\ (n <= passes + 1 + count_dead d)%nat /\
      ((passes + 1 < n)%nat -> (1 <= count_keep d)%nat) /\
      (count_keep d + (n - passes - 1) <= count_keep d')%nat /\
      rowcount (is_child d') (pack_object d') = O /\
      map po_zoid (pack_object d') = map po_zoid (pack_object d)
  | (Exn.Ok None, _) => False
  | (Exn.Raise _, _) => True
  end.
Proof.
  induction fuel as [| fuel IH]; intros passes d Hfuel; [lia |].
  cbn [closure_loop]. unfold Exn.bind.
  pose proof (closure_step_outcome pack_tid d) as Hstep.
  destruct (closure_step get_references pack_tid d) as [[n | e] d1];
    [| exact I].
  destruct Hstep as [Hk [Hle [Hpos [Hfix Hz]]]].
  destruct n as [| n].
  - unfold Exn.ret.
    split; [lia |]. split; [lia |]. split; [lia |]. split; [lia |].
    split; [now apply Hfix | exact Hz].
  - destruct (Hpos ltac:(lia)) as [Hlt Hone].
    specialize (IH (S passes) d1 ltac:(lia)).
    destruct (closure_loop get_references fuel pack_tid (S passes) d1)
      as [[[m |] | e] d2]; [| exact IH | exact I].
    destruct IH as [H1 [H2 [H3 [H4 [H5 H6]]]]].
    split; [lia |]. split; [lia |]. split; [intros _; exact Hone |].
    split; [lia |]. split; [exact H5 | congruence].
Qed.

End ClosureLoop.

Lemma pre_pack_with_gc_exits (get_references : string -> string + list Z)
    (pack_tid : Z) (d : db) :
  fst (_pre_pack_with_gc get_references pack_tid d) <> Exn.Ok None.
Proof.
  unfold _pre_pack_with_gc, Exn.bind at 1.
  destruct (_fill_nonpacked_refs get_references pack_tid d) as [[u | e] d1];
    [| discriminate].
  unfold Exn.bind at 1.
  change (seed_pack_object pack_tid d1)
    with (Exn.Ok tt, snd (seed_pack_object pack_tid d1)).
  set (d2 := snd (seed_pack_object pack_tid d1)).
  unfold Exn.bind, _create_temp_pack_visit, Exn.exec, Exn.query.
  set (d3 := set_temp_pack_visit [] d2).
  pose proof (closure_loop_bound get_references pack_tid
                (S (List.length (pack_object d3))) O d3) as H.
  pose proof (count_dead_keep_le_length d3) as Hlen.
  specialize (H ltac:(lia)).
  destruct (closure_loop get_references (S (List.length (pack_object d3)))
              pack_tid O d3) as [[[n |] | e] d4]; simpl;
    [discriminate | contradiction | discriminate].
Qed.

(** C3, as the code has it: the closure loop of [_pre_pack_with_gc]
    terminates.  Every pass
    that loops back raises the number of rows with [keep = TRUE]; started
    on any database, with a bound above the number of distinct oids of
    [pack_object], the loop leaves through its [break] (or through an
    exception of [get_references]), never by exhausting the bound; the
    passes that looped back number at most the distinct oids of
    [pack_object] (in fact at most those still dead), the passes made
    number at most the rows of [pack_object] (one pass for an empty
    table), and on exit no dead row is the child of a visited row.  The
    bound [_pre_pack_with_gc] itself uses is never exhausted. *)
Theorem closure_loop_terminates (get_references : string -> string + list Z)
    (pack_tid : Z) (d : db) (extra : nat) :
  (forall d0 n d1,
     closure_step get_references pack_tid d0 = (Exn.Ok (S n), d1) ->
     (count_keep d0 < count_keep d1)%nat) /\
  match closure_loop get_references (S (distinct_oids d) + extra)
          pack_tid O d with
  | (Exn.Ok (Some passes), d') =>
      (1 <= passes)%nat /\
      (passes - 1 <= count_dead d)%nat /\
      (passes - 1 <= distinct_oids d)%nat /\
      (passes <= Nat.max 1 (List.length (pack_object d)))%nat /\
      (count_keep d + (passes - 1) <= count_keep d')%nat /\
      rowcount (is_child d') (pack_object d') = O
  | (Exn.Ok None, _) => False
  | (Exn.Raise _, _) => True
  end /\
  fst (_pre_pack_with_gc get_references pack_tid d) <> Exn.Ok None.
Proof.
  split; [| split].
  - intros d0 n d1 E.
    pose proof (closure_step_outcome get_references pack_tid d0) as H.
    rewrite E in H. lia.
  - pose proof (count_dead_le_distinct d) as Hdist.
    pose proof (count_dead_keep_le_length d) as Hlen.
    pose proof (closure_loop_bound get_references pack_tid
                  (S (distinct_oids d) + extra) O d ltac:(lia)) as H.
    destruct (closure_loop get_references (S (distinct_oids d) + extra)
                pack_tid O d) as [[[n |] | e] d']; [| exact H | exact I].
    destruct H as [H1 [H2 [H3 [H4 [H5 _]]]]].
    split; [lia |]. split; [lia |]. split; [lia |].
    split; [| split; [lia | exact H5]].
    destruct (Nat.le_gt_cases n 1) as [Hn | Hn]; [lia |].
    specialize (H3 ltac:(lia)). lia.
  - apply pre_pack_with_gc_exits.
Qed.

(** C3, as stated, fails where [pack_object] is empty: the loop body runs
    once, to find that nothing is promoted, while the table holds no oid.
    So it is for the loop started on an empty database, and for
    [_pre_pack_with_gc] at a [pack_tid] below every revision of
    [history_db]. *)
Lemma closure_loop_pass_on_empty_table :
  fst (closure_loop Samples.refs 1 5 O empty_db) = Exn.Ok (Some 1%nat) /\
  distinct_oids empty_db = O /\
  ~ (forall fuel passes d',
       closure_loop Samples.refs fuel 5 O empty_db
         = (Exn.Ok (Some passes), d') ->
       (passes <= distinct_oids empty_db)%nat) /\
  fst (_pre_pack_with_gc Samples.refs 5 Samples.history_db)
    = Exn.Ok (Some 1%nat) /\
  pack_object (snd (_pre_pack_with_gc Samples.refs 5 Samples.history_db)) = [].
Proof.
  split; [reflexivity |]. split; [reflexivity |]. split; [| split].
  - intros H.
    assert (Hle : (1 <= distinct_oids empty_db)%nat).
    { apply (H 1%nat 1%nat (snd (closure_loop Samples.refs 1 5 O empty_db))).
      reflexivity. }
    vm_compute in Hle. lia.
  - vm_compute. reflexivity.
  - vm_compute. reflexivity.
Qed.

(* ================================================================== *)
(** * [_run_script_stmt] *)
(* ================================================================== *)

Module RunnerFacts.
Import Py Runner RunnerProps.
Local Open Scope string_scope.

(** C9, as the code has it: when [cursor.execute] raises inside
    [_run_script_stmt], one record is logged at WARNING, carrying the
    statement after template substitution (its placeholders still
    unbound) and, next to it, the parameter mapping; the driver's
    exception is raised again as it was, and [cursor.execute] has been
    called once, with the substituted statement. *)
Theorem run_script_stmt_failure (Conn : Type)
    (cursor_execute : string -> params -> Conn -> Conn * option string)
    (generic_stmt stmt : string) (generic_params : params)
    (w : world Conn) (c : Conn) (e : string)
    (Hsubst : format generic_stmt _script_vars = inr stmt)
    (Hraise : cursor_execute stmt generic_params (conn w) = (c, Some e)) :
  _run_script_stmt cursor_execute generic_stmt generic_params w =
  (Raise (DriverError e),
   mk_world c
     (log w ++ [mk_log WARNING "script statement failed: %r; parameters: %r"
                       [ReprStr stmt; ReprParams generic_params]])
     (executed w ++ [(stmt, generic_params)])).
Proof.
  unfold _run_script_stmt. now rewrite Hsubst, Hraise.
Qed.

(** [run_script_stmt_failure] with a driver that always raises. *)
Lemma run_script_stmt_failure_witness :
  _run_script_stmt failing_execute
    "SELECT 1 FROM current_object WHERE zoid = %(oid)s" [("oid", 42%Z)]
    fresh_world =
  (Raise (DriverError "OperationalError"),
   mk_world tt
     [mk_log WARNING "script statement failed: %r; parameters: %r"
        [ReprStr "SELECT 1 FROM current_object WHERE zoid = %(oid)s";
         ReprParams [("oid", 42%Z)]]]
     [("SELECT 1 FROM current_object WHERE zoid = %(oid)s", [("oid", 42%Z)])]).
Proof.
  apply (run_script_stmt_failure unit failing_execute
           "SELECT 1 FROM current_object WHERE zoid = %(oid)s"
           "SELECT 1 FROM current_object WHERE zoid = %(oid)s"
           [("oid", 42%Z)] fresh_world tt "OperationalError").
  - reflexivity.
  - reflexivity.
Defined.

(** C9, as stated, fails: the record logged for a failed statement
    carries the parameter values as well. *)
Lemma run_script_stmt_logs_parameters :
  ~ Forall statement_only
      (log (snd (_run_script_stmt failing_execute
                   "SELECT 1 FROM current_object WHERE zoid = %(oid)s"
                   [("oid", 42%Z)] fresh_world))).
Proof.
  intros H. cbv in H. inversion H as [| rec l Hrec _]; subst.
  destruct (Hrec (ReprParams [("oid", 42%Z)])) as [s Hs].
  - simpl. right. left. reflexivity.
  - discriminate Hs.
Qed.

(* ------------------------------------------------------------------ *)
(** ** [_run_script]: where statements end *)

Lemma endswith_semicolon (s : string) :
  endswith ";" s = true -> s = drop_last s ++ ";".
Proof.
  induction s as [| c s IH]; [discriminate |].
  destruct s as [| c' s'].
  - simpl. destruct (Ascii.eqb_spec c ";") as [-> | Hc];
      [reflexivity | discriminate].
  - change (endswith ";" (String c (String c' s')))
      with (String.eqb (String c (String c' s')) ";"
            || endswith ";" (String c' s')).
    assert (E : String.eqb (String c (String c' s')) ";" = false)
      by (simpl; destruct (c =? ";")%char; reflexivity).
    rewrite E. cbn [orb]. intros H.
    change (drop_last (String c (String c' s')))
      with (String c (drop_last (String c' s'))).
    cbn [append]. f_equal. now apply IH.
Qed.

Section Statements.
Context {Conn : Type}.
Variable cursor_execute : string -> params -> Conn -> Conn * option string.
Variable p : params.

Lemma then_skip (m : R Conn unit) (w : world Conn) :
  then_ m (fun w' => (Ok tt, w')) w = m w.
Proof.
  unfold then_. destruct (m w) as [[[] | e] w']; reflexivity.
Qed.

Lemma then_ext {A : Type} (m : R Conn unit) (k k' : R Conn A) :
  (forall w, k w = k' w) -> forall w, then_ m k w = then_ m k' w.
Proof.
  intros H w. unfold then_. destruct (m w) as [[u | e] w']; [apply H |].
  reflexivity.
Qed.

Lemma run_script_lines_statements (raw : list string) :
  forall lines,
  Forall (fun l => closes_statement l = false) lines ->
  exists stmts,
    statements_of (lines ++ retained raw) stmts /\
    forall w, run_script_lines cursor_execute raw lines p w =
              run_each cursor_execute stmts p w.
Proof.
  induction raw as [| line rest IH]; intros lines Hopen.
  - unfold retained. simpl. rewrite app_nil_r.
    destruct lines as [| l ls].
    + exists []. split; [constructor | reflexivity].
    + exists [join_nl (l :: ls)]. split.
      * apply statements_trailing; [discriminate | exact Hopen].
      * intros w. simpl. now rewrite then_skip.
  - unfold retained. cbn [map filter run_script_lines].
    fold (retained rest).
    destruct (is_empty (strip line) || startswith "--" (strip line)) eqn:Eskip;
      cbn [negb].
    + apply IH. exact Hopen.
    + destruct (endswith ";" (strip line)) eqn:Eend.
      * destruct (IH [] (Forall_nil _)) as [stmts [Hs Hrun]].
        exists (join_nl (lines ++ [drop_last (strip line)]) :: stmts). split.
        -- rewrite (endswith_semicolon _ Eend) at 1.
           apply (statements_closed lines (drop_last (strip line))
                    (retained rest) stmts Hopen Hs).
        -- intros w. cbn [run_each]. apply then_ext. exact Hrun.
      * destruct (IH (lines ++ [strip line])%list) as [stmts [Hs Hrun]].
        -- apply Forall_app. split; [exact Hopen |].
           constructor; [exact Eend | constructor].
        -- exists stmts. split; [| exact Hrun].
           rewrite <- app_assoc in Hs. exact Hs.
Qed.

End Statements.

(** C10: [_run_script] ends a statement only at a retained line (stripped,
    not blank, not a comment) whose last character is a semicolon.  The
    statements it hands to [_run_script_stmt], in order and until one
    raises, are those of [statements_of]: lines without a final semicolon
    are gathered, whatever semicolons they hold inside, the closing
    semicolon is removed, and lines left after the last closing semicolon
    are submitted as a final statement. *)
Theorem run_script_statements (Conn : Type)
    (cursor_execute : string -> params -> Conn -> Conn * option string)
    (script : string) (p : params) :
  exists stmts,
    statements_of (retained (split_nl script)) stmts /\
    forall w, _run_script cursor_execute script p w =
              run_each cursor_execute stmts p w.
Proof.
  unfold _run_script.
  destruct (run_script_lines_statements cursor_execute p (split_nl script) []
              (Forall_nil _)) as [stmts [Hs Hrun]].
  exists stmts. split; [exact Hs | exact Hrun].
Qed.

(** A semicolon inside a line or inside a comment does not end a
    statement; the closing semicolons are gone; the last statement runs
    without one. *)
Example run_script_sample :
  _run_script accepting_execute sample_script [] fresh_world =
  (Ok tt,
   mk_world tt []
     [("DELETE FROM pack_object", []);
      ("UPDATE t SET note = 'a;b' WHERE keep = FALSE", []);
      (join_nl ["SELECT tid"; "FROM transaction"], [])]).
Proof. reflexivity. Qed.

End RunnerFacts.

(* ================================================================== *)
(** * [CXOracleScriptRunner.run_lob_stmt] *)
(* ================================================================== *)

Module OracleFacts.
Import Py Oracle OracleSamples.
Local Open Scope string_scope.

Section Cursor.
Context {Args Conn D : Type}.
Variable cursor_execute : bool -> string -> Args -> Conn -> Conn * option exn.
Variable cursor_next : bool -> Conn -> Conn * result (option row).
Variables (stmt : string) (args : Args) (default : D).

(** Truncation reported through an error object with code 1406: the
    statement is run once more, with a trailing blank, and the outcome of
    that second run is the outcome of [run_lob_stmt]. *)
Lemma run_lob_stmt_retries (w w1 : world Conn) :
  inline_attempt cursor_execute cursor_next stmt args w = (Raise (DatabaseError [ErrObj 1406]), w1) ->
  run_lob_stmt cursor_execute cursor_next true stmt args default w =
  match second_attempt cursor_execute cursor_next stmt args w1 with
  | (Ok r, w2) => (Ok (or_default default r), w2)
  | (Raise e, w2) => (Raise e, w2)
  end.
Proof.
  unfold run_lob_stmt. intros ->.
  reflexivity.
Qed.

(** Any other error object: raised again as it was, nothing more run. *)
Lemma run_lob_stmt_other_code (w w1 : world Conn) (code : Z) :
  code <> 1406 ->
  inline_attempt cursor_execute cursor_next stmt args w = (Raise (DatabaseError [ErrObj code]), w1) ->
  run_lob_stmt cursor_execute cursor_next true stmt args default w =
  (Raise (DatabaseError [ErrObj code]), w1).
Proof.
  unfold run_lob_stmt. intros Hc ->. simpl.
  destruct (Z.eqb_spec code 1406); [contradiction | reflexivity].
Qed.

(** A string error that does not end in [" 1406"]: raised again. *)
Lemma run_lob_stmt_other_string (w w1 : world Conn) (msg : string) :
  endswith " 1406" msg = false ->
  inline_attempt cursor_execute cursor_next stmt args w = (Raise (DatabaseError [ErrStr msg]), w1) ->
  run_lob_stmt cursor_execute cursor_next true stmt args default w =
  (Raise (DatabaseError [ErrStr msg]), w1).
Proof.
  unfold run_lob_stmt. intros Hm ->. simpl.
  now rewrite Hm.
Qed.

(** A string error that ends in [" 1406"]: the test goes on to read
    [error.code], which a string does not have. *)
Lemma run_lob_stmt_string_1406 (w w1 : world Conn) (msg : string) :
  endswith " 1406" msg = true ->
  inline_attempt cursor_execute cursor_next stmt args w = (Raise (DatabaseError [ErrStr msg]), w1) ->
  run_lob_stmt cursor_execute cursor_next true stmt args default w =
  (Raise (AttributeError "'str' object has no attribute 'code'"), w1).
Proof.
  unfold run_lob_stmt. intros Hm ->. simpl.
  now rewrite Hm.
Qed.

(** No row: the default, on the inline path. *)
Lemma run_lob_stmt_default_inline (w w1 : world Conn) :
  inline_attempt cursor_execute cursor_next stmt args w = (Ok None, w1) ->
  run_lob_stmt cursor_execute cursor_next true stmt args default w =
  (Ok (inr default), w1).
Proof.
  unfold run_lob_stmt. now intros ->.
Qed.

End Cursor.

(** C8, on the code: when the truncation error carries a string ending in
    [" 1406"], the case the test [isinstance(error, str)] is there for,
    [run_lob_stmt] does not run the statement a second time: it raises
    [AttributeError], having executed the statement once. *)
Theorem run_lob_stmt_string_truncation :
  run_lob_stmt truncating_execute one_lob_row true
    "SELECT state FROM object_state WHERE zoid = :1" tt (@None row)
    idle_cursor =
  (Raise (AttributeError "'str' object has no attribute 'code'"),
   mk_world tt false ["SELECT state FROM object_state WHERE zoid = :1"]).
Proof. reflexivity. Qed.

Example run_lob_stmt_object_truncation :
  run_lob_stmt truncating_execute_obj one_lob_row true
    "SELECT state FROM object_state WHERE zoid = :1" tt (@None row)
    idle_cursor =
  (Ok (inl [Value "pickle"]),
   mk_world tt false
     ["SELECT state FROM object_state WHERE zoid = :1";
      "SELECT state FROM object_state WHERE zoid = :1 "]).
Proof. reflexivity. Qed.

End OracleFacts.

(* ================================================================== *)
(** * The sample databases, evaluated *)
(* ================================================================== *)

Module SampleFacts.
Import Samples.
Local Open Scope string_scope.

Example choose_pack_transaction_sample :
  fst (choose_pack_transaction 25 history_db) = Exn.Ok (Some 20).
Proof. reflexivity. Qed.

Example history_sample :
  fst (iter_object_history 1 history_db) =
  Exn.Ok [mk_history 30 "user" "desc" "x" (Some 3);
          mk_history 20 "user" "desc" "x" (Some 2);
          mk_history 10 "user" "desc" "x" (Some 1)].
Proof. reflexivity. Qed.

Example history_unknown_oid :
  fst (iter_object_history 5 history_db) = Exn.Raise (Exn.KeyError 5).
Proof. reflexivity. Qed.

Example pre_pack_without_gc_sample :
  pack_object (snd (_pre_pack_without_gc 25 history_db)) =
  [mk_pack_object 1 true (Some 20); mk_pack_object 2 true (Some 10)].
Proof. reflexivity. Qed.

Example pack_sample :
  object_state (snd (pack 25 prepared_db)) =
    [mk_object_state 1 20 0 (Some "bb"); mk_object_state 1 30 20 (Some "ccc")]
  /\ current_object (snd (pack 25 prepared_db)) = [mk_current_object 1 30].
Proof. split; reflexivity. Qed.

Example gc_sample :
  fst (_pre_pack_with_gc refs 25 gc_db) = Exn.Ok (Some 1%nat) /\
  pack_object (snd (_pre_pack_with_gc refs 25 gc_db)) =
    [mk_pack_object 2 false None; mk_pack_object 0 true (Some 20)].
Proof. split; reflexivity. Qed.

Example chain_sample :
  fst (_pre_pack_with_gc refs 10 chain_db) = Exn.Ok (Some 3%nat) /\
  map (fun p => (po_zoid p, po_keep p))
      (pack_object (snd (_pre_pack_with_gc refs 10 chain_db))) =
    [(0, true); (2, true); (3, true); (4, false)].
Proof. split; reflexivity. Qed.

(** On an empty [pack_object] the loop body still runs once. *)
Example empty_sample :
  fst (_pre_pack_with_gc refs 10 empty_db) = Exn.Ok (Some 1%nat).
Proof. reflexivity. Qed.

(** Packing [prepared_db] at 35: the revision at 30 loses its back-link
    although its predecessor, the revision at 20, is still there. *)
Example pack_cuts_link_to_survivor :
  object_state (snd (pack 35 prepared_db)) =
    [mk_object_state 1 20 0 (Some "bb"); mk_object_state 1 30 0 (Some "ccc")].
Proof. reflexivity. Qed.

Lemma prepared_db_key : NoDup (map po_zoid (pack_object prepared_db)).
Proof.
  simpl. constructor.
  - simpl. intros [H | []]. discriminate H.
  - constructor; [intros [] | constructor].
Defined.

(** [pack_deletes] at [prepared_db], packed at 25. *)
Lemma pack_deletes_witness :
  NoDup (map po_zoid (pack_object prepared_db)) /\
  (forall r, In r (object_state (snd (pack 25 prepared_db))) ->
             os_zoid r = 1 -> ~ os_tid r < 20) /\
  (exists r', In r' (object_state (snd (pack 25 prepared_db))) /\
              os_zoid r' = 1 /\ os_tid r' = 20 /\ os_state r' = Some "bb").
Proof.
  split; [exact prepared_db_key |].
  destruct (pack_deletes 25 prepared_db prepared_db_key)
    as [_ [_ [_ [_ [_ [_ H]]]]]].
  destruct (H (mk_pack_object 1 true (Some 20)) 20) as [Hcut Hkeep].
  - simpl. left. reflexivity.
  - reflexivity.
  - reflexivity.
  - split; [exact Hcut |].
    apply (Hkeep (mk_object_state 1 20 10 (Some "bb"))).
    + simpl. right. left. reflexivity.
    + reflexivity.
    + reflexivity.
Defined.

Lemma history_db_tx_key : NoDup (map tx_tid (transaction history_db)).
Proof.
  simpl. repeat (constructor; [simpl; intuition discriminate |]). constructor.
Defined.

Lemma history_db_os_key : NoDup (map os_key (object_state history_db)).
Proof.
  simpl. repeat (constructor; [simpl; intuition discriminate |]). constructor.
Defined.

(** [iter_object_history_spec] at object 1 of [history_db]. *)
Lemma iter_object_history_witness :
  NoDup (map tx_tid (transaction history_db)) /\
  NoDup (map os_key (object_state history_db)) /\
  snd (iter_object_history 1 history_db) = history_db /\
  (forall rows, fst (iter_object_history 1 history_db) = Exn.Ok rows ->
     StronglySorted (fun a b => h_tid b < h_tid a) rows).
Proof.
  split; [exact history_db_tx_key |].
  split; [exact history_db_os_key |].
  destruct (iter_object_history_spec 1 history_db history_db_tx_key
              history_db_os_key) as [Hsame [_ [_ Hrows]]].
  split; [exact Hsame |].
  intros rows E. destruct (Hrows rows E) as [_ [_ Hs]]. exact Hs.
Defined.

End SampleFacts.

(* ================================================================== *)
(** * [iter_transactions] *)
(* ================================================================== *)

Lemma NoDup_map_filter {A K : Type} (key : A -> K) (f : A -> bool)
    (l : list A) :
  NoDup (map key l) -> NoDup (map key (filter f l)).
Proof.
  induction l as [| a l IH]; simpl; intros Hn; [constructor |].
  inversion Hn as [| ? ? Hnot Hn']; subst.
  destruct (f a); simpl; [| now apply IH].
  constructor; [| now apply IH].
  intros Hin. apply Hnot. apply in_map_iff in Hin.
  destruct Hin as [b [Hb Hin]]. apply filter_In in Hin.
  rewrite <- Hb. apply in_map. tauto.
Qed.

(** X1: [iter_transactions] lists exactly the transactions that are not
    packed and whose tid is not 0 (negative tids included), each once, as
    [(tid, username, description, extension)], in strictly descending tid
    order, and leaves the database as it was.  [tid] is the key of
    [transaction]. *)
Theorem iter_transactions_spec (d : db)
    (Hkey : NoDup (map tx_tid (transaction d))) :
  snd (iter_transactions d) = d /\
  exists rows,
    fst (iter_transactions d) = Exn.Ok rows /\
    (forall x, In x rows <->
       exists r, In r (transaction d) /\ tx_packed r = false /\
                 tx_tid r <> 0 /\
                 x = (tx_tid r, tx_username r, tx_description r,
                      tx_extension r)) /\
    StronglySorted (fun a b => info_tid b < info_tid a) rows.
Proof.
  split; [reflexivity |].
  exists (select_transactions d). split; [reflexivity |]. split.
  - intros x. unfold select_transactions.
    rewrite order_by_desc_In, in_map_iff. split.
    + intros [r [<- Hr]]. apply filter_In in Hr. destruct Hr as [Hr Hc].
      apply andb_true_iff in Hc. destruct Hc as [Hp Hz].
      apply negb_true_iff in Hp. apply negb_true_iff in Hz.
      apply Z.eqb_neq in Hz. exists r. auto.
    + intros [r [Hr [Hp [Hz ->]]]]. exists r. split; [reflexivity |].
      apply filter_In. split; [assumption |].
      apply andb_true_iff. split; apply negb_true_iff;
        [assumption | now apply Z.eqb_neq].
  - unfold select_transactions.
    apply sorted_nodup_strict; [apply order_by_desc_sorted |].
    eapply Permutation_NoDup.
    + apply Permutation_map, Permutation_sym, order_by_desc_perm.
    + rewrite map_map. cbn [info_tid fst].
      now apply NoDup_map_filter.
Qed.

(** [iter_transactions_spec] at [history_db]. *)
Lemma iter_transactions_witness :
  NoDup (map tx_tid (transaction Samples.history_db)) /\
  snd (iter_transactions Samples.history_db) = Samples.history_db.
Proof.
  split; [exact SampleFacts.history_db_tx_key |].
  exact (proj1 (iter_transactions_spec Samples.history_db
                  SampleFacts.history_db_tx_key)).
Defined.

(* ================================================================== *)
(** * [pack]: the closing script *)
(* ================================================================== *)

Import MoreProps.

Lemma pack_unfold (pack_tid : Z) (d : db) :
  pack pack_tid d =
  (Exn.Ok tt,
   delete_pack_object
     (mark_packed pack_tid
        (delete_transaction pack_tid
           (delete_object_refs_added pack_tid
              (terminate_prev_tid pack_tid (snd (pack_delete_loop d))))))).
Proof. reflexivity. Qed.

Lemma no_object_state_false (d : db) (t : Z) :
  no_object_state d t = false <-> has_revision d t.
Proof.
  unfold no_object_state, has_revision.
  rewrite negb_false_iff, existsb_exists. split.
  - intros [s [Hs E]]. apply Z.eqb_eq in E. eauto.
  - intros [s [Hs E]]. exists s. split; [assumption | now apply Z.eqb_eq].
Qed.

Lemma no_object_state_true (d : db) (t : Z) :
  no_object_state d t = true <-> ~ has_revision d t.
Proof.
  rewrite <- no_object_state_false.
  destruct (no_object_state d t); split; congruence.
Qed.

Lemma has_revision_terminate (pack_tid : Z) (d : db) (t : Z) :
  has_revision (terminate_prev_tid pack_tid d) t <-> has_revision d t.
Proof.
  unfold has_revision. split.
  - intros [s' [Hs' E]]. apply terminate_prev_tid_In in Hs'.
    destruct Hs' as [s [Hs [_ [Et _]]]]. exists s. split; congruence.
  - intros [s [Hs E]].
    destruct (terminate_prev_tid_keeps pack_tid d s Hs) as [s' [Hs' [_ [Et _]]]].
    exists s'. split; congruence.
Qed.

Lemma no_object_state_ext (d d' : db) (t : Z) :
  (forall t, has_revision d' t <-> has_revision d t) ->
  no_object_state d' t = no_object_state d t.
Proof.
  intros H. destruct (no_object_state d t) eqn:E.
  - apply no_object_state_true. rewrite H. now apply no_object_state_true.
  - apply no_object_state_false. rewrite H. now apply no_object_state_false.
Qed.

Lemma set_packed_packed (r : transaction_row) :
  tx_packed r = true -> set_packed true r = r.
Proof. destruct r. simpl. now intros ->. Qed.

Lemma pack_transaction_rows (pack_tid : Z) (d : db) :
  let d2 := snd (pack pack_tid d) in
  (forall r', In r' (transaction d2) -> 0 < tx_tid r' ->
     tx_tid r' <= pack_tid ->
     tx_packed r' = true /\ has_revision d2 (tx_tid r')) /\
  (forall r, In r (transaction d) -> tx_tid r <= 0 \/ pack_tid < tx_tid r ->
     In r (transaction d2)) /\
  (forall r, In r (transaction d) -> has_revision d2 (tx_tid r) ->
     In r (transaction d2) \/ In (set_packed true r) (transaction d2)) /\
  (forall r', In r' (transaction d2) ->
     exists r, In r (transaction d) /\ (r' = r \/ r' = set_packed true r)).
Proof.
  intros d2. subst d2. rewrite pack_unfold. cbn [snd].
  set (d1 := snd (pack_delete_loop d)).
  set (dt := terminate_prev_tid pack_tid d1).
  assert (Hrev : forall t, has_revision
            (delete_pack_object (mark_packed pack_tid
               (delete_transaction pack_tid
                  (delete_object_refs_added pack_tid dt)))) t
            <-> has_revision dt t) by (intros t; reflexivity).
  assert (Hno : forall t,
            no_object_state (delete_object_refs_added pack_tid dt) t
            = no_object_state dt t) by (intros t; reflexivity).
  assert (Htx : transaction dt = transaction d) by reflexivity.
  cbn [transaction delete_pack_object set_pack_object mark_packed
       set_transaction delete_transaction delete_object_refs_added
       set_object_refs_added].
  fold dt. rewrite Htx.
  split; [| split; [| split]].
  - intros r' Hr' H0 Hle. apply update_where_In in Hr'.
    destruct Hr' as [r [Hr E]]. apply delete_where_In in Hr.
    destruct Hr as [Hr Hdel].
    assert (Ht : tx_tid r' = tx_tid r).
    { rewrite E.
      destruct ((0 <? tx_tid r) && (tx_tid r <=? pack_tid)
                && negb (tx_packed r)); reflexivity. }
    rewrite Ht in *.
    assert (H0' : (0 <? tx_tid r) = true) by now apply Z.ltb_lt.
    assert (Hle' : (tx_tid r <=? pack_tid) = true) by now apply Z.leb_le.
    rewrite H0', Hle' in Hdel. cbn [andb] in Hdel.
    rewrite Hno in Hdel. apply no_object_state_false in Hdel.
    split; [| apply Hrev; exact Hdel].
    subst r'. rewrite H0', Hle'. cbn [andb].
    destruct (tx_packed r) eqn:Ep; simpl; [exact Ep | reflexivity].
  - intros r Hr Hout. apply update_where_In. exists r. split.
    + apply delete_where_In. split; [assumption |].
      destruct Hout as [Hout | Hout].
      * assert (E : (0 <? tx_tid r) = false) by (apply Z.ltb_ge; lia).
        now rewrite E.
      * assert (E : (tx_tid r <=? pack_tid) = false) by (apply Z.leb_gt; lia).
        rewrite E. now rewrite andb_false_r.
    + destruct Hout as [Hout | Hout].
      * assert (E : (0 <? tx_tid r) = false) by (apply Z.ltb_ge; lia).
        now rewrite E.
      * assert (E : (tx_tid r <=? pack_tid) = false) by (apply Z.leb_gt; lia).
        rewrite E. now rewrite andb_false_r.
  - intros r Hr Hhas. change (has_revision dt (tx_tid r)) in Hhas.
    assert (Hin : In r (delete_where
              (fun r => (0 <? tx_tid r) && (tx_tid r <=? pack_tid)
                        && no_object_state
                             (delete_object_refs_added pack_tid dt)
                             (tx_tid r))
              (transaction d))).
    { apply delete_where_In. split; [assumption |].
      rewrite Hno. apply no_object_state_false in Hhas. rewrite Hhas.
      apply andb_false_r. }
    destruct ((0 <? tx_tid r) && (tx_tid r <=? pack_tid)
              && negb (tx_packed r)) eqn:Ec.
    + right. apply update_where_In. exists r. split; [exact Hin |].
      now rewrite Ec.
    + left. apply update_where_In. exists r. split; [exact Hin |].
      now rewrite Ec.
  - intros r' Hr'. apply update_where_In in Hr'.
    destruct Hr' as [r [Hr E]]. apply delete_where_In in Hr.
    exists r. split; [tauto |]. rewrite E.
    destruct ((0 <? tx_tid r) && (tx_tid r <=? pack_tid)
              && negb (tx_packed r)); auto.
Qed.

(** X2: what [pack] leaves in [transaction].  A transaction with
    [0 < tid <= pack_tid] stays only if some revision made by it is left
    in [object_state], and it is then marked packed; every transaction
    outside that range, transaction 0 included, is left as it was; no row
    is invented and only [packed] ever changes. *)
Theorem pack_transaction_table (pack_tid : Z) (d : db) :
  let d2 := snd (pack pack_tid d) in
  (forall r', In r' (transaction d2) -> 0 < tx_tid r' ->
     tx_tid r' <= pack_tid ->
     tx_packed r' = true /\ has_revision d2 (tx_tid r')) /\
  (forall r, In r (transaction d) -> tx_tid r <= 0 \/ pack_tid < tx_tid r ->
     In r (transaction d2)) /\
  (forall r, In r (transaction d) -> has_revision d2 (tx_tid r) ->
     In r (transaction d2) \/ In (set_packed true r) (transaction d2)) /\
  (forall r', In r' (transaction d2) ->
     exists r, In r (transaction d) /\ (r' = r \/ r' = set_packed true r)).
Proof. exact (pack_transaction_rows pack_tid d). Qed.

Lemma pack_object_refs_added_rows (pack_tid : Z) (d : db) :
  let d2 := snd (pack pack_tid d) in
  forall t, In t (object_refs_added d2) <->
    In t (object_refs_added d) /\
    (0 < t -> t <= pack_tid -> has_revision d2 t).
Proof.
  intros d2 t. subst d2. rewrite pack_unfold. cbn [snd].
  set (dt := terminate_prev_tid pack_tid (snd (pack_delete_loop d))).
  assert (Hrev : has_revision
            (delete_pack_object (mark_packed pack_tid
               (delete_transaction pack_tid
                  (delete_object_refs_added pack_tid dt)))) t
            <-> has_revision dt t) by reflexivity.
  rewrite Hrev.
  cbn [object_refs_added delete_pack_object set_pack_object mark_packed
       set_transaction delete_transaction delete_object_refs_added
       set_object_refs_added].
  change (object_refs_added dt) with (object_refs_added d).
  rewrite delete_where_In. split.
  - intros [Hin Hc]. split; [assumption |]. intros H0 Hle.
    apply Z.ltb_lt in H0. apply Z.leb_le in Hle. rewrite H0, Hle in Hc.
    now apply no_object_state_false.
  - intros [Hin Hc]. split; [assumption |].
    destruct (Z.ltb_spec 0 t) as [H0 | H0]; [| reflexivity].
    destruct (Z.leb_spec t pack_tid) as [Hle | Hle]; [| reflexivity].
    cbn [andb]. apply no_object_state_false. now apply Hc.
Qed.

(** X3: what [pack] leaves in [object_refs_added]: an entry with
    [0 < tid <= pack_tid] stays exactly when a revision made by that
    transaction is left in [object_state]; all other entries stay. *)
Theorem pack_object_refs_added (pack_tid : Z) (d : db) :
  let d2 := snd (pack pack_tid d) in
  forall t, In t (object_refs_added d2) <->
    In t (object_refs_added d) /\
    (0 < t -> t <= pack_tid -> has_revision d2 t).
Proof. exact (pack_object_refs_added_rows pack_tid d). Qed.

(* ------------------------------------------------------------------ *)
(** ** Packing twice *)

Lemma delete_where_id {R : Type} (c : R -> bool) (l : list R) :
  (forall r, In r l -> c r = false) -> delete_where c l = l.
Proof.
  unfold delete_where. induction l as [| r l IH]; intros H; simpl;
    [reflexivity |].
  rewrite (H r (or_introl eq_refl)). simpl. f_equal.
  apply IH. intros x Hx. apply H. now right.
Qed.

Lemma update_where_id {R : Type} (c : R -> bool) (set : R -> R) (l : list R) :
  (forall r, In r l -> c r = true -> set r = r) -> update_where c set l = l.
Proof.
  unfold update_where. induction l as [| r l IH]; intros H; simpl;
    [reflexivity |].
  f_equal.
  - destruct (c r) eqn:E; [| reflexivity]. apply H; [now left | exact E].
  - apply IH. intros x Hx. apply H. now right.
Qed.

Lemma delete_not_kept_nothing (t : table) (d : db) :
  pack_object d = [] -> delete_not_kept t d = d.
Proof.
  intros H. destruct d as [tx os co orf ora po tv]. simpl in H. subst po.
  destruct t; unfold delete_not_kept, set_object_ref, set_current_object,
    set_object_state; cbn [transaction object_state current_object object_ref
    object_refs_added pack_object temp_pack_visit]; f_equal;
    apply delete_where_id; intros r _; reflexivity.
Qed.

Lemma delete_history_nothing (t : table) (d : db) :
  pack_object d = [] -> delete_history t d = d.
Proof.
  intros H. destruct d as [tx os co orf ora po tv]. simpl in H. subst po.
  destruct t; unfold delete_history, set_object_ref, set_current_object,
    set_object_state; cbn [transaction object_state current_object object_ref
    object_refs_added pack_object temp_pack_visit]; f_equal;
    apply delete_where_id; intros r _; reflexivity.
Qed.

Lemma pack_delete_loop_nothing (d : db) :
  pack_object d = [] -> snd (pack_delete_loop d) = d.
Proof.
  intros H. rewrite pack_delete_loop_unfold. cbn [snd].
  rewrite (delete_not_kept_nothing T_object_ref d H).
  rewrite (delete_history_nothing T_object_ref d H).
  rewrite (delete_not_kept_nothing T_current_object d H).
  rewrite (delete_not_kept_nothing T_object_state d H).
  apply (delete_history_nothing T_object_state d H).
Qed.

(** Where nothing is left to do, [pack] changes nothing. *)
Lemma pack_nothing_to_do (pack_tid : Z) (d : db) :
  packed_upto pack_tid d -> pack pack_tid d = (Exn.Ok tt, d).
Proof.
  intros [Hpo [Hprev [Hadded Htx]]].
  rewrite pack_unfold, (pack_delete_loop_nothing d Hpo). f_equal.
  assert (E1 : terminate_prev_tid pack_tid d = d).
  { unfold terminate_prev_tid.
    rewrite update_where_id.
    - now destruct d.
    - intros s Hs Hc. apply andb_true_iff in Hc. destruct Hc as [Hle Hnz].
      apply Z.leb_le in Hle. apply negb_true_iff, Z.eqb_neq in Hnz.
      exfalso. apply Hnz. now apply Hprev. }
  rewrite E1.
  assert (E2 : delete_object_refs_added pack_tid d = d).
  { unfold delete_object_refs_added.
    rewrite delete_where_id.
    - now destruct d.
    - intros t Ht.
      destruct (Z.ltb_spec 0 t) as [H0 | H0]; [| reflexivity].
      destruct (Z.leb_spec t pack_tid) as [Hle | Hle]; [| reflexivity].
      cbn [andb]. apply no_object_state_false. now apply Hadded. }
  rewrite E2.
  assert (E3 : delete_transaction pack_tid d = d).
  { unfold delete_transaction.
    rewrite delete_where_id.
    - now destruct d.
    - intros r Hr.
      destruct (Z.ltb_spec 0 (tx_tid r)) as [H0 | H0]; [| reflexivity].
      destruct (Z.leb_spec (tx_tid r) pack_tid) as [Hle | Hle];
        [| reflexivity].
      cbn [andb]. apply no_object_state_false. now apply Htx. }
  rewrite E3.
  assert (E4 : mark_packed pack_tid d = d).
  { unfold mark_packed.
    rewrite update_where_id.
    - now destruct d.
    - intros r Hr Hc. apply andb_true_iff in Hc. destruct Hc as [Hc Hp].
      apply andb_true_iff in Hc. destruct Hc as [H0 Hle].
      apply Z.ltb_lt in H0. apply Z.leb_le in Hle.
      apply set_packed_packed. now apply Htx. }
  rewrite E4. unfold delete_pack_object. rewrite <- Hpo. now destruct d.
Qed.

(** After [pack], nothing is left to do up to the same [pack_tid]. *)
Lemma pack_reaches_packed_upto (pack_tid : Z) (d : db) :
  packed_upto pack_tid (snd (pack pack_tid d)).
Proof.
  destruct (pack_transaction_rows pack_tid d) as [Htx _].
  pose proof (pack_object_refs_added_rows pack_tid d) as Hadded.
  cbv zeta in Htx, Hadded.
  split; [reflexivity |]. split; [| split].
  - rewrite pack_unfold. cbn [snd].
    cbn [object_state delete_pack_object set_pack_object mark_packed
         set_transaction delete_transaction delete_object_refs_added
         set_object_refs_added terminate_prev_tid set_object_state].
    intros s' Hs' Hle. apply update_where_In in Hs'.
    destruct Hs' as [s [_ E]]. subst s'.
    destruct (Z.leb_spec (os_tid s) pack_tid) as [Hl | Hl];
      destruct (Z.eqb_spec (os_prev_tid s) 0) as [Hz | Hz];
      cbn [andb negb] in *; simpl in *; try reflexivity; try assumption; lia.
  - intros t Ht H0 Hle. apply Hadded in Ht. now apply Ht.
  - intros r Hr H0 Hle. destruct (Htx r Hr H0 Hle). auto.
Qed.

(** X4: [pack] is idempotent: packing again at the same [pack_tid], with
    the work table left empty by the first run, changes nothing. *)
Theorem pack_idempotent (pack_tid : Z) (d : db) :
  pack pack_tid (snd (pack pack_tid d)) =
  (Exn.Ok tt, snd (pack pack_tid d)).
Proof.
  apply pack_nothing_to_do, pack_reaches_packed_upto.
Qed.

(* ================================================================== *)
(** * [pre_pack] without GC, then [pack] *)
(* ================================================================== *)

Lemma delete_loop_object_state_In (d : db) (r : object_state_row) :
  In r (object_state (snd (pack_delete_loop d))) <->
  In r (object_state d) /\ not_kept d (os_zoid r) = false /\
  before_keep_tid d (os_zoid r) (os_tid r) = false.
Proof.
  rewrite pack_delete_loop_unfold.
  cbn [snd delete_history delete_not_kept object_state set_object_ref
       set_object_state set_current_object].
  rewrite !delete_where_In. tauto.
Qed.

Lemma delete_loop_current_object (d : db) :
  current_object (snd (pack_delete_loop d)) =
  delete_where (fun r => not_kept d (co_zoid r)) (current_object d).
Proof. reflexivity. Qed.

Lemma terminate_prev_tid_later (pack_tid : Z) (d : db) (r : object_state_row) :
  In r (object_state d) -> pack_tid < os_tid r ->
  In r (object_state (terminate_prev_tid pack_tid d)).
Proof.
  intros Hr Hlt. unfold terminate_prev_tid.
  cbn [object_state set_object_state]. apply update_where_In.
  exists r. split; [assumption |].
  assert (E : (os_tid r <=? pack_tid) = false) by (apply Z.leb_gt; lia).
  now rewrite E.
Qed.

Lemma pre_pack_without_gc_unfold (get_references : string -> string + list Z)
    (pack_tid : Z) (d : db) :
  pre_pack get_references pack_tid false d =
  (Exn.Ok tt, snd (_pre_pack_without_gc pack_tid d)).
Proof. reflexivity. Qed.

(** X5: with [gc] false, "at least one revision of every object is kept":
    after [pre_pack(pack_tid, gc=False)] and [pack(pack_tid)], every
    object that had a revision still has one, [current_object] is what it
    was, and every revision later than [pack_tid] is still there,
    unchanged. *)
Theorem pack_without_gc_keeps_objects
    (get_references : string -> string + list Z) (pack_tid : Z) (d : db) :
  let d' := snd (pre_pack get_references pack_tid false d) in
  let d2 := snd (pack pack_tid d') in
  current_object d2 = current_object d /\
  (forall r, In r (object_state d) ->
     exists r', In r' (object_state d2) /\ os_zoid r' = os_zoid r) /\
  (forall r, In r (object_state d) -> pack_tid < os_tid r ->
     In r (object_state d2)).
Proof.
  intros d' d2. subst d' d2. rewrite pre_pack_without_gc_unfold. cbn [snd].
  set (d' := snd (_pre_pack_without_gc pack_tid d)).
  assert (Hrows := pre_pack_without_gc_rows pack_tid d). fold d' in Hrows.
  assert (Hos : object_state d' = object_state d) by reflexivity.
  assert (Hco : current_object d' = current_object d) by reflexivity.
  assert (Hkey : NoDup (map po_zoid (pack_object d'))).
  { rewrite Hrows, map_map. cbn [po_zoid]. rewrite map_id.
    apply distinct_NoDup. }
  assert (Hlive : forall z, not_kept d' z = false).
  { intros z. apply not_kept_false_iff. intros [p [Hp [_ Hk]]].
    rewrite Hrows in Hp. apply in_map_iff in Hp.
    destruct Hp as [z' [<- _]]. discriminate Hk. }
  assert (Hcut : forall z t, before_keep_tid d' z t = true ->
     exists r0, In r0 (object_state d) /\ os_zoid r0 = z /\ t < os_tid r0 /\
                os_tid r0 <= pack_tid /\
                before_keep_tid d' z (os_tid r0) = false).
  { intros z t H. apply (before_keep_tid_iff d' z t Hkey) in H.
    destruct H as [p [k [Hp [Hz [_ [Hk Hlt]]]]]].
    pose proof Hp as Hp'. rewrite Hrows in Hp'. apply in_map_iff in Hp'.
    destruct Hp' as [z' [E _]].
    assert (Hsel : select_keep_tid pack_tid z d = Some k).
    { subst p. simpl in Hz, Hk. now subst z'. }
    apply select_keep_tid_some in Hsel.
    destruct Hsel as [[r0 [Hr0 [Hz0 [Ht0 [_ Hle0]]]]] _].
    exists r0. repeat split; try assumption; try lia.
    apply (before_keep_tid_false_iff d' _ _ Hkey).
    intros [q [k' [Hq [Hzq [_ [Hk' Hlt']]]]]].
    assert (q = p) by (apply (row_by_key _ _ _ Hkey Hq Hp); congruence).
    subst q. rewrite Hk in Hk'. injection Hk' as <-. lia. }
  assert (Hd2 : object_state (snd (pack pack_tid d')) =
                object_state (terminate_prev_tid pack_tid
                                (snd (pack_delete_loop d'))))
    by reflexivity.
  split; [| split].
  - change (current_object (snd (pack pack_tid d')))
      with (current_object (snd (pack_delete_loop d'))).
    rewrite delete_loop_current_object, Hco.
    apply delete_where_id. intros r _. apply Hlive.
  - intros r Hr.
    assert (Hsurv : exists r1, In r1 (object_state (snd (pack_delete_loop d')))
                               /\ os_zoid r1 = os_zoid r).
    { destruct (before_keep_tid d' (os_zoid r) (os_tid r)) eqn:E.
      - destruct (Hcut _ _ E) as [r0 [Hr0 [Hz0 [_ [_ Hkeep0]]]]].
        exists r0. split; [| exact Hz0].
        apply delete_loop_object_state_In. rewrite Hos, Hz0. auto.
      - exists r. split; [| reflexivity].
        apply delete_loop_object_state_In. rewrite Hos. auto. }
    destruct Hsurv as [r1 [Hr1 Hz1]].
    destruct (terminate_prev_tid_keeps pack_tid _ r1 Hr1)
      as [r' [Hr' [Hz' _]]].
    exists r'. rewrite Hd2. split; [exact Hr' | congruence].
  - intros r Hr Hlt. rewrite Hd2.
    apply terminate_prev_tid_later; [| exact Hlt].
    apply delete_loop_object_state_In. rewrite Hos.
    split; [exact Hr |]. split; [apply Hlive |].
    destruct (before_keep_tid d' (os_zoid r) (os_tid r)) eqn:E;
      [| reflexivity].
    destruct (Hcut _ _ E) as [r0 [_ [_ [Hlt0 [Hle0 _]]]]]. lia.
Qed.

(** The back-link step and the deletions keep the key of [object_state]. *)
Lemma terminate_prev_tid_keys (pack_tid : Z) (d : db) :
  map os_key (object_state (terminate_prev_tid pack_tid d)) =
  map os_key (object_state d).
Proof.
  unfold terminate_prev_tid, update_where.
  cbn [object_state set_object_state]. rewrite map_map.
  apply map_ext. intros r. destruct (_ && _); reflexivity.
Qed.

Lemma pack_object_state_key (pack_tid : Z) (d : db) :
  NoDup (map os_key (object_state d)) ->
  NoDup (map os_key (object_state (snd (pack pack_tid d)))).
Proof.
  intros Hn.
  change (object_state (snd (pack pack_tid d)))
    with (object_state (terminate_prev_tid pack_tid
                          (snd (pack_delete_loop d)))).
  rewrite terminate_prev_tid_keys, pack_delete_loop_unfold.
  cbn [snd delete_history delete_not_kept object_state set_object_ref
       set_object_state set_current_object].
  unfold delete_where. now do 2 apply NoDup_map_filter.
Qed.

(** Under the key [(zoid, tid)], the revisions of one object are distinct. *)
Lemma revisions_NoDup (d : db) (zoid : Z) :
  NoDup (map os_key (object_state d)) -> NoDup (revisions d zoid).
Proof.
  unfold revisions. intros Hn.
  apply (NoDup_map_filter os_key (fun r => os_zoid r =? zoid)) in Hn.
  assert (Hz : forall r,
            In r (filter (fun r => os_zoid r =? zoid) (object_state d)) ->
            os_zoid r = zoid).
  { intros r Hr. apply filter_In in Hr. now apply Z.eqb_eq. }
  induction (filter (fun r => os_zoid r =? zoid) (object_state d))
    as [| a l IH]; simpl; [constructor |].
  simpl in Hn. inversion Hn as [| ? ? Hnot Hn']; subst.
  constructor.
  - intros Hin. apply Hnot. apply in_map_iff in Hin.
    destruct Hin as [b [Eb Hb]]. apply in_map_iff. exists b.
    split; [| exact Hb]. unfold os_key.
    rewrite Eb, (Hz a), (Hz b); simpl; auto.
  - apply IH; [exact Hn' |]. intros r Hr. apply Hz. now right.
Qed.

Lemma revisions_In (d : db) (zoid t : Z) :
  In t (revisions d zoid) <->
  exists r, In r (object_state d) /\ os_zoid r = zoid /\ os_tid r = t.
Proof.
  unfold revisions. rewrite in_map_iff. split.
  - intros [r [Et Hr]]. apply filter_In in Hr. destruct Hr as [Hr Hz].
    apply Z.eqb_eq in Hz. exists r. auto.
  - intros [r [Hr [Hz Et]]]. exists r. split; [exact Et |].
    apply filter_In. split; [exact Hr | now apply Z.eqb_eq].
Qed.

(** A list without repetition whose only possible member is [k]. *)
Lemma NoDup_singleton (l : list Z) (k : Z) :
  NoDup l -> (forall t, In t l <-> t = k) -> l = [k].
Proof.
  intros Hn H. destruct l as [| a l].
  - exfalso. apply (proj2 (H k) eq_refl).
  - assert (a = k) by (apply H; now left). subst a.
    inversion Hn as [| ? ? Hnot _]; subst.
    destruct l as [| b l]; [reflexivity |].
    exfalso. apply Hnot.
    assert (b = k) by (apply H; right; now left). subst b. now left.
Qed.

(** C4: on a database whose revisions carry positive tids (tids [<= 0]
    are reserved and denote no transaction), [_pre_pack_without_gc] leaves
    in [pack_object] exactly one row per distinct zoid of [object_state]
    with [tid <= pack_tid], with [keep = TRUE] and with [keep_tid] the
    greatest tid of that object at or below [pack_tid].  [pack] run on the
    result then retains, of each such object's revisions at or below
    [pack_tid], exactly the one at [keep_tid]: it is the only tid left
    there, once in the table when [(zoid, tid)] is a key of
    [object_state], and every revision left is one of the database as it
    was, with its state. *)
Theorem pre_pack_without_gc_retains (pack_tid : Z) (d : db)
    (Hpos : forall r, In r (object_state d) -> 0 < os_tid r) :
  let d' := snd (_pre_pack_without_gc pack_tid d) in
  let d2 := snd (pack pack_tid d') in
  fst (_pre_pack_without_gc pack_tid d) = Exn.Ok tt /\
  fst (pack pack_tid d') = Exn.Ok tt /\
  NoDup (map po_zoid (pack_object d')) /\
  (forall z, In z (map po_zoid (pack_object d')) <->
             packable_object d pack_tid z) /\
  (forall p, In p (pack_object d') ->
     po_keep p = true /\
     exists k, po_keep_tid p = Some k /\
       greatest_revision d pack_tid (po_zoid p) k /\
       (forall t, t <= pack_tid ->
          (In t (revisions d2 (po_zoid p)) <-> t = k)) /\
       (NoDup (map os_key (object_state d)) ->
        filter (fun t => t <=? pack_tid) (revisions d2 (po_zoid p)) = [k])) /\
  (forall r', In r' (object_state d2) ->
     exists r, In r (object_state d) /\ os_zoid r' = os_zoid r /\
               os_tid r' = os_tid r /\ os_state r' = os_state r).
Proof.
  intros d' d2.
  destruct (pre_pack_without_gc_spec pack_tid d)
    as [Hok [Hos [Hkey [Hmem Hrow]]]].
  fold d' in Hos, Hkey, Hmem, Hrow.
  assert (Hd2 : object_state d2 =
                object_state (terminate_prev_tid pack_tid
                                (snd (pack_delete_loop d'))))
    by reflexivity.
  assert (Hlive : forall z, not_kept d' z = false).
  { intros z. apply not_kept_false_iff. intros [q [Hq [_ Hk]]].
    destruct (Hrow q Hq) as [Hkeep _]. congruence. }
  assert (Hin2 : forall z t,
            In t (revisions d2 z) <->
            exists r, In r (object_state d) /\ os_zoid r = z /\
                      os_tid r = t /\ before_keep_tid d' z t = false).
  { intros z t. rewrite revisions_In, Hd2. split.
    - intros [r' [Hr' [Hz Et]]].
      destruct (terminate_prev_tid_In _ _ _ Hr') as [r [Hr [Ez [Ett _]]]].
      apply delete_loop_object_state_In in Hr.
      destruct Hr as [Hr [_ Hb]]. rewrite Hos in Hr.
      exists r. split; [exact Hr |].
      split; [congruence |]. split; [congruence |].
      rewrite <- Hz, <- Et, Ez, Ett. exact Hb.
    - intros [r [Hr [Hz [Et Hb]]]].
      assert (Hs : In r (object_state (snd (pack_delete_loop d')))).
      { apply delete_loop_object_state_In. rewrite Hos, Hz, Et. auto. }
      destruct (terminate_prev_tid_keeps pack_tid _ r Hs)
        as [r' [Hr' [Ez [Ett _]]]].
      exists r'. split; [exact Hr' |]. split; congruence. }
  split; [exact Hok |]. split; [reflexivity |].
  split; [exact Hkey |]. split; [exact Hmem |]. split.
  - intros p Hp.
    destruct (Hrow p Hp) as [Hkeep [Hsome [Hnone [Hcut _]]]].
    split; [exact Hkeep |].
    assert (Hz : In (po_zoid p) (map po_zoid (pack_object d')))
      by (now apply in_map).
    apply Hmem in Hz. destruct Hz as [r0 [Hr0 [Hz0 Hle0]]].
    destruct (po_keep_tid p) as [k |] eqn:Ek.
    2:{ exfalso. apply (proj1 Hnone eq_refl). exists r0.
        repeat split; auto. }
    assert (Hnew : newest_revision d pack_tid (po_zoid p) k)
      by (now apply Hsome).
    destruct Hnew as [[rk [Hrk [Hzk [Etk [Hposk Hlek]]]]] Hmax].
    assert (Hone : forall t, t <= pack_tid ->
              (In t (revisions d2 (po_zoid p)) <-> t = k)).
    { intros t Hle. rewrite Hin2. split.
      - intros [r [Hr [Hz [Et Hb]]]].
        rewrite <- Et. rewrite <- Hz, <- Et in Hb.
        apply (Hcut k r eq_refl Hr Hz); [lia | exact Hb].
      - intros ->. exists rk. repeat split; try assumption.
        rewrite <- Hzk, <- Etk.
        apply (Hcut k rk eq_refl Hrk Hzk); [lia | exact Etk]. }
    exists k. split; [reflexivity |]. split; [| split].
    + split.
      * exists rk. repeat split; assumption.
      * intros r Hr Hz Hle. apply Hmax; auto.
    + exact Hone.
    + intros Hn. apply NoDup_singleton.
      * apply NoDup_filter. apply revisions_NoDup.
        apply pack_object_state_key.
        change (object_state d') with (object_state d). exact Hn.
      * intros t. rewrite filter_In, Z.leb_le. split.
        -- intros [Hin Hle]. now apply (Hone t Hle).
        -- intros ->. split; [| exact Hlek]. now apply (Hone k Hlek).
  - intros r' Hr'. rewrite Hd2 in Hr'.
    destruct (terminate_prev_tid_In _ _ _ Hr') as [r [Hr He]].
    apply delete_loop_object_state_In in Hr. destruct Hr as [Hr _].
    rewrite Hos in Hr. exists r. split; [exact Hr | exact He].
Qed.

(** [pre_pack_without_gc_retains] at [history_db], packed at 25: object 1,
    committed at 10, 20 and 30, is kept from 20 on, and 20 is its one
    revision left at or below 25. *)
Lemma pre_pack_without_gc_retains_witness :
  (forall r, In r (object_state Samples.history_db) -> 0 < os_tid r) /\
  pack_object (snd (_pre_pack_without_gc 25 Samples.history_db)) =
    [mk_pack_object 1 true (Some 20); mk_pack_object 2 true (Some 10)] /\
  (exists k,
     Some 20 = Some k /\
     greatest_revision Samples.history_db 25 1 k /\
     (forall t, t <= 25 ->
        (In t (revisions
                 (snd (pack 25 (snd (_pre_pack_without_gc 25
                                       Samples.history_db)))) 1)
         <-> t = k)) /\
     (NoDup (map os_key (object_state Samples.history_db)) ->
      filter (fun t => t <=? 25)
        (revisions
           (snd (pack 25 (snd (_pre_pack_without_gc 25
                                 Samples.history_db)))) 1) = [k])).
Proof.
  assert (Hpos : forall r, In r (object_state Samples.history_db) ->
                           0 < os_tid r).
  { intros r Hr. simpl in Hr.
    destruct Hr as [<- | [<- | [<- | [<- | []]]]]; simpl; lia. }
  split; [exact Hpos |]. split; [reflexivity |].
  destruct (pre_pack_without_gc_retains 25 Samples.history_db Hpos)
    as [_ [_ [_ [_ [Hrow _]]]]].
  destruct (Hrow (mk_pack_object 1 true (Some 20))) as [_ H].
  - simpl. left. reflexivity.
  - exact H.
Defined.

(* ================================================================== *)
(** * Filling [object_ref] *)
(* ================================================================== *)

Section FillRefs.
Variable get_references : string -> string + list Z.

Lemma in_map_mk_object_ref (from_oid tid : Z) (l : list Z)
    (r : object_ref_row) :
  In r (map (mk_object_ref from_oid tid) l) <->
  In (or_to_zoid r) l /\ or_zoid r = from_oid /\ or_tid r = tid.
Proof.
  rewrite in_map_iff. split.
  - intros [to [<- Hto]]. simpl. auto.
  - intros [Hto [Hz Ht]]. exists (or_to_zoid r). split; [| assumption].
    destruct r. simpl in *. now subst.
Qed.

Lemma collect_refs_ok (tid : Z) (rows : list (Z * option string)) :
  forall add_rows out,
  collect_refs get_references tid rows add_rows = Exn.Ok out ->
  forall r, In r out <->
    In r add_rows \/
    exists from_oid s l,
      In (from_oid, Some s) rows /\ s <> EmptyString /\
      get_references s = inr l /\
      In (or_to_zoid r) l /\ or_zoid r = from_oid /\ or_tid r = tid.
Proof.
  induction rows as [| [from_oid state] rows IH]; intros add_rows out; simpl.
  - intros [= <-] r. split; [auto |].
    intros [H | [f [s [l [[] _]]]]]. exact H.
  - assert (Hskip : forall st,
      (st = None \/ st = Some EmptyString) ->
      collect_refs get_references tid rows add_rows = Exn.Ok out ->
      forall r, In r out <->
        In r add_rows \/
        exists from_oid0 s l,
          ((from_oid, st) = (from_oid0, Some s) \/
           In (from_oid0, Some s) rows) /\ s <> EmptyString /\
          get_references s = inr l /\
          In (or_to_zoid r) l /\ or_zoid r = from_oid0 /\ or_tid r = tid).
    { intros st Hst E r. rewrite (IH _ _ E r). split.
      - intros [H | [f [s [l [Hin H]]]]]; [auto |].
        right. exists f, s, l. tauto.
      - intros [H | [f [s [l [[Heq | Hin] [Hne H]]]]]]; [auto | |].
        + exfalso. destruct Hst as [-> | ->]; [discriminate Heq |].
          injection Heq as _ <-. now apply Hne.
        + right. exists f, s, l. tauto. }
    destruct state as [[| c s] |].
    + apply Hskip. auto.
    + destruct (get_references (String c s)) as [tag | to_oids] eqn:Eg;
        [discriminate |].
      intros E r. rewrite (IH _ _ E r), in_app_iff, in_map_mk_object_ref.
      split.
      * intros [[H | H] | [f [s' [l [Hin H]]]]]; [auto | |].
        -- right. exists from_oid, (String c s), to_oids.
           split; [now left |]. split; [discriminate |]. tauto.
        -- right. exists f, s', l. tauto.
      * intros [H | [f [s' [l [[Heq | Hin] [Hne H]]]]]]; [auto | |].
        -- injection Heq as <- <-. rewrite Eg in H.
           destruct H as [El H]. injection El as <-. tauto.
        -- right. exists f, s', l. tauto.
    + apply Hskip. auto.
Qed.

(** What [_add_refs_for_tid] does when it succeeds. *)
Lemma add_refs_for_tid_ok (tid : Z) (d d' : db) :
  _add_refs_for_tid get_references tid d = (Exn.Ok tt, d') ->
  transaction d' = transaction d /\ object_state d' = object_state d /\
  current_object d' = current_object d /\ pack_object d' = pack_object d /\
  temp_pack_visit d' = temp_pack_visit d /\
  object_refs_added d' = object_refs_added d ++ [tid] /\
  forall r, In r (object_ref d') <->
    In r (object_ref d) \/ extracted_ref get_references d tid r.
Proof.
  unfold _add_refs_for_tid, Exn.bind, Exn.query, lift, Exn.exec, Exn.ret,
    _add_object_ref_rows.
  destruct (collect_refs get_references tid (select_states tid d) [])
    as [out | e] eqn:E; [| discriminate].
  pose proof (collect_refs_ok tid _ _ _ E) as Hout.
  assert (Hex : forall r, In r out <-> extracted_ref get_references d tid r).
  { intros r. rewrite Hout. unfold extracted_ref, select_states. split.
    - intros [[] | [f [s [l [Hin [Hne [Hg [Hto [Hz Ht]]]]]]]]].
      apply in_map_iff in Hin. destruct Hin as [s0 [Es0 Hs0]].
      apply filter_In in Hs0. destruct Hs0 as [Hs0 Htid].
      apply Z.eqb_eq in Htid. injection Es0 as <- Hst.
      exists s0, s, l. auto 10.
    - intros [s0 [s [l [Hs0 [Htid [Hst [Hne [Hg [Hto [Hz Ht]]]]]]]]]].
      right. exists (os_zoid s0), s, l. split; [| auto].
      apply in_map_iff. exists s0. split; [now rewrite Hst |].
      apply filter_In. split; [assumption | now apply Z.eqb_eq]. }
  destruct out as [| r0 out]; intros [= <-];
    cbn [transaction object_state current_object pack_object temp_pack_visit
         object_refs_added object_ref insert_object_refs_added
         set_object_refs_added set_object_ref];
    repeat (split; [reflexivity |]); intros r.
  - rewrite <- Hex. simpl. tauto.
  - rewrite in_app_iff, <- Hex. tauto.
Qed.

(** What the loop over the tids does when it succeeds. *)
Lemma for_each_add_refs_ok (tids : list Z) :
  forall d d',
  for_each tids (_add_refs_for_tid get_references) d = (Exn.Ok tt, d') ->
  transaction d' = transaction d /\ object_state d' = object_state d /\
  current_object d' = current_object d /\ pack_object d' = pack_object d /\
  temp_pack_visit d' = temp_pack_visit d /\
  object_refs_added d' = object_refs_added d ++ tids /\
  forall r, In r (object_ref d') <->
    In r (object_ref d) \/
    exists tid, In tid tids /\ extracted_ref get_references d tid r.
Proof.
  induction tids as [| t tids IH]; intros d d'; simpl.
  - unfold Exn.ret. intros [= <-]. rewrite app_nil_r.
    repeat (split; [reflexivity |]). intros r. split; [auto |].
    intros [H | [tid [[] _]]]. exact H.
  - unfold Exn.bind.
    destruct (_add_refs_for_tid get_references t d) as [[[] | e] d1] eqn:E1;
      [| discriminate].
    intros E2. apply add_refs_for_tid_ok in E1. apply IH in E2.
    destruct E1 as [A1 [A2 [A3 [A4 [A5 [A6 A7]]]]]].
    destruct E2 as [B1 [B2 [B3 [B4 [B5 [B6 B7]]]]]].
    split; [congruence |]. split; [congruence |]. split; [congruence |].
    split; [congruence |]. split; [congruence |].
    split; [rewrite B6, A6, <- app_assoc; reflexivity |].
    intros r. rewrite B7, A7.
    assert (Hsame : forall tid,
      extracted_ref get_references d1 tid r <->
      extracted_ref get_references d tid r)
      by (intros tid; unfold extracted_ref; rewrite A2; reflexivity).
    split.
    + intros [[H | H] | [tid [Hin H]]]; [auto | |].
      * right. exists t. auto.
      * right. exists tid. rewrite Hsame in H. auto.
    + intros [H | [tid [[<- | Hin] H]]]; [auto | auto |].
      right. exists tid. rewrite Hsame. auto.
Qed.

End FillRefs.

Lemma refs_not_added_iff (d : db) (t : Z) :
  refs_not_added d t = true <-> ~ In t (object_refs_added d).
Proof.
  unfold refs_not_added. rewrite negb_true_iff.
  fold (in_subquery t (object_refs_added d)). apply in_subquery_false.
Qed.

Lemma select_nonpacked_tids_In (pack_tid : Z) (d : db) (t : Z) :
  In t (select_nonpacked_tids pack_tid d) <->
  pack_tid < t /\ ~ In t (object_refs_added d) /\ has_revision d t.
Proof.
  unfold select_nonpacked_tids, has_revision.
  rewrite distinct_In, in_map_iff. split.
  - intros [s [<- Hs]]. apply filter_In in Hs. destruct Hs as [Hs Hc].
    apply andb_true_iff in Hc. destruct Hc as [Hlt Hna].
    apply Z.ltb_lt in Hlt. apply refs_not_added_iff in Hna. eauto.
  - intros [Hlt [Hna [s [Hs <-]]]]. exists s. split; [reflexivity |].
    apply filter_In. split; [assumption |].
    apply andb_true_iff. split;
      [now apply Z.ltb_lt | now apply refs_not_added_iff].
Qed.

Lemma extracted_ref_facts (get_references : string -> string + list Z)
    (d : db) (tid : Z) (r : object_ref_row) :
  extracted_ref get_references d tid r ->
  or_tid r = tid /\ has_revision d tid.
Proof.
  intros [s0 [s [l [Hs0 [Ht [_ [_ [_ [_ [_ Hr]]]]]]]]]].
  split; [exact Hr | exists s0; auto].
Qed.

(** X7: when [_add_refs_for_tid(tid)] succeeds, [object_ref] has gained
    exactly the rows [(zoid, tid, to_zoid)] for the revisions made by
    [tid] whose state is neither NULL nor empty and the oids
    [get_references] finds in it, [tid] has been appended to
    [object_refs_added], and nothing else has changed. *)
Theorem add_refs_for_tid_effect (get_references : string -> string + list Z)
    (tid : Z) (d d' : db)
    (Hok : _add_refs_for_tid get_references tid d = (Exn.Ok tt, d')) :
  transaction d' = transaction d /\ object_state d' = object_state d /\
  current_object d' = current_object d /\ pack_object d' = pack_object d /\
  temp_pack_visit d' = temp_pack_visit d /\
  object_refs_added d' = object_refs_added d ++ [tid] /\
  forall r, In r (object_ref d') <->
    In r (object_ref d) \/ extracted_ref get_references d tid r.
Proof. exact (add_refs_for_tid_ok get_references tid d d' Hok). Qed.

(** [add_refs_for_tid_effect] at tid 10 of [chain_db]. *)
Lemma add_refs_for_tid_effect_witness :
  object_refs_added
    (snd (_add_refs_for_tid Samples.refs 10 Samples.chain_db)) = [10].
Proof.
  destruct (add_refs_for_tid_effect Samples.refs 10 Samples.chain_db
              (snd (_add_refs_for_tid Samples.refs 10 Samples.chain_db))
              eq_refl) as [_ [_ [_ [_ [_ [H _]]]]]].
  exact H.
Defined.

Lemma fill_nonpacked_refs_ok (get_references : string -> string + list Z)
    (pack_tid : Z) (d d' : db) :
  _fill_nonpacked_refs get_references pack_tid d = (Exn.Ok tt, d') ->
  (transaction d' = transaction d /\ object_state d' = object_state d /\
   current_object d' = current_object d /\ pack_object d' = pack_object d) /\
  (forall t, In t (object_refs_added d') <->
     In t (object_refs_added d) \/ (pack_tid < t /\ has_revision d t)) /\
  (NoDup (object_refs_added d) -> NoDup (object_refs_added d')) /\
  (forall r, In r (object_ref d') <->
     In r (object_ref d) \/
     (pack_tid < or_tid r /\ ~ In (or_tid r) (object_refs_added d) /\
      extracted_ref get_references d (or_tid r) r)).
Proof.
  unfold _fill_nonpacked_refs, Exn.bind, Exn.query. intros H.
  apply for_each_add_refs_ok in H.
  destruct H as [A1 [A2 [A3 [A4 [_ [A6 A7]]]]]].
  split; [auto |]. split; [| split].
  - intros t. rewrite A6, in_app_iff, select_nonpacked_tids_In.
    destruct (in_dec Z.eq_dec t (object_refs_added d)); tauto.
  - intros Hn. rewrite A6. apply NoDup_app.
    + exact Hn.
    + apply distinct_NoDup.
    + intros t Ht1 Ht2. apply select_nonpacked_tids_In in Ht2. tauto.
  - intros r. rewrite A7. split.
    + intros [H | [tid [Hin H]]]; [auto |].
      right. apply select_nonpacked_tids_In in Hin.
      destruct (extracted_ref_facts _ _ _ _ H) as [E _]. rewrite E. tauto.
    + intros [H | [Hlt [Hna H]]]; [auto |].
      right. exists (or_tid r). split; [| exact H].
      apply select_nonpacked_tids_In.
      destruct (extracted_ref_facts _ _ _ _ H) as [_ Hrev]. auto.
Qed.

(** X8: when [_fill_nonpacked_refs(pack_tid)] succeeds, every tid beyond
    [pack_tid] that has a revision is recorded in [object_refs_added], no
    tid is recorded twice if none was, and [object_ref] has gained exactly
    the references extracted for the tids beyond [pack_tid] that were not
    recorded before; the other tables are left as they were. *)
Theorem fill_nonpacked_refs_effect
    (get_references : string -> string + list Z)
    (pack_tid : Z) (d d' : db)
    (Hok : _fill_nonpacked_refs get_references pack_tid d = (Exn.Ok tt, d')) :
  (transaction d' = transaction d /\ object_state d' = object_state d /\
   current_object d' = current_object d /\ pack_object d' = pack_object d) /\
  (forall t, In t (object_refs_added d') <->
     In t (object_refs_added d) \/ (pack_tid < t /\ has_revision d t)) /\
  (NoDup (object_refs_added d) -> NoDup (object_refs_added d')) /\
  (forall r, In r (object_ref d') <->
     In r (object_ref d) \/
     (pack_tid < or_tid r /\ ~ In (or_tid r) (object_refs_added d) /\
      extracted_ref get_references d (or_tid r) r)).
Proof. exact (fill_nonpacked_refs_ok get_references pack_tid d d' Hok). Qed.

(** [fill_nonpacked_refs_effect] at [chain_db], packing at 5. *)
Lemma fill_nonpacked_refs_effect_witness :
  object_state (snd (_fill_nonpacked_refs Samples.refs 5 Samples.chain_db)) =
  object_state Samples.chain_db.
Proof.
  destruct (fill_nonpacked_refs_effect Samples.refs 5 Samples.chain_db
              (snd (_fill_nonpacked_refs Samples.refs 5 Samples.chain_db))
              eq_refl) as [[_ [H _]] _].
  exact H.
Defined.

(* ================================================================== *)
(** * [_pre_pack_with_gc]: what the closure loop computes *)
(* ================================================================== *)

Lemma select_keep_tid_ext (pack_tid z : Z) (d d' : db) :
  object_state d' = object_state d ->
  select_keep_tid pack_tid z d' = select_keep_tid pack_tid z d.
Proof. intros H. unfold select_keep_tid. now rewrite H. Qed.

Lemma select_keep_tid_le (pack_tid z k : Z) (d : db) :
  select_keep_tid pack_tid z d = Some k -> k <= pack_tid.
Proof.
  intros H. apply select_keep_tid_some in H.
  destruct H as [[r [_ [_ [_ [_ Hle]]]]] _]. exact Hle.
Qed.

Lemma Forall2_map_right {A : Type} (R : A -> A -> Prop) (h : A -> A)
    (l : list A) :
  (forall x, R x (h x)) -> Forall2 R l (map h l).
Proof.
  intros H. induction l as [| x l IH]; simpl; constructor; auto.
Qed.

Lemma Forall2_In_right {A : Type} (R : A -> A -> Prop) (l l' : list A)
    (y : A) :
  Forall2 R l l' -> In y l' -> exists x, In x l /\ R x y.
Proof.
  induction 1 as [| x y' l l' Hxy _ IH]; intros Hin; [destruct Hin |].
  destruct Hin as [<- | Hin].
  - exists x. split; [now left | exact Hxy].
  - destruct (IH Hin) as [x' [Hx' Hr]]. exists x'. split; [now right | exact Hr].
Qed.

Lemma Forall2_keeps_on_trans (l1 l2 l3 : list pack_object_row) :
  Forall2 keeps_on l1 l2 -> Forall2 keeps_on l2 l3 -> Forall2 keeps_on l1 l3.
Proof.
  intros H. revert l3. induction H as [| x y l1 l2 Hxy _ IH]; intros l3 H';
    inversion H' as [| ? z ? l3' Hyz H'']; subst; constructor.
  - destruct Hxy as [A1 A2]. destruct Hyz as [B1 B2].
    split; [congruence | auto].
  - now apply IH.
Qed.

Lemma Forall2_keeps_on_zoids (l l' : list pack_object_row) :
  Forall2 keeps_on l l' -> map po_zoid l' = map po_zoid l.
Proof.
  induction 1 as [| x y l l' [Hz _] _ IH]; simpl; [reflexivity |].
  now rewrite Hz, IH.
Qed.

Lemma is_child_iff (d : db) (q : pack_object_row) :
  is_child d q = true <->
  po_keep q = false /\
  exists r, In r (object_ref d) /\ In (or_zoid r) (temp_pack_visit d) /\
            or_to_zoid r = po_zoid q.
Proof.
  unfold is_child, select_visited_children.
  rewrite andb_true_iff, negb_true_iff, in_subquery_In, distinct_In,
    in_flat_map.
  split.
  - intros [Hk [r [Hr Hin]]]. split; [exact Hk |].
    apply in_map_iff in Hin. destruct Hin as [z [Hz Hin]].
    apply filter_In in Hin. destruct Hin as [Hin E].
    apply Z.eqb_eq in E. exists r. subst z. auto.
  - intros [Hk [r [Hr [Hin E]]]]. split; [exact Hk |].
    exists r. split; [exact Hr |]. apply in_map_iff.
    exists (or_zoid r). split; [now symmetry |].
    apply filter_In. split; [exact Hin | apply Z.eqb_refl].
Qed.

Lemma keep_tids_In (l : list pack_object_row) (t : Z) :
  In t (keep_tids l) <-> exists p, In p l /\ po_keep_tid p = Some t.
Proof.
  unfold keep_tids. rewrite in_flat_map. split.
  - intros [p [Hp Hin]]. exists p. split; [exact Hp |].
    destruct (po_keep_tid p) as [k |]; [| destruct Hin].
    destruct Hin as [<- | []]. reflexivity.
  - intros [p [Hp E]]. exists p. split; [exact Hp |]. rewrite E. now left.
Qed.

Lemma select_pack_object_tids_In (d : db) (t : Z) :
  In t (select_pack_object_tids d) <->
  ~ In t (object_refs_added d) /\
  exists p, In p (pack_object d) /\ po_keep_tid p = Some t.
Proof.
  unfold select_pack_object_tids.
  rewrite distinct_In, filter_In, keep_tids_In, refs_not_added_iff. tauto.
Qed.

Lemma rowcount_zero {R : Type} (c : R -> bool) (l : list R) (x : R) :
  rowcount c l = O -> In x l -> c x = false.
Proof.
  unfold rowcount. intros H Hx. destruct (c x) eqn:E; [| reflexivity].
  assert (Hin : In x (filter c l)) by (apply filter_In; auto).
  destruct (filter c l); [destruct Hin | discriminate H].
Qed.

Section ClosureResult.
Variable get_references : string -> string + list Z.
Variable pack_tid : Z.

(** One pass of the loop body, table by table. *)
Lemma closure_step_parts (d d3 : db) (n : nat) :
  closure_step get_references pack_tid d = (Exn.Ok n, d3) ->
  exists d2,
    pack_object d2 =
      update_where (fun p => po_keep p && is_null (po_keep_tid p))
        (fun p => set_keep_tid (select_keep_tid pack_tid (po_zoid p) d) p)
        (pack_object d) /\
    temp_pack_visit d2 =
      map po_zoid (filter (fun p => po_keep p && is_null (po_keep_tid p))
                          (pack_object d)) /\
    object_state d2 = object_state d /\
    current_object d2 = current_object d /\
    (forall t, In t (object_refs_added d2) <->
       In t (object_refs_added d) \/
       exists p, In p (pack_object d2) /\ po_keep_tid p = Some t) /\
    (forall r, In r (object_ref d) -> In r (object_ref d2)) /\
    (forall r, In r (object_ref d2) ->
       In r (object_ref d) \/
       (~ In (or_tid r) (object_refs_added d) /\
        exists p, In p (pack_object d2) /\ po_keep_tid p = Some (or_tid r))) /\
    n = rowcount (is_child d2) (pack_object d2) /\
    d3 = set_pack_object
           (update_where (is_child d2) (set_keep true) (pack_object d2)) d2.
Proof.
  unfold closure_step, Exn.bind.
  change (visit_script pack_tid d)
    with (Exn.Ok tt,
          update_new_keep_tid pack_tid
            (insert_temp_pack_visit (set_temp_pack_visit [] d))).
  set (d1 := update_new_keep_tid pack_tid _).
  unfold _fill_pack_object_refs, Exn.bind, Exn.query.
  destruct (for_each (select_pack_object_tids d1)
              (_add_refs_for_tid get_references) d1) as [[[] | e] d2] eqn:E;
    [| discriminate].
  apply for_each_add_refs_ok in E.
  destruct E as [_ [A2 [A3 [A4 [A5 [A6 A7]]]]]].
  unfold keep_children. intros [= <- <-].
  exists d2. rewrite A4, A5, A2, A3.
  split; [reflexivity |]. split; [reflexivity |].
  split; [reflexivity |]. split; [reflexivity |].
  split; [| split; [| split; [| split; reflexivity]]].
  - intros t. rewrite A6, in_app_iff, select_pack_object_tids_In.
    change (object_refs_added d1) with (object_refs_added d).
    destruct (in_dec Z.eq_dec t (object_refs_added d)); tauto.
  - intros r Hr. apply A7. now left.
  - intros r Hr. apply A7 in Hr. destruct Hr as [Hr | [tid [Hin Hex]]];
      [now left |].
    right. apply select_pack_object_tids_In in Hin.
    destruct (extracted_ref_facts _ _ _ _ Hex) as [Et _]. rewrite Et.
    exact Hin.
Qed.

Lemma closure_step_invariant (d d3 : db) (n : nat) :
  closure_step get_references pack_tid d = (Exn.Ok n, d3) ->
  keep_tid_sound pack_tid d ->
  keep_tid_sound pack_tid d3 /\ closure_frame pack_tid d d3 /\
  (n = O -> keep_tids_set pack_tid d3 /\ closed_under_refs d3).
Proof.
  intros Hstep J.
  destruct (closure_step_parts d d3 n Hstep)
    as [d2 [Hpo [Htv [Hos [Hco [Hora [Hsub [Hnew [Hn Hd3]]]]]]]]].
  set (cnull := fun p => po_keep p && is_null (po_keep_tid p)) in *.
  set (upd := fun p => set_keep_tid (select_keep_tid pack_tid (po_zoid p) d) p)
    in *.
  (* rows of d2, traced back to d *)
  assert (Hrow2 : forall p2, In p2 (pack_object d2) ->
    exists p, In p (pack_object d) /\ po_zoid p2 = po_zoid p /\
      po_keep p2 = po_keep p /\
      ((cnull p = true /\ po_keep p = true /\ po_keep_tid p = None /\
        po_keep_tid p2 = select_keep_tid pack_tid (po_zoid p) d) \/
       (cnull p = false /\ p2 = p))).
  { intros p2 Hp2. rewrite Hpo in Hp2. apply update_where_In in Hp2.
    destruct Hp2 as [p [Hp E]]. exists p. split; [exact Hp |].
    destruct (cnull p) eqn:Ec; subst p2.
    - unfold cnull in Ec. apply andb_true_iff in Ec. destruct Ec as [Ek En].
      destruct (po_keep_tid p) eqn:Et; [discriminate En |].
      unfold upd. simpl. split; [reflexivity |]. split; [reflexivity |].
      left. unfold cnull. rewrite Ek. simpl. auto.
    - auto. }
  (* rows of d3, traced back to d2 *)
  assert (Hrow3 : forall p3, In p3 (pack_object d3) ->
    exists p2, In p2 (pack_object d2) /\ po_zoid p3 = po_zoid p2 /\
      po_keep_tid p3 = po_keep_tid p2 /\
      (po_keep p2 = true -> p3 = p2) /\
      (po_keep p3 = false -> p3 = p2 /\ is_child d2 p2 = false)).
  { intros p3 Hp3. rewrite Hd3 in Hp3. cbn [pack_object set_pack_object] in Hp3.
    apply update_where_In in Hp3. destruct Hp3 as [p2 [Hp2 E]].
    exists p2. split; [exact Hp2 |].
    destruct (is_child d2 p2) eqn:Ec; subst p3; simpl.
    - apply is_child_iff in Ec. destruct Ec as [Ek _].
      repeat split; try reflexivity; intros; congruence.
    - repeat split; reflexivity. }
  assert (Hvisited : forall p, In p (pack_object d) -> cnull p = true ->
    In (po_zoid p) (temp_pack_visit d2)).
  { intros p Hp Hc. rewrite Htv. apply in_map. apply filter_In. auto. }
  assert (Hkept3 : forall q r, In q (pack_object d3) -> In r (object_ref d2) ->
    In (or_zoid r) (temp_pack_visit d2) -> po_zoid q = or_to_zoid r ->
    po_keep q = true).
  { intros q r Hq Hr Hv Hz. destruct (po_keep q) eqn:Ek; [reflexivity |].
    destruct (Hrow3 q Hq) as [q2 [Hq2 [_ [_ [_ Hdead]]]]].
    destruct (Hdead Ek) as [-> Hnc].
    assert (Hc : is_child d2 q2 = true)
      by (apply is_child_iff; split; [exact Ek | exists r; auto]).
    congruence. }
  assert (Hos3 : object_state d3 = object_state d) by (subst d3; exact Hos).
  assert (Href3 : object_ref d3 = object_ref d2) by (subst d3; reflexivity).
  assert (Hora3 : object_refs_added d3 = object_refs_added d2)
    by (subst d3; reflexivity).
  assert (Hmono : forall q, In q (pack_object d3) ->
    exists q0, In q0 (pack_object d) /\ po_zoid q = po_zoid q0 /\
               (po_keep q0 = true -> po_keep q = true)).
  { intros q Hq. destruct (Hrow3 q Hq) as [q2 [Hq2 [Hz3 [_ [Hk3 _]]]]].
    destruct (Hrow2 q2 Hq2) as [q0 [Hq0 [Hz2 [Hk2 _]]]].
    exists q0. split; [exact Hq0 |]. split; [congruence |].
    intros Hk. rewrite <- Hk2 in Hk. rewrite (Hk3 Hk). exact Hk. }
  assert (J3 : keep_tid_sound pack_tid d3).
  { intros p3 k Hp3 Hk.
    destruct (Hrow3 p3 Hp3) as [p2 [Hp2 [Hz3 [Ht3 [Hk3 _]]]]].
    destruct (Hrow2 p2 Hp2) as [p [Hp [Hz2 [Hk2 Hcase]]]].
    rewrite Ht3 in Hk.
    destruct Hcase as [[Hc [Hkp [Htp Hsel]]] | [Hc ->]].
    - assert (Ekeep2 : po_keep p2 = true) by congruence.
      rewrite (Hk3 Ekeep2) in *.
      split; [exact Ekeep2 |].
      split; [rewrite (select_keep_tid_ext _ _ _ _ Hos3); congruence |].
      split; [rewrite Hora3; apply Hora; right; exists p2; auto |].
      intros r q Hr Hq Hzr _ Hzq. rewrite Href3 in Hr.
      apply (Hkept3 q r Hq Hr); [| exact Hzq].
      rewrite Hzr, Hz2. now apply Hvisited.
    - destruct (J p k Hp Hk) as [Ekeep [Esel [Eora Eref]]].
      rewrite (Hk3 Ekeep) in *.
      split; [exact Ekeep |].
      split; [rewrite (select_keep_tid_ext _ _ _ _ Hos3); exact Esel |].
      split; [rewrite Hora3; apply Hora; now left |].
      intros r q Hr Hq Hzr Htr Hzq. rewrite Href3 in Hr.
      destruct (Hnew r Hr) as [Hold | [Hna _]].
      + destruct (Hmono q Hq) as [q0 [Hq0 [Hzq0 Hkq]]].
        apply Hkq. apply (Eref r q0 Hold Hq0 Hzr Htr). congruence.
      + exfalso. apply Hna. now rewrite Htr. }
  split; [exact J3 |]. split.
  - split; [exact Hos3 |]. split; [subst d3; exact Hco |].
    split; [| split].
    + subst d3. cbn [pack_object set_pack_object]. rewrite Hpo.
      unfold update_where. rewrite map_map.
      apply Forall2_map_right. intros x. unfold keeps_on.
      destruct (cnull x); destruct (is_child d2 _); simpl; auto.
    + intros r Hr. rewrite Href3. now apply Hsub.
    + intros r Hr. rewrite Href3 in Hr.
      destruct (Hnew r Hr) as [Hold | [_ [p2 [Hp2 Hk2]]]]; [now left |].
      right. destruct (Hrow2 p2 Hp2) as [p [Hp [_ [_ Hcase]]]].
      destruct Hcase as [[_ [_ [_ Hsel]]] | [_ ->]].
      * apply (select_keep_tid_le pack_tid (po_zoid p) _ d). congruence.
      * destruct (J p _ Hp Hk2) as [_ [Esel _]].
        apply (select_keep_tid_le pack_tid (po_zoid p) _ d). exact Esel.
  - intros ->. symmetry in Hn.
    assert (Hpo3 : pack_object d3 = pack_object d2).
    { subst d3. cbn [pack_object set_pack_object].
      now apply update_where_none. }
    split.
    + intros p3 Hp3. rewrite (select_keep_tid_ext _ _ _ _ Hos3).
      rewrite Hpo3 in Hp3.
      destruct (Hrow2 p3 Hp3) as [p [Hp [Hz [Hk Hcase]]]].
      destruct Hcase as [[_ [Hkp [_ Hsel]]] | [Hc ->]].
      * rewrite Hk, Hkp, Hz. exact Hsel.
      * destruct (po_keep_tid p) as [k |] eqn:Et.
        -- destruct (J p k Hp Et) as [Ekeep [Esel _]]. rewrite Ekeep.
           now symmetry.
        -- destruct (po_keep p) eqn:Ek; [| reflexivity].
           unfold cnull in Hc. rewrite Ek, Et in Hc. discriminate Hc.
    + intros p q r Hp Hq Hr Hkeep Hzr Htid Hzq.
      destruct Htid as [Hnone | Hsome].
      * rewrite Hpo3 in Hp.
        destruct (Hrow2 p Hp) as [p0 [Hp0 [Hz [Hk Hcase]]]].
        assert (Hc : cnull p0 = true).
        { destruct Hcase as [[Hc _] | [Hc ->]]; [exact Hc |].
          unfold cnull in Hc. rewrite Hkeep, Hnone in Hc. discriminate Hc. }
        rewrite Href3 in Hr. apply (Hkept3 q r Hq Hr); [| exact Hzq].
        rewrite Hzr, Hz. now apply Hvisited.
      * destruct (J3 p _ Hp Hsome) as [_ [_ [_ Eref]]].
        now apply (Eref r q).
Qed.

End ClosureResult.

Lemma closure_frame_refl (pack_tid : Z) (d : db) : closure_frame pack_tid d d.
Proof.
  repeat split; auto.
  rewrite <- (map_id (pack_object d)) at 2.
  apply Forall2_map_right. intros x. split; auto.
Qed.

Lemma closure_frame_trans (pack_tid : Z) (d1 d2 d3 : db) :
  closure_frame pack_tid d1 d2 -> closure_frame pack_tid d2 d3 ->
  closure_frame pack_tid d1 d3.
Proof.
  intros [A1 [A2 [A3 [A4 A5]]]] [B1 [B2 [B3 [B4 B5]]]].
  split; [congruence |]. split; [congruence |].
  split; [eapply Forall2_keeps_on_trans; eassumption |].
  split; [auto |].
  intros r Hr. destruct (B5 r Hr) as [H | H]; [apply A5, H | now right].
Qed.

Lemma closure_loop_result (get_references : string -> string + list Z)
    (pack_tid : Z) (fuel : nat) :
  forall passes d n d',
  closure_loop get_references fuel pack_tid passes d = (Exn.Ok (Some n), d') ->
  keep_tid_sound pack_tid d ->
  closure_frame pack_tid d d' /\ keep_tids_set pack_tid d' /\
  closed_under_refs d'.
Proof.
  induction fuel as [| fuel IH]; intros passes d n d'; [discriminate |].
  cbn [closure_loop]. unfold Exn.bind.
  destruct (closure_step get_references pack_tid d) as [[m | e] d1] eqn:E;
    [| discriminate].
  intros Hloop J.
  destruct (closure_step_invariant get_references pack_tid d d1 m E J)
    as [J1 [F1 Hexit]].
  destruct m as [| m].
  - unfold Exn.ret in Hloop. injection Hloop as _ <-.
    destruct (Hexit eq_refl) as [H1 H2]. auto.
  - destruct (IH _ _ _ _ Hloop J1) as [F2 [H1 H2]].
    split; [eapply closure_frame_trans; eassumption | auto].
Qed.

Lemma pre_pack_with_gc_table (get_references : string -> string + list Z)
    (pack_tid : Z) (d d' : db) (n : option nat)
    (Hok : _pre_pack_with_gc get_references pack_tid d = (Exn.Ok n, d')) :
  object_state d' = object_state d /\
  current_object d' = current_object d /\
  NoDup (map po_zoid (pack_object d')) /\
  (forall z, In z (map po_zoid (pack_object d')) <->
             packable_object d pack_tid z) /\
  (forall p, In p (pack_object d') ->
     po_keep_tid p =
     if po_keep p then select_keep_tid pack_tid (po_zoid p) d else None) /\
  (forall p, In p (pack_object d') ->
     po_zoid p = 0 \/ revised_since d' pack_tid (po_zoid p)
     \/ referenced_since d' pack_tid (po_zoid p) ->
     po_keep p = true) /\
  closed_under_refs d'.
Proof.
  revert Hok. unfold _pre_pack_with_gc, Exn.bind at 1.
  destruct (_fill_nonpacked_refs get_references pack_tid d)
    as [[[] | e] da] eqn:Efill; [| discriminate].
  apply fill_nonpacked_refs_ok in Efill.
  destruct Efill as [[_ [Aos [Aco _]]] _].
  unfold Exn.bind at 1.
  change (seed_pack_object pack_tid da)
    with (Exn.Ok tt, snd (seed_pack_object pack_tid da)).
  set (ds := snd (seed_pack_object pack_tid da)).
  unfold Exn.bind, _create_temp_pack_visit, Exn.exec, Exn.query.
  set (dt := set_temp_pack_visit [] ds).
  intros Hloop.
  assert (Hrows := seed_pack_object_rows pack_tid da). fold ds in Hrows.
  assert (Hpt : pack_object dt = pack_object ds) by reflexivity.
  assert (J : keep_tid_sound pack_tid dt).
  { intros p k Hp Hk. rewrite Hpt, Hrows in Hp. apply in_map_iff in Hp.
    destruct Hp as [z [<- _]]. discriminate Hk. }
  assert (Hn : exists m, n = Some m).
  { pose proof (closure_loop_bound get_references pack_tid
                  (S (List.length (pack_object dt))) O dt) as Hb.
    pose proof (count_dead_keep_le_length dt) as Hlen.
    specialize (Hb ltac:(lia)). rewrite Hloop in Hb.
    destruct n as [m |]; [eauto | contradiction]. }
  destruct Hn as [m ->].
  destruct (closure_loop_result _ _ _ _ _ _ _ Hloop J)
    as [[Fos [Fco [Fpo [Fsub Fnew]]]] [Hset Hclosed]].
  assert (Hos : object_state d' = object_state d)
    by (rewrite Fos; exact Aos).
  assert (Hco : current_object d' = current_object d)
    by (rewrite Fco; exact Aco).
  assert (Hz : map po_zoid (pack_object d') =
               distinct (map os_zoid
                 (filter (fun r => os_tid r <=? pack_tid) (object_state d)))).
  { rewrite (Forall2_keeps_on_zoids _ _ Fpo), Hpt, Hrows, map_map.
    cbn [po_zoid]. rewrite map_id, Aos. reflexivity. }
  split; [exact Hos |]. split; [exact Hco |].
  split; [rewrite Hz; apply distinct_NoDup |].
  split; [intros z; rewrite Hz; apply packable_object_iff |].
  split.
  { intros p Hp. rewrite (Hset p Hp).
    now rewrite (select_keep_tid_ext _ _ _ _ Hos). }
  split; [| exact Hclosed].
  intros p Hp Hseed.
  destruct (Forall2_In_right _ _ _ _ Fpo Hp) as [p0 [Hp0 [Ez Hk]]].
  apply Hk. rewrite Hpt, Hrows in Hp0. apply in_map_iff in Hp0.
  destruct Hp0 as [z [<- _]]. cbn [po_keep po_zoid] in *. subst z.
  rewrite !orb_true_iff, Z.eqb_eq, revised_since_iff, referenced_since_iff.
  destruct Hseed as [H | [H | H]].
  - left. left. exact H.
  - left. right. destruct H as [c [Hc H]]. exists c.
    split; [| exact H]. change (current_object da) with (current_object dt).
    now rewrite <- Fco.
  - right. destruct H as [r [Hr [Hto Hlt]]]. exists r.
    split; [| auto]. destruct (Fnew r Hr) as [Hin | Hle]; [exact Hin | lia].
Qed.

(** X9: what a successful [_pre_pack_with_gc] leaves in [pack_object]:
    one row per object with a revision at or before [pack_tid]; kept rows
    carry the [keep_tid] of [select_keep_tid] and dead rows none; the root
    (zoid 0), every object revised after [pack_tid] and every object
    referred to from a transaction after [pack_tid] are kept; and the kept
    rows are closed under the references that leave a kept object at its
    [keep_tid]: such a reference never leads to a row marked dead.
    [object_state] and [current_object] are not touched. *)
Theorem pre_pack_with_gc_result (get_references : string -> string + list Z)
    (pack_tid : Z) (d d' : db) (n : option nat)
    (Hok : _pre_pack_with_gc get_references pack_tid d = (Exn.Ok n, d')) :
  object_state d' = object_state d /\
  current_object d' = current_object d /\
  NoDup (map po_zoid (pack_object d')) /\
  (forall z, In z (map po_zoid (pack_object d')) <->
             packable_object d pack_tid z) /\
  (forall p, In p (pack_object d') ->
     po_keep_tid p =
     if po_keep p then select_keep_tid pack_tid (po_zoid p) d else None) /\
  (forall p, In p (pack_object d') ->
     po_zoid p = 0 \/ revised_since d' pack_tid (po_zoid p)
     \/ referenced_since d' pack_tid (po_zoid p) ->
     po_keep p = true) /\
  closed_under_refs d'.
Proof. exact (pre_pack_with_gc_table get_references pack_tid d d' n Hok). Qed.

(** [pre_pack_with_gc_result] at [chain_db], packing at 10. *)
Lemma pre_pack_with_gc_result_witness :
  NoDup (map po_zoid
           (pack_object
              (snd (_pre_pack_with_gc Samples.refs 10 Samples.chain_db)))).
Proof.
  assert (Hok : _pre_pack_with_gc Samples.refs 10 Samples.chain_db =
                (Exn.Ok (Some 3%nat),
                 snd (_pre_pack_with_gc Samples.refs 10 Samples.chain_db)))
    by (vm_compute; reflexivity).
  destruct (pre_pack_with_gc_result Samples.refs 10 Samples.chain_db _ _ Hok)
    as [_ [_ [H _]]].
  exact H.
Defined.

(* ================================================================== *)
(** * [pre_pack] with GC, then [pack] *)
(* ================================================================== *)

Lemma pre_pack_with_gc_unfold (get_references : string -> string + list Z)
    (pack_tid : Z) (d d' : db) :
  pre_pack get_references pack_tid true d = (Exn.Ok tt, d') ->
  exists n, _pre_pack_with_gc get_references pack_tid d = (Exn.Ok n, d').
Proof.
  unfold pre_pack, Exn.in_transaction, Exn.bind, Exn.ret.
  destruct (_pre_pack_with_gc get_references pack_tid d) as [[n | e] d1];
    [| discriminate].
  intros [= <-]. eauto.
Qed.

(** X10: garbage collection never reaches beyond the pack horizon.  After
    a successful [pre_pack(pack_tid, gc=True)] and [pack(pack_tid)], every
    [current_object] row with [tid > pack_tid] is still there, and, when
    every revision is covered by its object's [current_object] row, every
    revision with [tid > pack_tid] is still there, unchanged. *)
Theorem pack_with_gc_keeps_later
    (get_references : string -> string + list Z) (pack_tid : Z) (d d' : db)
    (Hok : pre_pack get_references pack_tid true d = (Exn.Ok tt, d')) :
  (forall c, In c (current_object d) -> pack_tid < co_tid c ->
     In c (current_object (snd (pack pack_tid d')))) /\
  (current_covers d ->
   forall s, In s (object_state d) -> pack_tid < os_tid s ->
     In s (object_state (snd (pack pack_tid d')))).
Proof.
  destruct (pre_pack_with_gc_unfold _ _ _ _ Hok) as [n Hgc].
  destruct (pre_pack_with_gc_table _ _ _ _ _ Hgc)
    as [Hos [Hco [Hkey [_ [Hset [Hseed _]]]]]].
  assert (Hlive : forall c, In c (current_object d) -> pack_tid < co_tid c ->
    not_kept d' (co_zoid c) = false).
  { intros c Hc Hlt. apply not_kept_false_iff.
    intros [p [Hp [Hz Hk]]].
    assert (Hkeep : po_keep p = true).
    { apply (Hseed p Hp). right. left. exists c.
      rewrite Hco. auto. }
    congruence. }
  split.
  - intros c Hc Hlt.
    change (current_object (snd (pack pack_tid d')))
      with (current_object (snd (pack_delete_loop d'))).
    rewrite delete_loop_current_object. apply delete_where_In.
    rewrite Hco. split; [exact Hc | now apply Hlive].
  - intros Hcov s Hs Hlt.
    change (object_state (snd (pack pack_tid d')))
      with (object_state (terminate_prev_tid pack_tid
                            (snd (pack_delete_loop d')))).
    apply terminate_prev_tid_later; [| exact Hlt].
    apply delete_loop_object_state_In. rewrite Hos.
    split; [exact Hs |]. split.
    + destruct (Hcov s Hs) as [c [Hc [Hz Hle]]]. rewrite <- Hz.
      apply Hlive; [exact Hc | lia].
    + apply (before_keep_tid_false_iff d' _ _ Hkey).
      intros [p [k [Hp [Hz [Hk [Ht Hcut]]]]]].
      rewrite (Hset p Hp), Hk in Ht.
      apply select_keep_tid_le in Ht. lia.
Qed.

Lemma gc_db_current_covers : current_covers Samples.gc_db.
Proof.
  intros s Hs. simpl in Hs.
  destruct Hs as [<- | [<- | [<- | []]]]; simpl.
  - exists (mk_current_object 0 20). simpl. split; [tauto | split; [reflexivity | lia]].
  - exists (mk_current_object 2 10). simpl. split; [tauto | split; [reflexivity | lia]].
  - exists (mk_current_object 0 20). simpl. split; [tauto | split; [reflexivity | lia]].
Defined.

(** [pack_with_gc_keeps_later] at [gc_db], packing at 15. *)
Lemma pack_with_gc_keeps_later_witness :
  current_covers Samples.gc_db /\
  In (mk_object_state 0 20 10 (Some "none"%string))
     (object_state
        (snd (pack 15 (snd (pre_pack Samples.refs 15 true Samples.gc_db))))).
Proof.
  split; [exact gc_db_current_covers |].
  assert (Hok : pre_pack Samples.refs 15 true Samples.gc_db =
                (Exn.Ok tt, snd (pre_pack Samples.refs 15 true Samples.gc_db)))
    by (vm_compute; reflexivity).
  destruct (pack_with_gc_keeps_later Samples.refs 15 Samples.gc_db _ Hok)
    as [_ H].
  apply (H gc_db_current_covers).
  - simpl. right. right. left. reflexivity.
  - cbn [os_tid]. lia.
Defined.

(* ================================================================== *)
(** * More on the script runner *)
(* ================================================================== *)

Module RunnerMore.
Import Py Runner RunnerProps RunnerMoreProps.
Local Open Scope string_scope.

Lemma append_snoc (out : string) (c : ascii) (s : string) :
  (out ++ String c EmptyString) ++ s = out ++ String c s.
Proof.
  induction out as [| a out IH]; simpl; [reflexivity | now rewrite IH].
Qed.

Lemma format_from_text (vars : string -> option string) (s : string) :
  forall out, percent_free s = true ->
  format_from vars Text s out = inr (out ++ s).
Proof.
  induction s as [| c s IH]; intros out H; simpl.
  - f_equal. induction out as [| a out IHo]; simpl; [reflexivity |].
    now rewrite <- IHo.
  - simpl in H. apply andb_true_iff in H. destruct H as [Hc Hs].
    apply negb_true_iff in Hc. rewrite Hc, (IH _ Hs). f_equal.
    apply append_snoc.
Qed.

(** X11: a statement that holds no percent sign passes the template
    substitution unchanged, whatever the variables, and
    [_run_script_stmt] hands it to [cursor.execute] exactly as written,
    once, with the parameters it was given. *)
Theorem percent_free_statement (Conn : Type)
    (cursor_execute : string -> params -> Conn -> Conn * option string)
    (vars : string -> option string) (stmt : string) (p : params)
    (w : world Conn) (Hfree : percent_free stmt = true) :
  format stmt vars = inr stmt /\
  executed (snd (_run_script_stmt cursor_execute stmt p w)) =
    (executed w ++ [(stmt, p)])%list.
Proof.
  assert (E : forall v, format stmt v = inr stmt)
    by (intros v; unfold format; now rewrite format_from_text).
  split; [apply E |].
  unfold _run_script_stmt. rewrite E.
  destruct (cursor_execute stmt p (conn w)) as [c [e |]]; reflexivity.
Qed.

(** [percent_free_statement] on the statement of [_hold_commit_lock]. *)
Lemma percent_free_statement_witness :
  format "LOCK TABLE commit_lock IN EXCLUSIVE MODE" _script_vars =
    inr "LOCK TABLE commit_lock IN EXCLUSIVE MODE" /\
  executed (snd (_run_script_stmt accepting_execute
                   "LOCK TABLE commit_lock IN EXCLUSIVE MODE" [] fresh_world)) =
    [("LOCK TABLE commit_lock IN EXCLUSIVE MODE", [])].
Proof.
  apply (percent_free_statement unit accepting_execute _script_vars
           "LOCK TABLE commit_lock IN EXCLUSIVE MODE" [] fresh_world).
  reflexivity.
Defined.

Section Outcome.
Context {Conn : Type}.
Variable cursor_execute : string -> params -> Conn -> Conn * option string.
Variable p : params.

Lemma run_script_stmt_outcome (generic_stmt : string) (w : world Conn) :
  match _run_script_stmt cursor_execute generic_stmt p w with
  | (Ok _, w') =>
      log w' = log w /\
      exists stmt, executed w' = (executed w ++ [(stmt, p)])%list
  | (Raise (DriverError e), w') =>
      exists stmt,
        log w' = (log w ++ [failure_record stmt p])%list /\
        executed w' = (executed w ++ [(stmt, p)])%list
  | (Raise (FormatError _), w') => w' = w
  end.
Proof.
  unfold _run_script_stmt.
  destruct (format generic_stmt _script_vars) as [e | stmt];
    [reflexivity |].
  destruct (cursor_execute stmt p (conn w)) as [c [e |]]; simpl; eauto.
Qed.

Lemma run_each_outcome (stmts : list string) :
  forall w,
  match run_each cursor_execute stmts p w with
  | (Ok _, w') => log w' = log w /\ extends (executed w) (executed w')
  | (Raise (DriverError e), w') =>
      exists stmt before,
        log w' = (log w ++ [failure_record stmt p])%list /\
        executed w' = (executed w ++ before ++ [(stmt, p)])%list
  | (Raise (FormatError _), w') =>
      log w' = log w /\ extends (executed w) (executed w')
  end.
Proof.
  induction stmts as [| s stmts IH]; intros w; cbn [run_each].
  - split; [reflexivity |]. exists []. now rewrite app_nil_r.
  - unfold then_.
    pose proof (run_script_stmt_outcome s w) as H1.
    destruct (_run_script_stmt cursor_execute s p w) as [[[] | [e | e]] w1].
    + destruct H1 as [Hl [stmt He]]. specialize (IH w1).
      destruct (run_each cursor_execute stmts p w1) as [[[] | [e | e]] w2].
      * destruct IH as [Hl2 [more Hm]]. split; [congruence |].
        exists ((stmt, p) :: more). rewrite Hm, He, <- app_assoc. reflexivity.
      * destruct IH as [st [before [Hl2 He2]]].
        exists st, ((stmt, p) :: before). split; [congruence |].
        rewrite He2, He, <- app_assoc. reflexivity.
      * destruct IH as [Hl2 [more Hm]]. split; [congruence |].
        exists ((stmt, p) :: more). rewrite Hm, He, <- app_assoc. reflexivity.
    + destruct H1 as [stmt [Hl He]]. exists stmt, []. auto.
    + subst w1. split; [reflexivity |]. exists []. now rewrite app_nil_r.
Qed.

End Outcome.

(** X12: how [_run_script] ends.  If it returns, nothing was logged.  If
    the driver raised, exactly one record was logged, the WARNING for the
    statement executed last, and no statement was executed after it.  If
    the template substitution raised, nothing was logged.  The calls made
    to [cursor.execute] before the script are never undone. *)
Theorem run_script_outcome (Conn : Type)
    (cursor_execute : string -> params -> Conn -> Conn * option string)
    (script : string) (p : params) (w : world Conn) :
  match _run_script cursor_execute script p w with
  | (Ok _, w') => log w' = log w /\ extends (executed w) (executed w')
  | (Raise (DriverError e), w') =>
      exists stmt before,
        log w' = (log w ++ [mk_log WARNING
                    "script statement failed: %r; parameters: %r"
                    [ReprStr stmt; ReprParams p]])%list /\
        executed w' = (executed w ++ before ++ [(stmt, p)])%list
  | (Raise (FormatError _), w') =>
      log w' = log w /\ extends (executed w) (executed w')
  end.
Proof.
  unfold _run_script.
  destruct (RunnerFacts.run_script_lines_statements cursor_execute p
              (split_nl script) [] (Forall_nil _)) as [stmts [_ Hrun]].
  rewrite Hrun. apply run_each_outcome.
Qed.

(** X13: a script made of blank lines and comment lines only runs no
    statement: [_run_script] returns at once and changes nothing. *)
Theorem run_script_nothing (Conn : Type)
    (cursor_execute : string -> params -> Conn -> Conn * option string)
    (script : string) (p : params) (w : world Conn)
    (Hblank : retained (split_nl script) = []) :
  _run_script cursor_execute script p w = (Ok tt, w).
Proof.
  unfold _run_script.
  destruct (RunnerFacts.run_script_lines_statements cursor_execute p
              (split_nl script) [] (Forall_nil _)) as [stmts [Hs Hrun]].
  rewrite Hrun. cbn [app] in Hs. rewrite Hblank in Hs.
  inversion Hs as [| lines Hne _ | lines body rest stmts' _ _ Heq].
  - reflexivity.
  - contradiction.
  - exfalso. destruct lines; discriminate Heq.
Qed.

(** [run_script_nothing] on a script of one comment between blank lines. *)
Lemma run_script_nothing_witness :
  _run_script failing_execute
    (join_nl [EmptyString; "  -- nothing to do;"; "   "]) [] fresh_world =
  (Ok tt, fresh_world).
Proof.
  apply (run_script_nothing unit failing_execute).
  reflexivity.
Defined.

End RunnerMore.

(* ================================================================== *)
(** * More on [run_lob_stmt] *)
(* ================================================================== *)

Module OracleMore.
Import Py Oracle OracleMoreProps.
Local Open Scope string_scope.

Section Cursor.
Context {Args Conn D : Type}.
Variable cursor_execute : bool -> string -> Args -> Conn -> Conn * option exn.
Variable cursor_next : bool -> Conn -> Conn * result (option row).
Variable args : Args.

Lemma execute_and_fetch_trace (stmt : string) (f : row -> row)
    (w : world Conn) :
  outputtypehandler
    (snd (execute_and_fetch cursor_execute cursor_next stmt args f w)) =
    outputtypehandler w /\
  executed (snd (execute_and_fetch cursor_execute cursor_next stmt args f w)) =
    (executed w ++ [stmt])%list.
Proof.
  unfold execute_and_fetch, execute, next.
  destruct (cursor_execute (outputtypehandler w) stmt args (conn w))
    as [c [e |]]; cbn [snd fst outputtypehandler executed conn];
    [split; reflexivity |].
  destruct (cursor_next (outputtypehandler w) c) as [c' [[r |] | e]];
    split; reflexivity.
Qed.

Lemma inline_attempt_trace (stmt : string) (w : world Conn) :
  outputtypehandler
    (snd (inline_attempt cursor_execute cursor_next stmt args w)) = false /\
  executed (snd (inline_attempt cursor_execute cursor_next stmt args w)) =
    (executed w ++ [stmt])%list.
Proof.
  unfold inline_attempt, with_handler.
  pose proof (execute_and_fetch_trace stmt (fun r => r) (set_handler Conn true w))
    as [_ H].
  destruct (execute_and_fetch cursor_execute cursor_next stmt args
              (fun r => r) (set_handler Conn true w)) as [r w1].
  cbn [snd] in *. split; [reflexivity | exact H].
Qed.

Lemma second_attempt_trace (stmt : string) (w : world Conn) :
  outputtypehandler
    (snd (second_attempt cursor_execute cursor_next stmt args w)) =
    outputtypehandler w /\
  executed (snd (second_attempt cursor_execute cursor_next stmt args w)) =
    (executed w ++ [(stmt ++ " ")%string])%list.
Proof. apply execute_and_fetch_trace. Qed.

Lemma execute_and_fetch_values (stmt : string) (w : world Conn) (r : row) :
  fst (execute_and_fetch cursor_execute cursor_next stmt args
         (map _read_lob) w) = Ok (Some r) ->
  Forall is_value r.
Proof.
  unfold execute_and_fetch, execute, next.
  destruct (cursor_execute (outputtypehandler w) stmt args (conn w))
    as [c [e |]]; cbn [fst snd outputtypehandler conn executed];
    [discriminate |].
  destruct (cursor_next (outputtypehandler w) c) as [c' [[r0 |] | e]];
    cbn [fst]; try discriminate.
  intros [= <-]. apply Forall_forall. intros x Hx.
  apply in_map_iff in Hx. destruct Hx as [y [<- _]].
  destruct y; simpl; eexists; reflexivity.
Qed.

(** The trace of one call of [run_lob_stmt]. *)
Lemma run_lob_stmt_trace (use_inline_lobs : bool) (stmt : string)
    (default : D) (w : world Conn) :
  let out := run_lob_stmt cursor_execute cursor_next use_inline_lobs stmt
               args default w in
  outputtypehandler (snd out) =
    (if use_inline_lobs then false else outputtypehandler w) /\
  (executed (snd out) = (executed w ++ [stmt])%list \/
   (use_inline_lobs = true /\
    fst (inline_attempt cursor_execute cursor_next stmt args w) =
      Raise (DatabaseError [ErrObj 1406]) /\
    executed (snd out) = (executed w ++ [stmt; (stmt ++ " ")%string])%list)).
Proof.
  intros out. subst out. unfold run_lob_stmt.
  destruct use_inline_lobs.
  - pose proof (inline_attempt_trace stmt w) as [Hh He].
    destruct (inline_attempt cursor_execute cursor_next stmt args w)
      as [[r | e] w1]; cbn [snd fst] in *; [auto |].
    destruct e as [eargs | tag | msg | msg]; cbn [snd]; auto.
    destruct eargs as [| error [| e2 eargs]]; cbn [unpack_single snd]; auto.
    destruct error as [s | code]; cbn [is_other_error].
    + destruct (negb (endswith " 1406" s)); cbn [snd]; auto.
    + destruct (Z.eqb_spec code 1406) as [-> | Hc]; cbn [negb snd]; auto.
      pose proof (second_attempt_trace stmt w1) as [Hh2 He2].
      destruct (second_attempt cursor_execute cursor_next stmt args w1)
        as [[r | e] w2]; cbn [snd] in *.
      * split; [congruence |]. right.
        split; [reflexivity |]. split; [reflexivity |].
        rewrite He2, He, <- app_assoc. reflexivity.
      * split; [congruence |]. right.
        split; [reflexivity |]. split; [reflexivity |].
        rewrite He2, He, <- app_assoc. reflexivity.
  - pose proof (execute_and_fetch_trace stmt (map _read_lob) w) as [Hh He].
    destruct (execute_and_fetch cursor_execute cursor_next stmt args
                (map _read_lob) w) as [[r | e] w1]; cbn [snd] in *; auto.
Qed.

End Cursor.

(** X14: [run_lob_stmt] never leaves the output type handler on the
    cursor: with inline LOBs in use the attribute is removed again on
    every path, an exception included; without them it is never touched. *)
Theorem run_lob_stmt_handler_removed (Args Conn D : Type)
    (cursor_execute : bool -> string -> Args -> Conn -> Conn * option exn)
    (cursor_next : bool -> Conn -> Conn * result (option row))
    (use_inline_lobs : bool) (stmt : string) (args : Args) (default : D)
    (w : world Conn) :
  outputtypehandler
    (snd (run_lob_stmt cursor_execute cursor_next use_inline_lobs stmt args
            default w)) =
  if use_inline_lobs then false else outputtypehandler w.
Proof.
  exact (proj1 (run_lob_stmt_trace cursor_execute cursor_next args
                  use_inline_lobs stmt default w)).
Qed.

(** X15: [run_lob_stmt] runs the statement once, or once more with a
    blank appended and never a third time; the second run happens only
    with inline LOBs in use and only after the first attempt raised a
    [DatabaseError] whose error object has code 1406. *)
Theorem run_lob_stmt_runs (Args Conn D : Type)
    (cursor_execute : bool -> string -> Args -> Conn -> Conn * option exn)
    (cursor_next : bool -> Conn -> Conn * result (option row))
    (use_inline_lobs : bool) (stmt : string) (args : Args) (default : D)
    (w : world Conn) :
  let out := run_lob_stmt cursor_execute cursor_next use_inline_lobs stmt
               args default w in
  executed (snd out) = (executed w ++ [stmt])%list \/
  (use_inline_lobs = true /\
   fst (inline_attempt cursor_execute cursor_next stmt args w) =
     Raise (DatabaseError [ErrObj 1406]) /\
   executed (snd out) = (executed w ++ [stmt; (stmt ++ " ")%string])%list).
Proof.
  exact (proj2 (run_lob_stmt_trace cursor_execute cursor_next args
                  use_inline_lobs stmt default w)).
Qed.

(** X16: without inline LOBs, a row returned by [run_lob_stmt] holds no
    LOB handle, every cell having gone through [_read_lob]; and the
    default comes back only as the default given. *)
Theorem run_lob_stmt_plain_values (Args Conn D : Type)
    (cursor_execute : bool -> string -> Args -> Conn -> Conn * option exn)
    (cursor_next : bool -> Conn -> Conn * result (option row))
    (stmt : string) (args : Args) (default : D) (w : world Conn) :
  (forall r, fst (run_lob_stmt cursor_execute cursor_next false stmt args
                    default w) = Ok (inl r) ->
             Forall is_value r) /\
  (forall x, fst (run_lob_stmt cursor_execute cursor_next false stmt args
                    default w) = Ok (inr x) ->
             x = default).
Proof.
  unfold run_lob_stmt.
  pose proof (execute_and_fetch_values cursor_execute cursor_next args stmt w)
    as Hv.
  destruct (execute_and_fetch cursor_execute cursor_next stmt args
              (map _read_lob) w) as [[[r0 |] | e] w1]; cbn [fst] in *;
    split; intros y; try discriminate.
  - intros [= <-]. now apply Hv.
  - intros [= <-]. reflexivity.
Qed.

End OracleMore.

(* ================================================================== *)
(** * Reading the database after [pack] *)
(* ================================================================== *)

Lemma nothing_in {A : Type} (l : list A) : (forall x, ~ In x l) -> l = [].
Proof.
  destruct l as [| a l]; [reflexivity |].
  intros H. exfalso. apply (H a). now left.
Qed.

Lemma pack_leaves_packed (pack_tid : Z) (d : db) (r : transaction_row) :
  In r (transaction (snd (pack pack_tid d))) ->
  0 < tx_tid r -> tx_tid r <= pack_tid -> tx_packed r = true.
Proof.
  intros Hr H0 Hle.
  destruct (pack_transaction_rows pack_tid d) as [H _].
  cbv zeta in H. now destruct (H r Hr H0 Hle).
Qed.

(** X17: once [pack(pack_tid)] has run, [choose_pack_transaction] finds
    nothing to pack at or below [pack_tid]: for every bound not beyond
    [pack_tid] it returns [None]. *)
Theorem nothing_to_pack_after_pack (pack_tid bound : Z) (d : db)
    (Hbound : bound <= pack_tid) :
  fst (choose_pack_transaction bound (snd (pack pack_tid d))) = Exn.Ok None.
Proof.
  unfold choose_pack_transaction, Exn.bind, Exn.query,
    select_choose_pack_transaction, limit.
  set (d2 := snd (pack pack_tid d)).
  assert (E : map tx_tid
                (filter (fun r => (0 <? tx_tid r) && (tx_tid r <=? bound)
                                  && negb (tx_packed r))
                        (transaction d2)) = []).
  { apply nothing_in. intros t Ht. apply packable_filter in Ht.
    destruct Ht as [r [Hr [<- [H0 [Hle Hp]]]]].
    assert (tx_packed r = true)
      by (apply (pack_leaves_packed pack_tid d r Hr); lia).
    congruence. }
  rewrite E. reflexivity.
Qed.

(** [nothing_to_pack_after_pack] at [prepared_db], packed at 25. *)
Lemma nothing_to_pack_after_pack_witness :
  fst (choose_pack_transaction 25 (snd (pack 25 Samples.prepared_db))) =
  Exn.Ok None.
Proof.
  apply (nothing_to_pack_after_pack 25 25 Samples.prepared_db). lia.
Defined.

(** X18: packed history is not listed.  After [pack(pack_tid)], neither
    [iter_transactions] nor [iter_object_history] yields a row whose tid
    lies in [(0, pack_tid]]. *)
Theorem packed_history_hidden (pack_tid oid : Z) (d : db) :
  let d2 := snd (pack pack_tid d) in
  (forall rows x, fst (iter_transactions d2) = Exn.Ok rows -> In x rows ->
     info_tid x <= 0 \/ pack_tid < info_tid x) /\
  (forall rows h, fst (iter_object_history oid d2) = Exn.Ok rows ->
     In h rows -> h_tid h <= 0 \/ pack_tid < h_tid h).
Proof.
  intros d2.
  assert (Hhidden : forall r, In r (transaction d2) -> tx_packed r = false ->
            tx_tid r <= 0 \/ pack_tid < tx_tid r).
  { intros r Hr Hp.
    destruct (Z.le_gt_cases (tx_tid r) 0) as [H0 | H0]; [now left |].
    destruct (Z.le_gt_cases (tx_tid r) pack_tid) as [Hle | Hgt];
      [| right; lia].
    assert (tx_packed r = true)
      by (apply (pack_leaves_packed pack_tid d r Hr); lia).
    congruence. }
  split.
  - intros rows x [= <-] Hx. unfold select_transactions in Hx.
    apply order_by_desc_In, in_map_iff in Hx.
    destruct Hx as [r [<- Hr]]. apply filter_In in Hr.
    destruct Hr as [Hr Hc]. apply andb_true_iff in Hc.
    destruct Hc as [Hp _]. apply negb_true_iff in Hp.
    cbn [info_tid fst]. now apply Hhidden.
  - intros rows h. unfold iter_object_history, Exn.bind, Exn.query, Exn.raise.
    destruct (select_current_object oid d2); [discriminate |].
    intros [= <-] Hh. apply select_object_history_In in Hh.
    destruct Hh as [t [s [Ht [_ [_ [_ [Hp ->]]]]]]].
    cbn [h_tid]. now apply Hhidden.
Qed.
